(** * CampaignCentral: the storage layer

    A shallow embedding of the two storage backends of the campaign
    dashboard, [DatabaseStorage] (drizzle over PostgreSQL) and [MemStorage]
    (process-local [Map]s), and of the JavaScript runtime pieces they rely on
    ([Date] arithmetic, truthiness, [||], [??], [String.prototype.includes],
    SQL [LIKE]).

    Conventions of the embedding:
    - a JavaScript [number] holding an id or a counter is a [Z];
    - [undefined] and [null] are both [None]; an optional field is an [option];
    - a [Date] is its time value, the number of milliseconds since the epoch;
    - every reading of the clock is an argument: [now] for an operation
      that reads it once, [now] and [startDate] for the listings, which read
      it twice; the local time zone is an argument too;
      [createResetToken] takes the random token as an argument;
    - an [async] method is its sequential body: state in, result and state out;
    - a table of the relational backend is the list of its rows, in one
      order in which a query may return them; PostgreSQL fixes no such
      order for a query without [ORDER BY] (see [Drizzle]);
    - the unique constraints of the schema, which is not part of these
      sources, are not modelled: properties of the relational [createUser]
      are stated for a username and an email that are not stored yet;
    - the settings of the in-memory backend are a state of their own; the
      settings table of the relational backend and the session stores are
      left out. *)

From Stdlib Require Import ZArith List String Ascii Bool Lia.
Import ListNotations.

Local Open Scope string_scope.
Local Open Scope list_scope.
Local Open Scope Z_scope.

(** ** JavaScript values *)

Module JS.

(** Truthiness of an optional string: [undefined], [null] and the empty
    string are falsy. *)
Definition truthy (o : option string) : bool :=
  match o with
  | Some s => negb (String.eqb s "")
  | None => false
  end.

(** [x || null] on an optional string. *)
Definition or_null (o : option string) : option string :=
  if truthy o then o else None.

(** [x || 0] on an optional number ([0] is the only falsy integer). *)
Definition or_zero (o : option Z) : Z :=
  match o with
  | Some n => if Z.eqb n 0 then 0%Z else n
  | None => 0%Z
  end.

(** [x ?? d]: [d] only when [x] is [undefined] or [null]. *)
Definition nullish {A : Type} (o : option A) (d : A) : A :=
  match o with
  | Some x => x
  | None => d
  end.

(** [a === b] on optional strings. *)
Definition strict_eq_opt (a b : option string) : bool :=
  match a, b with
  | Some x, Some y => String.eqb x y
  | None, None => true
  | _, _ => false
  end.

(** [String.prototype.toLowerCase] on text of ASCII characters: the letters
    A to Z are lowered and nothing else changes.  On other text the library
    function follows the Unicode case mapping; the listings of the
    in-memory backend therefore take the lowering function as an argument,
    and this definition stands for it only where the text is ASCII. *)
Definition lower_ascii (c : ascii) : ascii :=
  let n := nat_of_ascii c in
  if andb (Nat.leb 65 n) (Nat.leb n 90) then ascii_of_nat (n + 32) else c.

Fixpoint toLowerCase (s : string) : string :=
  match s with
  | EmptyString => EmptyString
  | String c r => String (lower_ascii c) (toLowerCase r)
  end.

(** [String.prototype.includes]. *)
Fixpoint includes (s sub : string) : bool :=
  if String.prefix sub s then true
  else match s with
       | EmptyString => false
       | String _ r => includes r sub
       end.

(** Object spread [{...old, ...given}] on one key: the key of the second
    object wins when it is present. *)
Definition spread {A : Type} (given : option A) (old : A) : A :=
  match given with
  | Some x => x
  | None => old
  end.

(** [x || null] on an optional key of a partial record: an absent key is
    [undefined], a present one may hold [null] or a string. *)
Definition or_null_key (given : option (option string)) : option string :=
  match given with
  | Some v => or_null v
  | None => None
  end.

End JS.

(** ** The [Date] object (ECMA-262, section "Date Objects")

    Time values are integers (the [TimeClip] range check and invalid dates
    are left out).  The local time zone is the function [LocalTZA] of the
    standard, which the implementation takes from the time zone data of
    the host. *)

Module JSDate.

Local Open Scope Z_scope.

Definition msPerDay : Z := 86400000.

Definition Day (t : Z) : Z := t / msPerDay.
Definition TimeWithinDay (t : Z) : Z := t mod msPerDay.

Definition isLeap (y : Z) : bool :=
  ((y mod 4 =? 0) && negb (y mod 100 =? 0)) || (y mod 400 =? 0).

Definition DaysInYear (y : Z) : Z := if isLeap y then 366 else 365.

Definition DayFromYear (y : Z) : Z :=
  365 * (y - 1970) + (y - 1969) / 4 - (y - 1901) / 100 + (y - 1601) / 400.

(** The largest year whose first day is not after day [d]: an estimate
    from the mean year length, corrected by one year either way. *)
Definition YearFromDay (d : Z) : Z :=
  let y0 := 1970 + (d * 400) / 146097 in
  if d <? DayFromYear y0 then y0 - 1
  else if DayFromYear (y0 + 1) <=? d then y0 + 1
  else y0.

Definition YearFromTime (t : Z) : Z := YearFromDay (Day t).

Definition DayWithinYear (t : Z) : Z := Day t - DayFromYear (YearFromTime t).

Definition InLeapYear (t : Z) : Z :=
  if isLeap (YearFromTime t) then 1 else 0.

(** Day number, within its year, of the first day of month [m] (0-11);
    [l] is 1 in a leap year. *)
Definition monthStart (m l : Z) : Z :=
  if m =? 0 then 0
  else if m =? 1 then 31
  else if m =? 2 then 59 + l
  else if m =? 3 then 90 + l
  else if m =? 4 then 120 + l
  else if m =? 5 then 151 + l
  else if m =? 6 then 181 + l
  else if m =? 7 then 212 + l
  else if m =? 8 then 243 + l
  else if m =? 9 then 273 + l
  else if m =? 10 then 304 + l
  else 334 + l.

Definition monthOfDay (dwy l : Z) : Z :=
  if dwy <? 31 then 0
  else if dwy <? 59 + l then 1
  else if dwy <? 90 + l then 2
  else if dwy <? 120 + l then 3
  else if dwy <? 151 + l then 4
  else if dwy <? 181 + l then 5
  else if dwy <? 212 + l then 6
  else if dwy <? 243 + l then 7
  else if dwy <? 273 + l then 8
  else if dwy <? 304 + l then 9
  else if dwy <? 334 + l then 10
  else 11.

Definition MonthFromTime (t : Z) : Z :=
  monthOfDay (DayWithinYear t) (InLeapYear t).

Definition DateFromTime (t : Z) : Z :=
  DayWithinYear t - monthStart (MonthFromTime t) (InLeapYear t) + 1.

(** [MakeDay(year, month, date)]: months outside 0-11 carry into the year,
    dates outside the month carry into the neighbouring months. *)
Definition MakeDay (year month date : Z) : Z :=
  let ym := year + month / 12 in
  let mn := month mod 12 in
  DayFromYear ym + monthStart mn (if isLeap ym then 1 else 0) + date - 1.

Definition MakeDate (day time : Z) : Z := day * msPerDay + time.

Definition msPerHour : Z := 3600000.
Definition msPerMinute : Z := 60000.
Definition msPerSecond : Z := 1000.

Definition HourFromTime (t : Z) : Z := (t / msPerHour) mod 24.
Definition MinFromTime (t : Z) : Z := (t / msPerMinute) mod 60.
Definition SecFromTime (t : Z) : Z := (t / msPerSecond) mod 60.
Definition msFromTime (t : Z) : Z := t mod msPerSecond.

Definition MakeTime (hour min sec ms : Z) : Z :=
  hour * msPerHour + min * msPerMinute + sec * msPerSecond + ms.

(** Length of month [m] (0-11) of year [y], read off the month table. *)
Definition DaysInMonth (y m : Z) : Z :=
  let l := if isLeap y then 1 else 0 in
  if m =? 11 then 31 else monthStart (m + 1) l - monthStart m l.

(** [LocalTZA(t, isUTC)]: the offset of local time from UTC in
    milliseconds, at the instant [t] when [isUTC] is true and at the local
    time value [t] when it is false.  It changes at the daylight-saving
    transitions of the zone. *)
Definition zone : Type := Z -> bool -> Z.

(** A zone whose offset is [tza] at all times. *)
Definition fixed (tza : Z) : zone := fun _ _ => tza.

Section Local.

Variable LocalTZA : zone.

Definition LocalTime (t : Z) : Z := t + LocalTZA t true.
Definition UTC (t : Z) : Z := t - LocalTZA t false.

Definition getDate (t : Z) : Z := DateFromTime (LocalTime t).
Definition getMonth (t : Z) : Z := MonthFromTime (LocalTime t).
Definition getFullYear (t : Z) : Z := YearFromTime (LocalTime t).

Definition getHours (t : Z) : Z := HourFromTime (LocalTime t).

(** [d.setHours(hour)]: minutes, seconds and milliseconds are kept. *)
Definition setHours (t hour : Z) : Z :=
  let l := LocalTime t in
  UTC (MakeDate (Day l)
         (MakeTime hour (MinFromTime l) (SecFromTime l) (msFromTime l))).

(** [d.setHours(hour, min, sec, ms)] *)
Definition setHours4 (t hour min sec ms : Z) : Z :=
  UTC (MakeDate (Day (LocalTime t)) (MakeTime hour min sec ms)).

(** [d.setDate(date)] *)
Definition setDate (t date : Z) : Z :=
  let l := LocalTime t in
  UTC (MakeDate (MakeDay (YearFromTime l) (MonthFromTime l) date)
                (TimeWithinDay l)).

(** [d.setMonth(month)] *)
Definition setMonth (t month : Z) : Z :=
  let l := LocalTime t in
  UTC (MakeDate (MakeDay (YearFromTime l) month (DateFromTime l))
                (TimeWithinDay l)).

(** [d.setFullYear(year)] *)
Definition setFullYear (t year : Z) : Z :=
  let l := LocalTime t in
  UTC (MakeDate (MakeDay year (MonthFromTime l) (DateFromTime l))
                (TimeWithinDay l)).

End Local.

End JSDate.

(** ** SQL [LIKE] (PostgreSQL)

    [%] matches any run of characters, [_] any one character, a backslash
    makes the next pattern character literal; the match is case sensitive.
    A pattern that ends in a lone backslash is an error in PostgreSQL and
    matches nothing here. *)

Module SQL.

Fixpoint like_pattern (p : string) : string -> bool :=
  match p with
  | EmptyString => fun s => match s with EmptyString => true | _ => false end
  | String c p' =>
      if Ascii.eqb c "%" then
        fix any (s : string) : bool :=
          like_pattern p' s
          || match s with
             | EmptyString => false
             | String _ r => any r
             end
      else if Ascii.eqb c "_" then
        fun s => match s with
                 | EmptyString => false
                 | String _ r => like_pattern p' r
                 end
      else if Ascii.eqb c "\" then
        match p' with
        | EmptyString => fun _ => false
        | String e p'' =>
            fun s => match s with
                     | EmptyString => false
                     | String d r => Ascii.eqb e d && like_pattern p'' r
                     end
        end
      else
        fun s => match s with
                 | EmptyString => false
                 | String d r => Ascii.eqb c d && like_pattern p' r
                 end
  end.

(** [like(column, pattern)] *)
Definition like (column pattern : string) : bool := like_pattern pattern column.

(** [eq(column, value)] on a nullable text column: [NULL = v] is not true. *)
Definition eq_text (column : option string) (value : string) : bool :=
  match column with
  | Some c => String.eqb c value
  | None => false
  end.

End SQL.

(** ** Entities

    The entity and insert types come from [@shared/schema], which the
    storage layer imports; the fields are those of the data model table of
    the specification and those the storage code reads and writes. *)

Module User.

(** Modelled from the spec: the [User] row of [@shared/schema] (data model
    table: id, username, email, password, resetToken, resetTokenExpiry,
    createdAt). *)
Record t : Type := mk {
  id : Z;
  username : string;
  email : option string;
  password : string;
  resetToken : option string;
  resetTokenExpiry : option Z;
  createdAt : Z
}.
End User.

Module InsertUser.

(** Modelled from the spec: the [InsertUser] input of [@shared/schema]: what
    [createUser] receives; email is optional. *)
Record t : Type := mk {
  username : string;
  password : string;
  email : option string
}.
End InsertUser.

Module Contact.

(** Modelled from the spec: the [Contact] row of [@shared/schema] (data
    model table: id, accountId, name, mobile, label, location, createdAt). *)
Record t : Type := mk {
  id : Z;
  accountId : Z;
  name : string;
  mobile : string;
  label : option string;
  location : option string;
  createdAt : Z
}.
End Contact.

Module InsertContact.

(** Modelled from the spec: the [InsertContact] input of [@shared/schema];
    label and location are optional. *)
Record t : Type := mk {
  accountId : Z;
  name : string;
  mobile : string;
  label : option string;
  location : option string
}.
End InsertContact.

Module Campaign.

(** Modelled from the spec: the [Campaign] row of [@shared/schema] (data
    model table: id, accountId, name, template, contactLabel, status,
    scheduledFor, createdAt). *)
Record t : Type := mk {
  id : Z;
  accountId : Z;
  name : string;
  template : string;
  contactLabel : option string;
  status : string;
  scheduledFor : option string;
  createdAt : Z
}.
End Campaign.

Module InsertCampaign.

(** Modelled from the spec: the [InsertCampaign] input of [@shared/schema];
    contactLabel, status and scheduledFor are optional. *)
Record t : Type := mk {
  accountId : Z;
  name : string;
  template : string;
  contactLabel : option string;
  status : option string;
  scheduledFor : option string
}.
End InsertCampaign.

Module Analytics.

(** Modelled from the spec: the [Analytics] row of [@shared/schema] (data
    model table: id, accountId, campaignId, the six counters, updatedAt). *)
Record t : Type := mk {
  id : Z;
  accountId : Z;
  campaignId : Z;
  sent : Z;
  delivered : Z;
  read : Z;
  optout : Z;
  hold : Z;
  failed : Z;
  updatedAt : Z
}.

(** The six counters, in the order sent, delivered, read, optout, hold,
    failed. *)
Definition counters (a : t) : list Z :=
  [sent a; delivered a; read a; optout a; hold a; failed a].
End Analytics.

Module InsertAnalytics.

(** Modelled from the spec: the [InsertAnalytics] input of [@shared/schema];
    each counter is optional. *)
Record t : Type := mk {
  accountId : Z;
  campaignId : Z;
  sent : option Z;
  delivered : option Z;
  read : option Z;
  optout : option Z;
  hold : option Z;
  failed : option Z
}.
End InsertAnalytics.

(** ** Filter types *)

Module ContactFilters.
Record t : Type := mk {
  search : option string;
  label : option string;
  location : option string;
  dateRange : option string
}.
End ContactFilters.

Module CampaignFilters.
Record t : Type := mk {
  search : option string;
  status : option string;
  dateRange : option string
}.
End CampaignFilters.

(** ** Partial records

    A [Partial<Insert...>] as the route handlers decode it from a JSON body:
    a key is absent ([None]) or present; a nullable text key that is
    present holds a string or [null] ([Some None]). *)

Module PartialContact.

(** Modelled from the spec: [Partial<InsertContact>] of [@shared/schema]. *)
Record t : Type := mk {
  accountId : option Z;
  name : option string;
  mobile : option string;
  label : option (option string);
  location : option (option string)
}.

Definition empty : t := mk None None None None None.
End PartialContact.

Module PartialCampaign.

(** Modelled from the spec: [Partial<InsertCampaign>] of [@shared/schema]. *)
Record t : Type := mk {
  accountId : option Z;
  name : option string;
  template : option string;
  contactLabel : option (option string);
  status : option string;
  scheduledFor : option (option string)
}.

Definition empty : t := mk None None None None None None.
End PartialCampaign.

Module Settings.

(** Modelled from the spec: the [Settings] row of [@shared/schema] (data
    model table: id, accountId, wabaApiUrl, facebookAccessToken,
    partnerMobile, wabaId, campaignApiKey, updatedAt). *)
Record t : Type := mk {
  id : Z;
  accountId : Z;
  wabaApiUrl : option string;
  facebookAccessToken : option string;
  partnerMobile : option string;
  wabaId : option string;
  campaignApiKey : option string;
  updatedAt : Z
}.

(** The five configuration values, in the order of the record. *)
Definition values (s : t) : list (option string) :=
  [wabaApiUrl s; facebookAccessToken s; partnerMobile s; wabaId s;
   campaignApiKey s].
End Settings.

Module PartialSettings.

(** Modelled from the spec: [Partial<InsertSettings>] of [@shared/schema]. *)
Record t : Type := mk {
  accountId : option Z;
  wabaApiUrl : option (option string);
  facebookAccessToken : option (option string);
  partnerMobile : option (option string);
  wabaId : option (option string);
  campaignApiKey : option (option string)
}.

Definition empty : t := mk None None None None None None.

(** The five configuration keys, in the order of [Settings.values]. *)
Definition keys (p : t) : list (option (option string)) :=
  [wabaApiUrl p; facebookAccessToken p; partnerMobile p; wabaId p;
   campaignApiKey p].
End PartialSettings.

(** What a call of an [async] method ends in. *)
Inductive outcome (A : Type) : Type :=
| Returned (a : A)
| Thrown (message : string).

Arguments Returned {A} a.
Arguments Thrown {A} message.

(** The [switch (filters.dateRange)] block that all four filtered listings
    share: [now] and [startDate] are the two [new Date()] of the block, and
    a value that matches no [case] leaves [startDate] as it was created. *)
Definition dateRangeStart (tz : JSDate.zone) (now startDate : Z)
  (dateRange : string) : Z :=
  if String.eqb dateRange "today" then
    JSDate.setHours4 tz startDate 0 0 0 0
  else if String.eqb dateRange "last-week" then
    JSDate.setDate tz startDate (JSDate.getDate tz now - 7)
  else if String.eqb dateRange "last-month" then
    JSDate.setMonth tz startDate (JSDate.getMonth tz now - 1)
  else if String.eqb dateRange "last-year" then
    JSDate.setFullYear tz startDate (JSDate.getFullYear tz now - 1)
  else startDate.

(** ** The query builder: a table is the list of its rows

    The list gives the rows in one order in which a query without
    [ORDER BY] may return them.  PostgreSQL fixes no such order, and an
    [UPDATE] may move a row where this model keeps its place: what is
    stated of the first row of an answer, or of the order of an answer,
    is stated of this order. *)

Module Drizzle.

Section Table.

Context {R : Type}.

(** [db.select().from(table).where(p)] *)
Definition select (rows : list R) (p : R -> bool) : list R :=
  filter p rows.

(** [db.insert(table).values(r).returning()] *)
Definition insert (rows : list R) (r : R) : list R * list R :=
  (rows ++ [r], [r]).

(** [db.update(table).set(f).where(p).returning()]: the new table and
    the rows that were updated. *)
Definition update (rows : list R) (set : R -> R) (p : R -> bool)
  : list R * list R :=
  (map (fun r => if p r then set r else r) rows,
   map set (filter p rows)).

(** [db.delete(table).where(p).returning()] *)
Definition delete (rows : list R) (p : R -> bool) : list R * list R :=
  (filter (fun r => negb (p r)) rows, filter p rows).

End Table.

End Drizzle.

(** ** JavaScript [Map] with numeric keys: entries in insertion order *)

Module JsMap.

Definition t (V : Type) : Type := list (Z * V).

Section Ops.

Context {V : Type}.

Definition empty : t V := [].

Fixpoint get (m : t V) (k : Z) : option V :=
  match m with
  | [] => None
  | (k', v) :: r => if Z.eqb k' k then Some v else get r k
  end.

(** [set] keeps the position of a key that is already present. *)
Fixpoint set (m : t V) (k : Z) (v : V) : t V :=
  match m with
  | [] => [(k, v)]
  | (k', v') :: r =>
      if Z.eqb k' k then (k, v) :: r else (k', v') :: set r k v
  end.

Definition has (m : t V) (k : Z) : bool :=
  match get m k with Some _ => true | None => false end.

(** [delete] returns whether the key was present. *)
Definition delete (m : t V) (k : Z) : t V * bool :=
  (filter (fun e => negb (Z.eqb (fst e) k)) m, has m k).

(** [Array.from(m.values())] *)
Definition values (m : t V) : list V := map snd m.

End Ops.

End JsMap.

(** Result of [importContacts]. *)
Record ImportResult : Type := mkImportResult {
  imported : Z;
  duplicates : Z
}.

(** A number used as a condition: [undefined], [null] and [0] are falsy. *)
Definition truthy_number (o : option Z) : option Z :=
  match o with
  | Some n => if Z.eqb n 0 then None else Some n
  | None => None
  end.

(** ** The relational backend *)

Module DatabaseStorage.

(** The tables [users], [contacts], [campaigns] and [analytics], each with
    the sequence that feeds its serial primary key. *)
Record t : Type := mk {
  users : list User.t;
  users_id_seq : Z;
  contacts : list Contact.t;
  contacts_id_seq : Z;
  campaigns : list Campaign.t;
  campaigns_id_seq : Z;
  analytics : list Analytics.t;
  analytics_id_seq : Z
}.

Definition fresh : t := mk [] 1 [] 1 [] 1 [] 1.

Definition set_users (db : t) (rows : list User.t) (seq : Z) : t :=
  mk rows seq (contacts db) (contacts_id_seq db)
     (campaigns db) (campaigns_id_seq db) (analytics db) (analytics_id_seq db).

Definition set_contacts (db : t) (rows : list Contact.t) (seq : Z) : t :=
  mk (users db) (users_id_seq db) rows seq
     (campaigns db) (campaigns_id_seq db) (analytics db) (analytics_id_seq db).

Definition set_campaigns (db : t) (rows : list Campaign.t) (seq : Z) : t :=
  mk (users db) (users_id_seq db) (contacts db) (contacts_id_seq db)
     rows seq (analytics db) (analytics_id_seq db).

Definition set_analytics (db : t) (rows : list Analytics.t) (seq : Z) : t :=
  mk (users db) (users_id_seq db) (contacts db) (contacts_id_seq db)
     (campaigns db) (campaigns_id_seq db) rows seq.

(** [result.length > 0 ? result[0] : undefined], and a bare [result[0]]. *)
Definition first {R : Type} (result : list R) : option R := hd_error result.

(** *** Users *)

Definition getUser (db : t) (id : Z) : option User.t :=
  first (Drizzle.select (users db) (fun u => User.id u =? id)).

Definition getUserByUsername (db : t) (username : string) : option User.t :=
  first (Drizzle.select (users db)
           (fun u => String.eqb (User.username u) username)).

Definition getUserByEmail (db : t) (email : string) : option User.t :=
  first (Drizzle.select (users db) (fun u => SQL.eq_text (User.email u) email)).

(** The insert as it runs when no constraint of the table rejects the
    row; where PostgreSQL rejects it (a username or an email that is
    stored already, under the unique constraints of the schema), the
    method throws, which is not modelled. *)
Definition createUser (now : Z) (db : t) (insertUser : InsertUser.t)
  : option User.t * t :=
  let row := User.mk (users_id_seq db) (InsertUser.username insertUser)
               (InsertUser.email insertUser) (InsertUser.password insertUser)
               None None now in
  let '(rows, result) := Drizzle.insert (users db) row in
  (first result, set_users db rows (users_id_seq db + 1)).

Definition createResetToken (tz : JSDate.zone) (now : Z) (token : string)
  (db : t) (userId : Z)
  : outcome string * t :=
  match getUser db userId with
  | None => (Thrown "User not found", db)
  | Some _ =>
      let expiry := JSDate.setHours tz now (JSDate.getHours tz now + 1) in
      let '(rows, result) :=
        Drizzle.update (users db)
          (fun u => User.mk (User.id u) (User.username u) (User.email u)
                      (User.password u) (Some token) (Some expiry)
                      (User.createdAt u))
          (fun u => User.id u =? userId) in
      let db' := set_users db rows (users_id_seq db) in
      match result with
      | [] => (Thrown "Failed to create reset token", db')
      | _ :: _ => (Returned token, db')
      end
  end.

Definition verifyResetToken (now : Z) (db : t) (token : string)
  : option User.t :=
  match Drizzle.select (users db)
          (fun u => SQL.eq_text (User.resetToken u) token) with
  | [] => None
  | user :: _ =>
      match User.resetTokenExpiry user with
      | None => None
      | Some expiry => if expiry <? now then None else Some user
      end
  end.

Definition updatePassword (db : t) (userId : Z) (password : string)
  : bool * t :=
  let '(rows, result) :=
    Drizzle.update (users db)
      (fun u => User.mk (User.id u) (User.username u) (User.email u)
                  password None None (User.createdAt u))
      (fun u => User.id u =? userId) in
  (0 <? Z.of_nat (List.length result), set_users db rows (users_id_seq db)).

(** *** Contacts *)

Definition getContacts (tz : JSDate.zone) (now startDate : Z) (db : t)
  (accountId : Z)
  (filters : option ContactFilters.t) : list Contact.t :=
  let query :=
    Drizzle.select (contacts db) (fun c => Contact.accountId c =? accountId) in
  match filters with
  | None => query
  | Some f =>
      match JS.or_null (ContactFilters.search f) with
      | Some search =>
          let searchTerm := ("%" ++ search ++ "%")%string in
          Drizzle.select (contacts db)
            (fun c => (Contact.accountId c =? accountId)
                      && (SQL.like (Contact.name c) searchTerm
                          || SQL.like (Contact.mobile c) searchTerm))
      | None =>
      match JS.or_null (ContactFilters.label f) with
      | Some label =>
          Drizzle.select (contacts db)
            (fun c => (Contact.accountId c =? accountId)
                      && SQL.eq_text (Contact.label c) label)
      | None =>
      match JS.or_null (ContactFilters.location f) with
      | Some location =>
          Drizzle.select (contacts db)
            (fun c => (Contact.accountId c =? accountId)
                      && SQL.eq_text (Contact.location c) location)
      | None =>
      match JS.or_null (ContactFilters.dateRange f) with
      | Some dateRange =>
          let startDate := dateRangeStart tz now startDate dateRange in
          Drizzle.select (contacts db)
            (fun c => (Contact.accountId c =? accountId)
                      && (startDate <=? Contact.createdAt c))
      | None => query
      end end end end
  end.

Definition getContactById (db : t) (id : Z) : option Contact.t :=
  first (Drizzle.select (contacts db) (fun c => Contact.id c =? id)).

Definition getContactByMobile (db : t) (mobile : string) (accountId : Z)
  : option Contact.t :=
  first (Drizzle.select (contacts db)
           (fun c => String.eqb (Contact.mobile c) mobile
                     && (Contact.accountId c =? accountId))).

Definition createContact (now : Z) (db : t) (insertContact : InsertContact.t)
  : option Contact.t * t :=
  let row := Contact.mk (contacts_id_seq db)
               (InsertContact.accountId insertContact)
               (InsertContact.name insertContact)
               (InsertContact.mobile insertContact)
               (JS.or_null (InsertContact.label insertContact))
               (JS.or_null (InsertContact.location insertContact))
               now in
  let '(rows, result) := Drizzle.insert (contacts db) row in
  (first result, set_contacts db rows (contacts_id_seq db + 1)).

Definition deleteContact (db : t) (id : Z) : bool * t :=
  let '(rows, result) :=
    Drizzle.delete (contacts db) (fun c => Contact.id c =? id) in
  (0 <? Z.of_nat (List.length result), set_contacts db rows (contacts_id_seq db)).

(** The [for ... of] loop of [importContacts], with its two counters. *)
Fixpoint importContacts_loop (now : Z) (deduplicateByMobile : bool)
  (contactsList : list InsertContact.t) (db : t) (imported duplicates : Z)
  : ImportResult * t :=
  match contactsList with
  | [] => (mkImportResult imported duplicates, db)
  | contact :: rest =>
      let existing :=
        if deduplicateByMobile
        then getContactByMobile db (InsertContact.mobile contact)
               (InsertContact.accountId contact)
        else None in
      match existing with
      | Some _ =>
          importContacts_loop now deduplicateByMobile rest db
            imported (duplicates + 1)
      | None =>
          let '(_, db') := createContact now db contact in
          importContacts_loop now deduplicateByMobile rest db'
            (imported + 1) duplicates
      end
  end.

Definition importContacts (now : Z) (db : t)
  (contactsList : list InsertContact.t) (deduplicateByMobile : bool)
  : ImportResult * t :=
  importContacts_loop now deduplicateByMobile contactsList db 0 0.

(** *** Campaigns *)

Definition getCampaigns (tz : JSDate.zone) (now startDate : Z) (db : t)
  (accountId : Z)
  (filters : option CampaignFilters.t) : list Campaign.t :=
  let query :=
    Drizzle.select (campaigns db) (fun c => Campaign.accountId c =? accountId) in
  match filters with
  | None => query
  | Some f =>
      match JS.or_null (CampaignFilters.search f) with
      | Some search =>
          let searchTerm := ("%" ++ search ++ "%")%string in
          Drizzle.select (campaigns db)
            (fun c => (Campaign.accountId c =? accountId)
                      && SQL.like (Campaign.name c) searchTerm)
      | None =>
      match JS.or_null (CampaignFilters.status f) with
      | Some status =>
          Drizzle.select (campaigns db)
            (fun c => (Campaign.accountId c =? accountId)
                      && String.eqb (Campaign.status c) status)
      | None =>
      match JS.or_null (CampaignFilters.dateRange f) with
      | Some dateRange =>
          let startDate := dateRangeStart tz now startDate dateRange in
          Drizzle.select (campaigns db)
            (fun c => (Campaign.accountId c =? accountId)
                      && (startDate <=? Campaign.createdAt c))
      | None => query
      end end end
  end.

Definition getCampaignById (db : t) (id : Z) : option Campaign.t :=
  first (Drizzle.select (campaigns db) (fun c => Campaign.id c =? id)).

Definition createCampaign (now : Z) (db : t) (insertCampaign : InsertCampaign.t)
  : option Campaign.t * t :=
  let row := Campaign.mk (campaigns_id_seq db)
               (InsertCampaign.accountId insertCampaign)
               (InsertCampaign.name insertCampaign)
               (InsertCampaign.template insertCampaign)
               (JS.or_null (InsertCampaign.contactLabel insertCampaign))
               "draft"
               (InsertCampaign.scheduledFor insertCampaign)
               now in
  let '(rows, result) := Drizzle.insert (campaigns db) row in
  (first result, set_campaigns db rows (campaigns_id_seq db + 1)).

Definition deleteCampaign (db : t) (id : Z) : bool * t :=
  let '(rows, result) :=
    Drizzle.delete (campaigns db) (fun c => Campaign.id c =? id) in
  (0 <? Z.of_nat (List.length result),
   set_campaigns db rows (campaigns_id_seq db)).

(** *** Analytics *)

Definition getAnalytics (db : t) (accountId : Z) (campaignId : option Z)
  : list Analytics.t :=
  match truthy_number campaignId with
  | Some campaignId =>
      Drizzle.select (analytics db)
        (fun a => (Analytics.accountId a =? accountId)
                  && (Analytics.campaignId a =? campaignId))
  | None =>
      Drizzle.select (analytics db) (fun a => Analytics.accountId a =? accountId)
  end.

Definition createOrUpdateAnalytics (now : Z) (db : t)
  (insertAnalytics : InsertAnalytics.t) : option Analytics.t * t :=
  let existing :=
    Drizzle.select (analytics db)
      (fun a => Analytics.campaignId a
                =? InsertAnalytics.campaignId insertAnalytics) in
  match existing with
  | existing0 :: _ =>
      let '(rows, result) :=
        Drizzle.update (analytics db)
          (fun a =>
             Analytics.mk (Analytics.id a)
               (InsertAnalytics.accountId insertAnalytics)
               (InsertAnalytics.campaignId insertAnalytics)
               (JS.nullish (InsertAnalytics.sent insertAnalytics)
                  (Analytics.sent existing0))
               (JS.nullish (InsertAnalytics.delivered insertAnalytics)
                  (Analytics.delivered existing0))
               (JS.nullish (InsertAnalytics.read insertAnalytics)
                  (Analytics.read existing0))
               (JS.nullish (InsertAnalytics.optout insertAnalytics)
                  (Analytics.optout existing0))
               (JS.nullish (InsertAnalytics.hold insertAnalytics)
                  (Analytics.hold existing0))
               (JS.nullish (InsertAnalytics.failed insertAnalytics)
                  (Analytics.failed existing0))
               now)
          (fun a => Analytics.id a =? Analytics.id existing0) in
      (first result, set_analytics db rows (analytics_id_seq db))
  | [] =>
      let row :=
        Analytics.mk (analytics_id_seq db)
          (InsertAnalytics.accountId insertAnalytics)
          (InsertAnalytics.campaignId insertAnalytics)
          (JS.or_zero (InsertAnalytics.sent insertAnalytics))
          (JS.or_zero (InsertAnalytics.delivered insertAnalytics))
          (JS.or_zero (InsertAnalytics.read insertAnalytics))
          (JS.or_zero (InsertAnalytics.optout insertAnalytics))
          (JS.or_zero (InsertAnalytics.hold insertAnalytics))
          (JS.or_zero (InsertAnalytics.failed insertAnalytics))
          now in
      let '(rows, result) := Drizzle.insert (analytics db) row in
      (first result, set_analytics db rows (analytics_id_seq db + 1))
  end.

Definition launchCampaign (now : Z) (db : t) (id : Z) : bool * t :=
  let '(rows, result) :=
    Drizzle.update (campaigns db)
      (fun c => Campaign.mk (Campaign.id c) (Campaign.accountId c)
                  (Campaign.name c) (Campaign.template c)
                  (Campaign.contactLabel c) "active"
                  (Campaign.scheduledFor c) (Campaign.createdAt c))
      (fun c => Campaign.id c =? id) in
  let db1 := set_campaigns db rows (campaigns_id_seq db) in
  match result with
  | [] => (false, db1)
  | result0 :: _ =>
      let '(_, db2) :=
        createOrUpdateAnalytics now db1
          (InsertAnalytics.mk (Campaign.accountId result0) id
             (Some 0) (Some 0) (Some 0) (Some 0) (Some 0) (Some 0)) in
      (true, db2)
  end.

End DatabaseStorage.

(** ** The in-memory backend *)

Module MemStorage.

(** The four [Map]s and their [xCurrentId] counters. *)
Record t : Type := mk {
  users : JsMap.t User.t;
  contacts : JsMap.t Contact.t;
  campaigns : JsMap.t Campaign.t;
  analyticsData : JsMap.t Analytics.t;
  userCurrentId : Z;
  contactCurrentId : Z;
  campaignCurrentId : Z;
  analyticsCurrentId : Z
}.

Definition fresh : t := mk JsMap.empty JsMap.empty JsMap.empty JsMap.empty 1 1 1 1.

Definition set_users (st : t) (m : JsMap.t User.t) (next : Z) : t :=
  mk m (contacts st) (campaigns st) (analyticsData st)
     next (contactCurrentId st) (campaignCurrentId st) (analyticsCurrentId st).

Definition set_contacts (st : t) (m : JsMap.t Contact.t) (next : Z) : t :=
  mk (users st) m (campaigns st) (analyticsData st)
     (userCurrentId st) next (campaignCurrentId st) (analyticsCurrentId st).

Definition set_campaigns (st : t) (m : JsMap.t Campaign.t) (next : Z) : t :=
  mk (users st) (contacts st) m (analyticsData st)
     (userCurrentId st) (contactCurrentId st) next (analyticsCurrentId st).

Definition set_analyticsData (st : t) (m : JsMap.t Analytics.t) (next : Z) : t :=
  mk (users st) (contacts st) (campaigns st) m
     (userCurrentId st) (contactCurrentId st) (campaignCurrentId st) next.

(** *** Users *)

Definition getUser (st : t) (id : Z) : option User.t :=
  JsMap.get (users st) id.

Definition getUserByUsername (st : t) (username : string) : option User.t :=
  find (fun user => String.eqb (User.username user) username)
    (JsMap.values (users st)).

Definition getUserByEmail (st : t) (email : string) : option User.t :=
  find (fun user => JS.strict_eq_opt (User.email user) (Some email))
    (JsMap.values (users st)).

Definition createUser (now : Z) (st : t) (insertUser : InsertUser.t)
  : User.t * t :=
  let id := userCurrentId st in
  let user := User.mk id (InsertUser.username insertUser)
                (JS.or_null (InsertUser.email insertUser))
                (InsertUser.password insertUser) None None now in
  (user, set_users st (JsMap.set (users st) id user) (id + 1)).

Definition createResetToken (tz : JSDate.zone) (now : Z) (token : string)
  (st : t) (userId : Z)
  : outcome string * t :=
  match getUser st userId with
  | None => (Thrown "User not found", st)
  | Some user =>
      let expiry := JSDate.setHours tz now (JSDate.getHours tz now + 1) in
      let updatedUser :=
        User.mk (User.id user) (User.username user) (User.email user)
          (User.password user) (Some token) (Some expiry)
          (User.createdAt user) in
      (Returned token,
       set_users st (JsMap.set (users st) userId updatedUser) (userCurrentId st))
  end.

Definition verifyResetToken (now : Z) (st : t) (token : string)
  : option User.t :=
  match find (fun user => JS.strict_eq_opt (User.resetToken user) (Some token))
          (JsMap.values (users st)) with
  | None => None
  | Some user =>
      match User.resetTokenExpiry user with
      | None => None
      | Some expiry => if expiry <? now then None else Some user
      end
  end.

Definition updatePassword (st : t) (userId : Z) (password : string)
  : bool * t :=
  match getUser st userId with
  | None => (false, st)
  | Some user =>
      let updatedUser :=
        User.mk (User.id user) (User.username user) (User.email user)
          password None None (User.createdAt user) in
      (true,
       set_users st (JsMap.set (users st) userId updatedUser) (userCurrentId st))
  end.

(** *** Contacts *)

Definition getContacts (toLowerCase : string -> string) (tz : JSDate.zone)
  (now startDate : Z) (st : t) (accountId : Z)
  (filters : option ContactFilters.t) : list Contact.t :=
  let contacts0 :=
    filter (fun contact => Contact.accountId contact =? accountId)
      (JsMap.values (contacts st)) in
  match filters with
  | None => contacts0
  | Some f =>
      let contacts1 :=
        match JS.or_null (ContactFilters.search f) with
        | Some search =>
            let searchTerm := toLowerCase search in
            filter (fun contact =>
                      JS.includes (toLowerCase (Contact.name contact)) searchTerm
                      || JS.includes (toLowerCase (Contact.mobile contact))
                           searchTerm)
              contacts0
        | None => contacts0
        end in
      let contacts2 :=
        match JS.or_null (ContactFilters.label f) with
        | Some label =>
            filter (fun contact =>
                      JS.strict_eq_opt (Contact.label contact) (Some label))
              contacts1
        | None => contacts1
        end in
      let contacts3 :=
        match JS.or_null (ContactFilters.location f) with
        | Some location =>
            filter (fun contact =>
                      JS.strict_eq_opt (Contact.location contact) (Some location))
              contacts2
        | None => contacts2
        end in
      match JS.or_null (ContactFilters.dateRange f) with
      | Some dateRange =>
          let startDate := dateRangeStart tz now startDate dateRange in
          filter (fun contact => startDate <=? Contact.createdAt contact)
            contacts3
      | None => contacts3
      end
  end.

Definition getContactById (st : t) (id : Z) : option Contact.t :=
  JsMap.get (contacts st) id.

Definition getContactByMobile (st : t) (mobile : string) (accountId : Z)
  : option Contact.t :=
  find (fun contact => String.eqb (Contact.mobile contact) mobile
                       && (Contact.accountId contact =? accountId))
    (JsMap.values (contacts st)).

Definition createContact (now : Z) (st : t) (insertContact : InsertContact.t)
  : Contact.t * t :=
  let id := contactCurrentId st in
  let contact := Contact.mk id
                   (InsertContact.accountId insertContact)
                   (InsertContact.name insertContact)
                   (InsertContact.mobile insertContact)
                   (JS.or_null (InsertContact.label insertContact))
                   (JS.or_null (InsertContact.location insertContact))
                   now in
  (contact, set_contacts st (JsMap.set (contacts st) id contact) (id + 1)).

Definition deleteContact (st : t) (id : Z) : bool * t :=
  let '(m, deleted) := JsMap.delete (contacts st) id in
  (deleted, set_contacts st m (contactCurrentId st)).

(** The [for ... of] loop of [importContacts], with its two counters. *)
Fixpoint importContacts_loop (now : Z) (deduplicateByMobile : bool)
  (contactsList : list InsertContact.t) (st : t) (imported duplicates : Z)
  : ImportResult * t :=
  match contactsList with
  | [] => (mkImportResult imported duplicates, st)
  | contact :: rest =>
      let existing :=
        if deduplicateByMobile
        then getContactByMobile st (InsertContact.mobile contact)
               (InsertContact.accountId contact)
        else None in
      match existing with
      | Some _ =>
          importContacts_loop now deduplicateByMobile rest st
            imported (duplicates + 1)
      | None =>
          let '(_, st') := createContact now st contact in
          importContacts_loop now deduplicateByMobile rest st'
            (imported + 1) duplicates
      end
  end.

Definition importContacts (now : Z) (st : t)
  (contactsList : list InsertContact.t) (deduplicateByMobile : bool)
  : ImportResult * t :=
  importContacts_loop now deduplicateByMobile contactsList st 0 0.

(** *** Campaigns *)

Definition getCampaigns (toLowerCase : string -> string) (tz : JSDate.zone)
  (now startDate : Z) (st : t) (accountId : Z)
  (filters : option CampaignFilters.t) : list Campaign.t :=
  let campaigns0 :=
    filter (fun campaign => Campaign.accountId campaign =? accountId)
      (JsMap.values (campaigns st)) in
  match filters with
  | None => campaigns0
  | Some f =>
      let campaigns1 :=
        match JS.or_null (CampaignFilters.search f) with
        | Some search =>
            let searchTerm := toLowerCase search in
            filter (fun campaign =>
                      JS.includes (toLowerCase (Campaign.name campaign))
                        searchTerm)
              campaigns0
        | None => campaigns0
        end in
      let campaigns2 :=
        match JS.or_null (CampaignFilters.status f) with
        | Some status =>
            filter (fun campaign => String.eqb (Campaign.status campaign) status)
              campaigns1
        | None => campaigns1
        end in
      match JS.or_null (CampaignFilters.dateRange f) with
      | Some dateRange =>
          let startDate := dateRangeStart tz now startDate dateRange in
          filter (fun campaign => startDate <=? Campaign.createdAt campaign)
            campaigns2
      | None => campaigns2
      end
  end.

Definition getCampaignById (st : t) (id : Z) : option Campaign.t :=
  JsMap.get (campaigns st) id.

Definition createCampaign (now : Z) (st : t) (insertCampaign : InsertCampaign.t)
  : Campaign.t * t :=
  let id := campaignCurrentId st in
  let campaign := Campaign.mk id
                    (InsertCampaign.accountId insertCampaign)
                    (InsertCampaign.name insertCampaign)
                    (InsertCampaign.template insertCampaign)
                    (JS.or_null (InsertCampaign.contactLabel insertCampaign))
                    "draft"
                    (JS.or_null (InsertCampaign.scheduledFor insertCampaign))
                    now in
  (campaign, set_campaigns st (JsMap.set (campaigns st) id campaign) (id + 1)).

Definition deleteCampaign (st : t) (id : Z) : bool * t :=
  let '(m, deleted) := JsMap.delete (campaigns st) id in
  (deleted, set_campaigns st m (campaignCurrentId st)).

(** *** Analytics *)

Definition getAnalytics (st : t) (accountId : Z) (campaignId : option Z)
  : list Analytics.t :=
  let analytics :=
    filter (fun a => Analytics.accountId a =? accountId)
      (JsMap.values (analyticsData st)) in
  match truthy_number campaignId with
  | Some campaignId =>
      filter (fun a => Analytics.campaignId a =? campaignId) analytics
  | None => analytics
  end.

Definition createOrUpdateAnalytics (now : Z) (st : t)
  (insertAnalytics : InsertAnalytics.t) : Analytics.t * t :=
  match find (fun a => Analytics.campaignId a
                       =? InsertAnalytics.campaignId insertAnalytics)
          (JsMap.values (analyticsData st)) with
  | Some existing =>
      let updated :=
        Analytics.mk (Analytics.id existing)
          (InsertAnalytics.accountId insertAnalytics)
          (InsertAnalytics.campaignId insertAnalytics)
          (JS.nullish (InsertAnalytics.sent insertAnalytics)
             (Analytics.sent existing))
          (JS.nullish (InsertAnalytics.delivered insertAnalytics)
             (Analytics.delivered existing))
          (JS.nullish (InsertAnalytics.read insertAnalytics)
             (Analytics.read existing))
          (JS.nullish (InsertAnalytics.optout insertAnalytics)
             (Analytics.optout existing))
          (JS.nullish (InsertAnalytics.hold insertAnalytics)
             (Analytics.hold existing))
          (JS.nullish (InsertAnalytics.failed insertAnalytics)
             (Analytics.failed existing))
          now in
      (updated,
       set_analyticsData st
         (JsMap.set (analyticsData st) (Analytics.id existing) updated)
         (analyticsCurrentId st))
  | None =>
      let id := analyticsCurrentId st in
      let analytics :=
        Analytics.mk id
          (InsertAnalytics.accountId insertAnalytics)
          (InsertAnalytics.campaignId insertAnalytics)
          (JS.or_zero (InsertAnalytics.sent insertAnalytics))
          (JS.or_zero (InsertAnalytics.delivered insertAnalytics))
          (JS.or_zero (InsertAnalytics.read insertAnalytics))
          (JS.or_zero (InsertAnalytics.optout insertAnalytics))
          (JS.or_zero (InsertAnalytics.hold insertAnalytics))
          (JS.or_zero (InsertAnalytics.failed insertAnalytics))
          now in
      (analytics,
       set_analyticsData st (JsMap.set (analyticsData st) id analytics) (id + 1))
  end.

Definition launchCampaign (now : Z) (st : t) (id : Z) : bool * t :=
  match JsMap.get (campaigns st) id with
  | None => (false, st)
  | Some campaign =>
      let updatedCampaign :=
        Campaign.mk (Campaign.id campaign) (Campaign.accountId campaign)
          (Campaign.name campaign) (Campaign.template campaign)
          (Campaign.contactLabel campaign) "active"
          (Campaign.scheduledFor campaign) (Campaign.createdAt campaign) in
      let st1 :=
        set_campaigns st (JsMap.set (campaigns st) id updatedCampaign)
          (campaignCurrentId st) in
      let '(_, st2) :=
        createOrUpdateAnalytics now st1
          (InsertAnalytics.mk (Campaign.accountId campaign) id
             (Some 0) (Some 0) (Some 0) (Some 0) (Some 0) (Some 0)) in
      (true, st2)
  end.

(** *** Updates by id *)

Definition updateContact (st : t) (id : Z) (updateData : PartialContact.t)
  : option Contact.t * t :=
  match JsMap.get (contacts st) id with
  | None => (None, st)
  | Some contact =>
      let updatedContact :=
        Contact.mk (Contact.id contact)
          (JS.spread (PartialContact.accountId updateData)
             (Contact.accountId contact))
          (JS.spread (PartialContact.name updateData) (Contact.name contact))
          (JS.spread (PartialContact.mobile updateData) (Contact.mobile contact))
          (JS.spread (PartialContact.label updateData) (Contact.label contact))
          (JS.spread (PartialContact.location updateData)
             (Contact.location contact))
          (Contact.createdAt contact) in
      (Some updatedContact,
       set_contacts st (JsMap.set (contacts st) id updatedContact)
         (contactCurrentId st))
  end.

Definition updateCampaign (st : t) (id : Z) (updateData : PartialCampaign.t)
  : option Campaign.t * t :=
  match JsMap.get (campaigns st) id with
  | None => (None, st)
  | Some campaign =>
      let updatedCampaign :=
        Campaign.mk (Campaign.id campaign) (Campaign.accountId campaign)
          (JS.nullish (PartialCampaign.name updateData) (Campaign.name campaign))
          (JS.nullish (PartialCampaign.template updateData)
             (Campaign.template campaign))
          match PartialCampaign.contactLabel updateData with
          | Some contactLabel => JS.or_null contactLabel
          | None => Campaign.contactLabel campaign
          end
          (Campaign.status campaign)
          match PartialCampaign.scheduledFor updateData with
          | Some scheduledFor => JS.or_null scheduledFor
          | None => Campaign.scheduledFor campaign
          end
          (Campaign.createdAt campaign) in
      (Some updatedCampaign,
       set_campaigns st (JsMap.set (campaigns st) id updatedCampaign)
         (campaignCurrentId st))
  end.

End MemStorage.

(** ** The settings of the in-memory backend

    [getSettings] and [updateSettings] touch only [settingsData] and
    [settingsCurrentId]; they are modelled on that part of the state. *)

Module MemStorageSettings.

Record t : Type := mk {
  settingsData : JsMap.t Settings.t;
  settingsCurrentId : Z
}.

Definition fresh : t := mk JsMap.empty 1.

Definition getSettings (st : t) (accountId : Z) : option Settings.t :=
  find (fun settings => Settings.accountId settings =? accountId)
    (JsMap.values (settingsData st)).

Definition updateSettings (now : Z) (st : t) (accountId : Z)
  (settingsData' : PartialSettings.t) : Settings.t * t :=
  match getSettings st accountId with
  | Some existing =>
      let updated :=
        Settings.mk (Settings.id existing)
          (JS.spread (PartialSettings.accountId settingsData')
             (Settings.accountId existing))
          (JS.spread (PartialSettings.wabaApiUrl settingsData')
             (Settings.wabaApiUrl existing))
          (JS.spread (PartialSettings.facebookAccessToken settingsData')
             (Settings.facebookAccessToken existing))
          (JS.spread (PartialSettings.partnerMobile settingsData')
             (Settings.partnerMobile existing))
          (JS.spread (PartialSettings.wabaId settingsData')
             (Settings.wabaId existing))
          (JS.spread (PartialSettings.campaignApiKey settingsData')
             (Settings.campaignApiKey existing))
          now in
      (updated,
       mk (JsMap.set (settingsData st) (Settings.id existing) updated)
          (settingsCurrentId st))
  | None =>
      let id := settingsCurrentId st in
      let settings :=
        Settings.mk id accountId
          (JS.or_null_key (PartialSettings.wabaApiUrl settingsData'))
          (JS.or_null_key (PartialSettings.facebookAccessToken settingsData'))
          (JS.or_null_key (PartialSettings.partnerMobile settingsData'))
          (JS.or_null_key (PartialSettings.wabaId settingsData'))
          (JS.or_null_key (PartialSettings.campaignApiKey settingsData'))
          now in
      (settings, mk (JsMap.set (settingsData st) id settings) (id + 1))
  end.

End MemStorageSettings.

(** ** Choosing the backend

    The storage module imports [db] and [pool] from the database module, so
    the database module is evaluated first; [url] is [DB_CONFIG.url]. *)

Module Db.

(** The body of the database module: it throws when no connection string
    is configured, and otherwise creates the pool and the drizzle handle. *)
Definition load (url : option string) : outcome unit :=
  if JS.truthy url then Returned tt
  else Thrown "DATABASE_URL must be set. Did you forget to provision a database?".

End Db.

Inductive backend : Type :=
| UseDatabaseStorage
| UseMemStorage.

(** [export const storage = DB_CONFIG.url ? new DatabaseStorage() : new
    MemStorage()], reached only when the imported database module has
    loaded. *)
Definition storage (url : option string) : outcome backend :=
  match Db.load url with
  | Thrown message => Thrown message
  | Returned _ =>
      Returned (if JS.truthy url then UseDatabaseStorage else UseMemStorage)
  end.

(** ** The startup script: reading [.env]

    Characters are bytes; a line is what [read -r] delivers, without its
    newline. *)

Module SimpleStart.




End SimpleStart.

(** ** The campaign dialog: the labels offered for a campaign *)

Module CreateCampaignDialog.

(** [Set.prototype.add] on a set kept in insertion order. *)
Definition set_add (s : list string) (x : string) : list string :=
  if existsb (String.eqb x) s then s else s ++ [x].

(** [Array.from(new Set(array))] *)
Definition array_from_set (array : list string) : list string :=
  fold_left set_add array [].

(** [labels.filter(Boolean)]: [null], [undefined] and the empty string are
    dropped. *)
Fixpoint filter_Boolean (labels : list (option string)) : list string :=
  match labels with
  | [] => []
  | Some l :: rest =>
      if String.eqb l "" then filter_Boolean rest else l :: filter_Boolean rest
  | None :: rest => filter_Boolean rest
  end.

(** [uniqueLabels]; [contacts] is [None] when the query result is not an
    array. *)
Definition uniqueLabels (contacts : option (list Contact.t)) : list string :=
  match contacts with
  | None => []
  | Some contacts =>
      let labels := map Contact.label contacts in
      array_from_set (filter_Boolean labels)
  end.

(** The labels for which the [SelectContent] renders an item: the entries
    of [uniqueLabels] that pass [label && label.trim() !== ""]; [trim] is
    [String.prototype.trim]. *)
Definition labelItems (trim : string -> string)
  (contacts : option (list Contact.t)) : list string :=
  filter (fun label =>
            negb (String.eqb label "") && negb (String.eqb (trim label) ""))
    (uniqueLabels contacts).

End CreateCampaignDialog.

(** * Vocabulary of the properties *)

(** [launchCampaign]'s [set({ status: "active" })] on one row. *)
Definition activate (c : Campaign.t) : Campaign.t :=
  Campaign.mk (Campaign.id c) (Campaign.accountId c) (Campaign.name c)
    (Campaign.template c) (Campaign.contactLabel c) "active"
    (Campaign.scheduledFor c) (Campaign.createdAt c).

(** [updatePassword]'s update on one user. *)
Definition with_password (password : string) (u : User.t) : User.t :=
  User.mk (User.id u) (User.username u) (User.email u) password None None
    (User.createdAt u).

(** The row [createOrUpdateAnalytics] writes over an existing row. *)
Definition merged (now : Z) (existing : Analytics.t) (ia : InsertAnalytics.t)
  : Analytics.t :=
  Analytics.mk (Analytics.id existing)
    (InsertAnalytics.accountId ia) (InsertAnalytics.campaignId ia)
    (JS.nullish (InsertAnalytics.sent ia) (Analytics.sent existing))
    (JS.nullish (InsertAnalytics.delivered ia) (Analytics.delivered existing))
    (JS.nullish (InsertAnalytics.read ia) (Analytics.read existing))
    (JS.nullish (InsertAnalytics.optout ia) (Analytics.optout existing))
    (JS.nullish (InsertAnalytics.hold ia) (Analytics.hold existing))
    (JS.nullish (InsertAnalytics.failed ia) (Analytics.failed existing))
    now.

(** The row [createOrUpdateAnalytics] inserts when there is none. *)
Definition inserted (now id : Z) (ia : InsertAnalytics.t) : Analytics.t :=
  Analytics.mk id
    (InsertAnalytics.accountId ia) (InsertAnalytics.campaignId ia)
    (JS.or_zero (InsertAnalytics.sent ia))
    (JS.or_zero (InsertAnalytics.delivered ia))
    (JS.or_zero (InsertAnalytics.read ia))
    (JS.or_zero (InsertAnalytics.optout ia))
    (JS.or_zero (InsertAnalytics.hold ia))
    (JS.or_zero (InsertAnalytics.failed ia))
    now.

(** The analytics rows of one campaign. *)
Definition analytics_of (campaignId : Z) (rows : list Analytics.t)
  : list Analytics.t :=
  filter (fun a => Analytics.campaignId a =? campaignId) rows.

(** A table with a serial primary key: ids are distinct and below the next
    value of the sequence. *)
Definition table_wf {R : Type} (id : R -> Z) (rows : list R) (next : Z) : Prop :=
  NoDup (map id rows) /\ Forall (fun r => id r < next) rows.

(** A [Map] filled by [this.xCurrentId++]: keys are distinct, each entry
    sits under its own id, and ids are below the counter. *)
Definition map_wf {V : Type} (id : V -> Z) (m : JsMap.t V) (next : Z) : Prop :=
  NoDup (map fst m) /\ Forall (fun e => id (snd e) = fst e /\ fst e < next) m.

(** At most one analytics row per campaign: the invariant that
    [createOrUpdateAnalytics], the only writer of the table, maintains. *)
Definition one_per_campaign (rows : list Analytics.t) : Prop :=
  NoDup (map Analytics.campaignId rows).

Definition db_wf (db : DatabaseStorage.t) : Prop :=
  table_wf User.id (DatabaseStorage.users db) (DatabaseStorage.users_id_seq db)
  /\ table_wf Contact.id (DatabaseStorage.contacts db)
       (DatabaseStorage.contacts_id_seq db)
  /\ table_wf Campaign.id (DatabaseStorage.campaigns db)
       (DatabaseStorage.campaigns_id_seq db)
  /\ table_wf Analytics.id (DatabaseStorage.analytics db)
       (DatabaseStorage.analytics_id_seq db)
  /\ one_per_campaign (DatabaseStorage.analytics db).

Definition mem_wf (st : MemStorage.t) : Prop :=
  map_wf User.id (MemStorage.users st) (MemStorage.userCurrentId st)
  /\ map_wf Contact.id (MemStorage.contacts st) (MemStorage.contactCurrentId st)
  /\ map_wf Campaign.id (MemStorage.campaigns st) (MemStorage.campaignCurrentId st)
  /\ map_wf Analytics.id (MemStorage.analyticsData st)
       (MemStorage.analyticsCurrentId st)
  /\ one_per_campaign (JsMap.values (MemStorage.analyticsData st)).

(** The tables an in-memory state stands for: the values of each [Map] in
    insertion order, and the id counters as sequences. *)
Definition tables_of (st : MemStorage.t) : DatabaseStorage.t :=
  DatabaseStorage.mk
    (JsMap.values (MemStorage.users st)) (MemStorage.userCurrentId st)
    (JsMap.values (MemStorage.contacts st)) (MemStorage.contactCurrentId st)
    (JsMap.values (MemStorage.campaigns st)) (MemStorage.campaignCurrentId st)
    (JsMap.values (MemStorage.analyticsData st)) (MemStorage.analyticsCurrentId st).

(** What an upsert for [ia] leaves as the row of its campaign. *)
Definition upserted (now next : Z) (rows : list Analytics.t)
  (ia : InsertAnalytics.t) : Analytics.t :=
  match analytics_of (InsertAnalytics.campaignId ia) rows with
  | existing :: _ => merged now existing ia
  | [] => inserted now next ia
  end.

(** ** Sample states, built with the operations themselves *)

Definition sample_campaign : InsertCampaign.t :=
  InsertCampaign.mk 1 "Spring sale" "welcome" (Some "") (Some "active") None.

Definition sample_analytics : InsertAnalytics.t :=
  InsertAnalytics.mk 1 1 (Some 5) None None None None None.

Definition alice : InsertContact.t :=
  InsertContact.mk 1 "alice" "111" (Some "other") None.

Definition bob : InsertContact.t :=
  InsertContact.mk 1 "Bob" "222" (Some "vip") (Some "Pune").

Definition sample_user : InsertUser.t :=
  InsertUser.mk "carol" "hash0" (Some "carol@example.org").

(** One user holding a reset token, the contact alice (created at time
    1000), one draft campaign with an analytics row [sent = 5]. *)
Definition sample_db : DatabaseStorage.t :=
  let db := snd (DatabaseStorage.createUser 1000 DatabaseStorage.fresh sample_user) in
  let db := snd (DatabaseStorage.createResetToken (JSDate.fixed 0) 1000 "c0ffee" db 1) in
  let db := snd (DatabaseStorage.createContact 1000 db alice) in
  let db := snd (DatabaseStorage.createCampaign 1000 db sample_campaign) in
  snd (DatabaseStorage.createOrUpdateAnalytics 1000 db sample_analytics).

Definition sample_mem : MemStorage.t :=
  let st := snd (MemStorage.createUser 1000 MemStorage.fresh sample_user) in
  let st := snd (MemStorage.createResetToken (JSDate.fixed 0) 1000 "c0ffee" st 1) in
  let st := snd (MemStorage.createContact 1000 st alice) in
  let st := snd (MemStorage.createCampaign 1000 st sample_campaign) in
  snd (MemStorage.createOrUpdateAnalytics 1000 st sample_analytics).

(** A reset token identifies at most one user. *)
Definition token_owner_unique (rows : list User.t) : Prop :=
  forall u1 u2 token,
    In u1 rows -> In u2 rows ->
    User.resetToken u1 = Some token -> User.resetToken u2 = Some token ->
    User.id u1 = User.id u2.

(** The (mobile, accountId) pair [importContacts] deduplicates on. *)
Definition contact_key (c : InsertContact.t) : string * Z :=
  (InsertContact.mobile c, InsertContact.accountId c).

Definition stored_key (c : Contact.t) : string * Z :=
  (Contact.mobile c, Contact.accountId c).

Definition key_eqb (k1 k2 : string * Z) : bool :=
  String.eqb (fst k1) (fst k2) && (snd k1 =? snd k2).

(** Whether a pair is among [seen]. *)
Definition key_seen (seen : list (string * Z)) (k : string * Z) : bool :=
  existsb (fun s => key_eqb s k) seen.

(** The number of records of a batch whose pair is in [seen] (the pairs in
    storage when the call starts) or occurs earlier in the batch. *)
Fixpoint count_duplicates (seen : list (string * Z)) (batch : list InsertContact.t)
  : Z :=
  match batch with
  | [] => 0
  | c :: rest =>
      (if key_seen seen (contact_key c) then 1 else 0)
      + count_duplicates (seen ++ [contact_key c]) rest
  end.

(** The number of records of a batch whose pair is in [seen]. *)
Definition count_present (seen : list (string * Z)) (batch : list InsertContact.t)
  : Z :=
  Z.of_nat (List.length (filter (fun c => key_seen seen (contact_key c)) batch)).

Definition zero_counters : list Z := [0; 0; 0; 0; 0; 0].

(** The six optional counters of an upsert request, in the order of
    [Analytics.counters]. *)
Definition supplied_counters (ia : InsertAnalytics.t) : list (option Z) :=
  [InsertAnalytics.sent ia; InsertAnalytics.delivered ia;
   InsertAnalytics.read ia; InsertAnalytics.optout ia;
   InsertAnalytics.hold ia; InsertAnalytics.failed ia].

(** Counter by counter, [supplied ?? kept]. *)
Definition coalesce (supplied : list (option Z)) (kept : list Z) : list Z :=
  map (fun '(s, k) => JS.nullish s k) (combine supplied kept).

(** The counters a campaign has before an upsert: those of its row, or all
    0 when it has none. *)
Definition counters_before (campaignId : Z) (rows : list Analytics.t) : list Z :=
  match analytics_of campaignId rows with
  | existing :: _ => Analytics.counters existing
  | [] => zero_counters
  end.

(** The [dateRange] values the [switch] has a [case] for. *)
Definition recognized_ranges : list string :=
  ["today"; "last-week"; "last-month"; "last-year"].

Definition recognized (dateRange : string) : bool :=
  existsb (String.eqb dateRange) recognized_ranges.

(** Filters that set only [dateRange]. *)
Definition contacts_since (dateRange : string) : option ContactFilters.t :=
  Some (ContactFilters.mk None None None (Some dateRange)).

Definition campaigns_since (dateRange : string) : option CampaignFilters.t :=
  Some (CampaignFilters.mk None None (Some dateRange)).

(** ** Running the two backends side by side

    Thirteen operations that both backends are run on, with their
    replies; the updates and deletions by id and the settings are not
    among them.  Both backends number their rows from 1 and are given the
    same clock readings, so ids and timestamps coincide and replies are
    compared as they are. *)

Inductive call : Type :=
| CreateContact (contact : InsertContact.t)
| GetContactByMobile (mobile : string) (accountId : Z)
| ImportContacts (batch : list InsertContact.t) (deduplicateByMobile : bool)
| GetContacts (accountId : Z) (filters : option ContactFilters.t)
| CreateCampaign (campaign : InsertCampaign.t)
| GetCampaignById (id : Z)
| LaunchCampaign (id : Z)
| CreateOrUpdateAnalytics (analytics : InsertAnalytics.t)
| GetAnalytics (accountId : Z) (campaignId : option Z)
| CreateUser (user : InsertUser.t)
| CreateResetToken (userId : Z) (token : string)
| VerifyResetToken (token : string)
| UpdatePassword (userId : Z) (password : string).

Inductive reply : Type :=
| ContactList (l : list Contact.t)
| ContactOrNone (o : option Contact.t)
| Counts (r : ImportResult)
| CampaignOrNone (o : option Campaign.t)
| Flag (b : bool)
| AnalyticsList (l : list Analytics.t)
| AnalyticsOrNone (o : option Analytics.t)
| UserOrNone (o : option User.t)
| TokenOrError (o : outcome string).

Definition db_step (tz : JSDate.zone) (now startDate : Z) (c : call)
  (db : DatabaseStorage.t)
  : reply * DatabaseStorage.t :=
  match c with
  | CreateContact contact =>
      let '(r, db') := DatabaseStorage.createContact now db contact in
      (ContactOrNone r, db')
  | GetContactByMobile mobile accountId =>
      (ContactOrNone (DatabaseStorage.getContactByMobile db mobile accountId), db)
  | ImportContacts batch dedup =>
      let '(r, db') := DatabaseStorage.importContacts now db batch dedup in
      (Counts r, db')
  | GetContacts accountId filters =>
      (ContactList
         (DatabaseStorage.getContacts tz now startDate db accountId filters),
       db)
  | CreateCampaign campaign =>
      let '(r, db') := DatabaseStorage.createCampaign now db campaign in
      (CampaignOrNone r, db')
  | GetCampaignById id =>
      (CampaignOrNone (DatabaseStorage.getCampaignById db id), db)
  | LaunchCampaign id =>
      let '(r, db') := DatabaseStorage.launchCampaign now db id in (Flag r, db')
  | CreateOrUpdateAnalytics analytics =>
      let '(r, db') := DatabaseStorage.createOrUpdateAnalytics now db analytics in
      (AnalyticsOrNone r, db')
  | GetAnalytics accountId campaignId =>
      (AnalyticsList (DatabaseStorage.getAnalytics db accountId campaignId), db)
  | CreateUser user =>
      let '(r, db') := DatabaseStorage.createUser now db user in (UserOrNone r, db')
  | CreateResetToken userId token =>
      let '(r, db') := DatabaseStorage.createResetToken tz now token db userId in
      (TokenOrError r, db')
  | VerifyResetToken token =>
      (UserOrNone (DatabaseStorage.verifyResetToken now db token), db)
  | UpdatePassword userId password =>
      let '(r, db') := DatabaseStorage.updatePassword db userId password in
      (Flag r, db')
  end.

Definition mem_step (toLowerCase : string -> string) (tz : JSDate.zone)
  (now startDate : Z) (c : call) (st : MemStorage.t)
  : reply * MemStorage.t :=
  match c with
  | CreateContact contact =>
      let '(r, st') := MemStorage.createContact now st contact in
      (ContactOrNone (Some r), st')
  | GetContactByMobile mobile accountId =>
      (ContactOrNone (MemStorage.getContactByMobile st mobile accountId), st)
  | ImportContacts batch dedup =>
      let '(r, st') := MemStorage.importContacts now st batch dedup in
      (Counts r, st')
  | GetContacts accountId filters =>
      (ContactList
         (MemStorage.getContacts toLowerCase tz now startDate st accountId
            filters),
       st)
  | CreateCampaign campaign =>
      let '(r, st') := MemStorage.createCampaign now st campaign in
      (CampaignOrNone (Some r), st')
  | GetCampaignById id =>
      (CampaignOrNone (MemStorage.getCampaignById st id), st)
  | LaunchCampaign id =>
      let '(r, st') := MemStorage.launchCampaign now st id in (Flag r, st')
  | CreateOrUpdateAnalytics analytics =>
      let '(r, st') := MemStorage.createOrUpdateAnalytics now st analytics in
      (AnalyticsOrNone (Some r), st')
  | GetAnalytics accountId campaignId =>
      (AnalyticsList (MemStorage.getAnalytics st accountId campaignId), st)
  | CreateUser user =>
      let '(r, st') := MemStorage.createUser now st user in
      (UserOrNone (Some r), st')
  | CreateResetToken userId token =>
      let '(r, st') := MemStorage.createResetToken tz now token st userId in
      (TokenOrError r, st')
  | VerifyResetToken token =>
      (UserOrNone (MemStorage.verifyResetToken now st token), st)
  | UpdatePassword userId password =>
      let '(r, st') := MemStorage.updatePassword st userId password in
      (Flag r, st')
  end.

(** The replies to a sequence of calls, each made with its own clock
    readings: [now], and for a listing the second reading [startDate]. *)
Fixpoint db_run (tz : JSDate.zone) (calls : list (Z * Z * call))
  (db : DatabaseStorage.t) : list reply :=
  match calls with
  | [] => []
  | (now, startDate, c) :: rest =>
      let '(r, db') := db_step tz now startDate c db in r :: db_run tz rest db'
  end.

Fixpoint mem_run (toLowerCase : string -> string) (tz : JSDate.zone)
  (calls : list (Z * Z * call)) (st : MemStorage.t) : list reply :=
  match calls with
  | [] => []
  | (now, startDate, c) :: rest =>
      let '(r, st') := mem_step toLowerCase tz now startDate c st in
      r :: mem_run toLowerCase tz rest st'
  end.

(** The store a sequence of calls leaves. *)
Fixpoint db_exec (tz : JSDate.zone) (calls : list (Z * Z * call))
  (db : DatabaseStorage.t) : DatabaseStorage.t :=
  match calls with
  | [] => db
  | (now, startDate, c) :: rest =>
      db_exec tz rest (snd (db_step tz now startDate c db))
  end.

Fixpoint mem_exec (toLowerCase : string -> string) (tz : JSDate.zone)
  (calls : list (Z * Z * call)) (st : MemStorage.t) : MemStorage.t :=
  match calls with
  | [] => st
  | (now, startDate, c) :: rest =>
      mem_exec toLowerCase tz rest
        (snd (mem_step toLowerCase tz now startDate c st))
  end.

(** The filters of the specification's example: search "a" and label
    "vip". *)
Definition search_and_label : option ContactFilters.t :=
  Some (ContactFilters.mk (Some "a") (Some "vip") None None).

Definition search_only : option ContactFilters.t :=
  Some (ContactFilters.mk (Some "a") None None None).

(** Length in days of the calendar month before the local month of
    [now]. *)
Definition previous_month_length (tz : JSDate.zone) (now : Z) : Z :=
  let l := JSDate.LocalTime tz now in
  if JSDate.MonthFromTime l =? 0
  then JSDate.DaysInMonth (JSDate.YearFromTime l - 1) 11
  else JSDate.DaysInMonth (JSDate.YearFromTime l) (JSDate.MonthFromTime l - 1).

(** A search term without [LIKE] metacharacters. *)
Fixpoint plain (term : string) : bool :=
  match term with
  | EmptyString => true
  | String c r =>
      negb (Ascii.eqb c "%") && negb (Ascii.eqb c "_") && negb (Ascii.eqb c "\")
      && plain r
  end.

(** Whether a lookup found something. *)
Definition is_some {A : Type} (o : option A) : bool :=
  match o with Some _ => true | None => false end.

(** Filters in which no field is set to a non-empty string. *)
Definition no_contact_filter (f : ContactFilters.t) : bool :=
  negb (JS.truthy (ContactFilters.search f))
  && negb (JS.truthy (ContactFilters.label f))
  && negb (JS.truthy (ContactFilters.location f))
  && negb (JS.truthy (ContactFilters.dateRange f)).

Definition no_campaign_filter (f : CampaignFilters.t) : bool :=
  negb (JS.truthy (CampaignFilters.search f))
  && negb (JS.truthy (CampaignFilters.status f))
  && negb (JS.truthy (CampaignFilters.dateRange f)).

(** A listing by date range loses no record when the range is widened from
    "today" to "last-week", to "last-month", to "last-year". *)
Definition widening {A : Type} (listing : string -> list A) : Prop :=
  forall x,
    (In x (listing "today") -> In x (listing "last-week"))
    /\ (In x (listing "last-week") -> In x (listing "last-month"))
    /\ (In x (listing "last-month") -> In x (listing "last-year")).

(** A search term made of [%] only. *)
Fixpoint all_percent (term : string) : bool :=
  match term with
  | EmptyString => true
  | String c r => Ascii.eqb c "%" && all_percent r
  end.

(** Filters that set only [search]. *)
Definition contacts_matching (search : string) : option ContactFilters.t :=
  Some (ContactFilters.mk (Some search) None None None).

Definition campaigns_matching (search : string) : option CampaignFilters.t :=
  Some (CampaignFilters.mk (Some search) None None).

(** ** The writers of the campaign [Map] *)

Inductive campaign_op : Type :=
| OpCreateCampaign (campaign : InsertCampaign.t)
| OpUpdateCampaign (id : Z) (updateData : PartialCampaign.t)
| OpLaunchCampaign (id : Z)
| OpDeleteCampaign (id : Z).

Definition mem_campaign_step (now : Z) (op : campaign_op) (st : MemStorage.t)
  : MemStorage.t :=
  match op with
  | OpCreateCampaign campaign => snd (MemStorage.createCampaign now st campaign)
  | OpUpdateCampaign id updateData => snd (MemStorage.updateCampaign st id updateData)
  | OpLaunchCampaign id => snd (MemStorage.launchCampaign now st id)
  | OpDeleteCampaign id => snd (MemStorage.deleteCampaign st id)
  end.

Fixpoint mem_campaign_exec (ops : list (Z * campaign_op)) (st : MemStorage.t)
  : MemStorage.t :=
  match ops with
  | [] => st
  | (now, op) :: rest => mem_campaign_exec rest (mem_campaign_step now op st)
  end.

(** A campaign whose status is "draft" or "active" and whose optional
    texts are null rather than the empty string. *)
Definition tidy_campaign (c : Campaign.t) : bool :=
  (String.eqb (Campaign.status c) "draft" || String.eqb (Campaign.status c) "active")
  && negb (JS.strict_eq_opt (Campaign.contactLabel c) (Some ""))
  && negb (JS.strict_eq_opt (Campaign.scheduledFor c) (Some "")).

(** No user other than [userId] holds [token]. *)
Definition token_free (token : string) (userId : Z) (rows : list User.t) : Prop :=
  forall u, In u rows -> User.resetToken u = Some token -> User.id u = userId.

(** The user record [createResetToken] writes. *)
Definition with_token (token : string) (expiry : Z) (u : User.t) : User.t :=
  User.mk (User.id u) (User.username u) (User.email u) (User.password u)
    (Some token) (Some expiry) (User.createdAt u).

(** The settings [Map]: each row sits under its own id, below the counter. *)
Definition settings_wf (st : MemStorageSettings.t) : Prop :=
  map_wf Settings.id (MemStorageSettings.settingsData st)
    (MemStorageSettings.settingsCurrentId st).

(** At most one settings row per account. *)
Definition one_per_account (st : MemStorageSettings.t) : Prop :=
  NoDup (map Settings.accountId
           (JsMap.values (MemStorageSettings.settingsData st))).

(** The update names no account, or the account it is made for. *)
Definition same_account (accountId : Z) (p : PartialSettings.t) : bool :=
  match PartialSettings.accountId p with
  | Some a => a =? accountId
  | None => true
  end.


(** ** Time zones and clock readings *)

(** The offset of the zone is [tza] at all times: no daylight saving. *)
Definition constant_offset (tz : JSDate.zone) (tza : Z) : Prop :=
  forall t isUTC, tz t isUTC = tza.

(** The two clock readings of a listing fall on the same local day. *)
Definition same_local_day (tz : JSDate.zone) (now startDate : Z) : Prop :=
  JSDate.Day (JSDate.LocalTime tz now)
  = JSDate.Day (JSDate.LocalTime tz startDate).

(** US Eastern time around the end of daylight saving on 2026-11-01 at
    06:00 UTC: four hours behind UTC before that instant and five hours
    after it; a local time value that occurs twice is read with the offset
    before the transition. *)
Definition eastern_2026 : JSDate.zone :=
  fun t isUTC =>
    if isUTC
    then if t <? 1793512800000 then -14400000 else -18000000
    else if t <? 1793498400000 then -14400000 else -18000000.

(** ** Text *)

(** Text of ASCII characters only. *)
Fixpoint ascii_only (s : string) : bool :=
  match s with
  | EmptyString => true
  | String c r => Nat.ltb (nat_of_ascii c) 128 && ascii_only r
  end.

(** A lowering function that, on ASCII text, lowers the letters A to Z and
    changes nothing else, as [String.prototype.toLowerCase] does. *)
Definition lowers_ascii (toLowerCase : string -> string) : Prop :=
  forall s, ascii_only s = true -> toLowerCase s = JS.toLowerCase s.

(** Every name and mobile the in-memory backend would search is ASCII. *)
Definition ascii_records (st : MemStorage.t) : bool :=
  forallb (fun c => ascii_only (Contact.name c) && ascii_only (Contact.mobile c))
    (JsMap.values (MemStorage.contacts st))
  && forallb (fun c => ascii_only (Campaign.name c))
       (JsMap.values (MemStorage.campaigns st)).

(** ** Filters with one field

    Filters that hold no search term and at most one other non-empty
    field. *)

Definition filled (o : option string) : Z := if JS.truthy o then 1 else 0.

Definition one_contact_filter (f : ContactFilters.t) : bool :=
  negb (JS.truthy (ContactFilters.search f))
  && (filled (ContactFilters.label f) + filled (ContactFilters.location f)
      + filled (ContactFilters.dateRange f) <=? 1).

Definition one_campaign_filter (g : CampaignFilters.t) : bool :=
  negb (JS.truthy (CampaignFilters.search g))
  && (filled (CampaignFilters.status g) + filled (CampaignFilters.dateRange g)
      <=? 1).

(** ** The writers of the in-memory backend

    The twelve methods of [MemStorage] that write the users, contacts,
    campaigns or analytics [Map]. *)

Inductive mem_write : Type :=
| WCreateUser (insertUser : InsertUser.t)
| WCreateResetToken (userId : Z) (token : string)
| WUpdatePassword (userId : Z) (password : string)
| WCreateContact (insertContact : InsertContact.t)
| WUpdateContact (id : Z) (updateData : PartialContact.t)
| WDeleteContact (id : Z)
| WImportContacts (contacts : list InsertContact.t) (deduplicateByMobile : bool)
| WCreateCampaign (insertCampaign : InsertCampaign.t)
| WUpdateCampaign (id : Z) (updateData : PartialCampaign.t)
| WDeleteCampaign (id : Z)
| WLaunchCampaign (id : Z)
| WCreateOrUpdateAnalytics (insertAnalytics : InsertAnalytics.t).

Definition mem_write_step (tz : JSDate.zone) (now : Z) (w : mem_write)
  (st : MemStorage.t) : MemStorage.t :=
  match w with
  | WCreateUser insertUser => snd (MemStorage.createUser now st insertUser)
  | WCreateResetToken userId token =>
      snd (MemStorage.createResetToken tz now token st userId)
  | WUpdatePassword userId password =>
      snd (MemStorage.updatePassword st userId password)
  | WCreateContact insertContact =>
      snd (MemStorage.createContact now st insertContact)
  | WUpdateContact id updateData => snd (MemStorage.updateContact st id updateData)
  | WDeleteContact id => snd (MemStorage.deleteContact st id)
  | WImportContacts contacts deduplicateByMobile =>
      snd (MemStorage.importContacts now st contacts deduplicateByMobile)
  | WCreateCampaign insertCampaign =>
      snd (MemStorage.createCampaign now st insertCampaign)
  | WUpdateCampaign id updateData =>
      snd (MemStorage.updateCampaign st id updateData)
  | WDeleteCampaign id => snd (MemStorage.deleteCampaign st id)
  | WLaunchCampaign id => snd (MemStorage.launchCampaign now st id)
  | WCreateOrUpdateAnalytics insertAnalytics =>
      snd (MemStorage.createOrUpdateAnalytics now st insertAnalytics)
  end.

(** The state a sequence of writes leaves, each made at its own clock
    reading. *)
Fixpoint mem_write_exec (tz : JSDate.zone) (writes : list (Z * mem_write))
  (st : MemStorage.t) : MemStorage.t :=
  match writes with
  | [] => st
  | (now, w) :: rest => mem_write_exec tz rest (mem_write_step tz now w st)
  end.

(** * Properties *)

(** ** Calendar arithmetic of [Date] *)

Module JSDateFacts.

Import JSDate.

Ltac month_cases m :=
  let C := fresh "C" in
  assert (C : m = 0 \/ m = 1 \/ m = 2 \/ m = 3 \/ m = 4 \/ m = 5 \/ m = 6 \/
              m = 7 \/ m = 8 \/ m = 9 \/ m = 10 \/ m = 11) by lia;
  repeat destruct C as [C|C]; subst m.

Lemma DayFromYear_step y :
  DayFromYear (y + 1) = DayFromYear y + DaysInYear y.
Proof.
  unfold DayFromYear, DaysInYear, isLeap.
  destruct (y mod 4 =? 0) eqn:E4; destruct (y mod 100 =? 0) eqn:E100;
  destruct (y mod 400 =? 0) eqn:E400; cbn [andb orb negb];
  rewrite ?Z.eqb_eq, ?Z.eqb_neq in *; 
  Z.to_euclidean_division_equations; lia.
Qed.

Lemma DayFromYear_mono y y' : y <= y' -> DayFromYear y <= DayFromYear y'.
Proof.
  unfold DayFromYear. intros H. Z.to_euclidean_division_equations; lia.
Qed.

Lemma YearFromDay_spec d :
  DayFromYear (YearFromDay d) <= d < DayFromYear (YearFromDay d + 1).
Proof.
  unfold YearFromDay.
  set (y0 := 1970 + d * 400 / 146097).
  destruct (d <? DayFromYear y0) eqn:E1.
  - rewrite Z.ltb_lt in E1. replace (y0 - 1 + 1) with y0 by lia.
    split; [|lia]. unfold DayFromYear in *. subst y0.
    Z.to_euclidean_division_equations; lia.
  - rewrite Z.ltb_ge in E1.
    destruct (DayFromYear (y0 + 1) <=? d) eqn:E2.
    + rewrite Z.leb_le in E2. split; [lia|].
      unfold DayFromYear in *. subst y0.
      Z.to_euclidean_division_equations; lia.
    + rewrite Z.leb_gt in E2. lia.
Qed.

Lemma YearFromDay_unique d y :
  DayFromYear y <= d < DayFromYear (y + 1) -> YearFromDay d = y.
Proof.
  intros H. pose proof (YearFromDay_spec d) as S.
  destruct (Z.lt_trichotomy (YearFromDay d) y) as [L|[E|G]]; [|exact E|].
  - pose proof (DayFromYear_mono (YearFromDay d + 1) y ltac:(lia)). lia.
  - pose proof (DayFromYear_mono (y + 1) (YearFromDay d) ltac:(lia)). lia.
Qed.

Lemma DaysInYear_cases y : DaysInYear y = 365 + (if isLeap y then 1 else 0).
Proof. unfold DaysInYear. destruct (isLeap y); reflexivity. Qed.

Lemma DayWithinYear_range t :
  0 <= DayWithinYear t < 365 + InLeapYear t.
Proof.
  unfold DayWithinYear, InLeapYear, YearFromTime.
  pose proof (YearFromDay_spec (Day t)) as S.
  rewrite DayFromYear_step, DaysInYear_cases in S.
  destruct (isLeap (YearFromDay (Day t))); lia.
Qed.

Lemma monthOfDay_range dwy l : 0 <= monthOfDay dwy l <= 11.
Proof.
  unfold monthOfDay.
  repeat match goal with |- context [if ?b then _ else _] => destruct b end; lia.
Qed.

Lemma MonthFromTime_range t : 0 <= MonthFromTime t <= 11.
Proof. apply monthOfDay_range. Qed.

Lemma MakeDay_in_year y m d :
  0 <= m <= 11 ->
  MakeDay y m d = DayFromYear y + monthStart m (if isLeap y then 1 else 0) + d - 1.
Proof.
  intros H. unfold MakeDay.
  rewrite (Z.div_small m 12), (Z.mod_small m 12) by lia.
  rewrite Z.add_0_r. reflexivity.
Qed.

(** The calendar fields of a time value rebuild its day number. *)
Lemma MakeDay_fields t :
  MakeDay (YearFromTime t) (MonthFromTime t) (DateFromTime t) = Day t.
Proof.
  rewrite MakeDay_in_year by apply MonthFromTime_range.
  unfold DateFromTime, DayWithinYear, InLeapYear. lia.
Qed.

Lemma MakeDay_date_shift y m d k : MakeDay y m (d + k) = MakeDay y m d + k.
Proof. unfold MakeDay. lia. Qed.

Lemma MakeDate_Day_TimeWithinDay t : MakeDate (Day t) (TimeWithinDay t) = t.
Proof.
  unfold MakeDate, Day, TimeWithinDay, msPerDay.
  Z.to_euclidean_division_equations; lia.
Qed.

(** The calendar fields of a time value are those of its day. *)
Lemma fields_of_Day a b :
  Day a = Day b ->
  YearFromTime a = YearFromTime b
  /\ MonthFromTime a = MonthFromTime b
  /\ DateFromTime a = DateFromTime b.
Proof.
  unfold DateFromTime, MonthFromTime, InLeapYear, DayWithinYear, YearFromTime.
  intros ->. repeat split.
Qed.

Lemma getters_same_local_day tz n t :
  same_local_day tz n t ->
  getFullYear tz n = getFullYear tz t
  /\ getMonth tz n = getMonth tz t
  /\ getDate tz n = getDate tz t.
Proof. unfold getFullYear, getMonth, getDate. apply fields_of_Day. Qed.

Lemma LocalTime_constant tz tza t :
  constant_offset tz tza -> LocalTime tz t = t + tza.
Proof. intros C. unfold LocalTime. now rewrite C. Qed.

Lemma UTC_constant tz tza t : constant_offset tz tza -> UTC tz t = t - tza.
Proof. intros C. unfold UTC. now rewrite C. Qed.

Lemma setDate_getDate tz tza t k :
  constant_offset tz tza ->
  setDate tz t (getDate tz t - k) = t - k * msPerDay.
Proof.
  intros C. unfold setDate, getDate. rewrite (UTC_constant tz tza _ C).
  replace (DateFromTime (LocalTime tz t) - k)
    with (DateFromTime (LocalTime tz t) + - k) by lia.
  rewrite MakeDay_date_shift, MakeDay_fields.
  pose proof (MakeDate_Day_TimeWithinDay (LocalTime tz t)) as E.
  rewrite (LocalTime_constant tz tza t C) in *.
  unfold MakeDate, msPerDay in *.
  revert E. generalize (Day (t + tza)) (TimeWithinDay (t + tza)). intros; lia.
Qed.

Lemma monthOfDay_date dwy l :
  0 <= dwy < 365 + l -> 0 <= l <= 1 ->
  1 <= dwy - monthStart (monthOfDay dwy l) l + 1 <= 31.
Proof.
  intros H L. unfold monthOfDay.
  repeat match goal with
         | |- context [if ?a <? ?b then _ else _] =>
             destruct (Z.ltb_spec a b)
         end; cbv [monthStart Z.eqb Pos.eqb]; lia.
Qed.

Lemma DateFromTime_range t : 1 <= DateFromTime t <= 31.
Proof.
  unfold DateFromTime, MonthFromTime.
  apply monthOfDay_date; [apply DayWithinYear_range|].
  unfold InLeapYear; destruct isLeap; lia.
Qed.

Lemma DaysInMonth_range y m : 0 <= m <= 11 -> 28 <= DaysInMonth y m <= 31.
Proof.
  intros H. unfold DaysInMonth.
  destruct (isLeap y); month_cases m; cbn [Z.eqb Pos.eqb Z.add Pos.add Pos.succ];
    cbv [monthStart Z.eqb Pos.eqb]; lia.
Qed.

Lemma MakeDay_prev_month y m d :
  1 <= m <= 11 -> MakeDay y (m - 1) d = MakeDay y m d - DaysInMonth y (m - 1).
Proof.
  intros H. rewrite !MakeDay_in_year by lia. unfold DaysInMonth.
  generalize (if isLeap y then 1 else 0). intros l.
  month_cases m; try lia;
    cbn [Z.eqb Pos.eqb Z.add Z.sub Z.opp Z.pos_sub Pos.pred_double
         Z.succ_double Z.pred_double Z.double Pos.add Pos.succ];
    cbv [monthStart Z.eqb Pos.eqb]; lia.
Qed.

Lemma MakeDay_prev_month_jan y d :
  MakeDay y (0 - 1) d = MakeDay y 0 d - DaysInMonth (y - 1) 11.
Proof.
  unfold MakeDay, DaysInMonth.
  change ((0 - 1) / 12) with (-1). change ((0 - 1) mod 12) with 11.
  change (0 / 12) with 0. change (0 mod 12) with 0.
  replace (y + 0) with (y - 1 + 1) by lia.
  rewrite DayFromYear_step, DaysInYear_cases.
  replace (y + -1) with (y - 1) by lia.
  destruct (isLeap (y - 1)); destruct (isLeap (y - 1 + 1));
    cbv [monthStart Z.eqb Pos.eqb]; lia.
Qed.

Lemma isLeap_consecutive y : isLeap (y - 1) = true -> isLeap y = false.
Proof.
  unfold isLeap.
  destruct (Z.eqb_spec ((y - 1) mod 4) 0); destruct (Z.eqb_spec ((y - 1) mod 100) 0);
    destruct (Z.eqb_spec ((y - 1) mod 400) 0); destruct (Z.eqb_spec (y mod 4) 0);
    destruct (Z.eqb_spec (y mod 100) 0); destruct (Z.eqb_spec (y mod 400) 0);
    cbn; intros E; try reflexivity; try discriminate; exfalso;
    Z.to_euclidean_division_equations; lia.
Qed.

Lemma MakeDay_prev_year y m d :
  0 <= m <= 11 ->
  MakeDay (y - 1) m d = MakeDay y m d - 365 \/
  MakeDay (y - 1) m d = MakeDay y m d - 366.
Proof.
  intros H. rewrite !MakeDay_in_year by lia.
  replace (DayFromYear y) with (DayFromYear (y - 1 + 1)) by (f_equal; lia).
  rewrite DayFromYear_step, DaysInYear_cases.
  pose proof (isLeap_consecutive y) as L.
  destruct (isLeap (y - 1)); destruct (isLeap y); try (specialize (L eq_refl); discriminate);
    month_cases m; cbv [monthStart Z.eqb Pos.eqb]; lia.
Qed.

Lemma TimeWithinDay_range t : 0 <= TimeWithinDay t < msPerDay.
Proof. unfold TimeWithinDay, msPerDay. Z.to_euclidean_division_equations; lia. Qed.

Lemma TimeWithinDay_MakeDate d t :
  0 <= t < msPerDay -> TimeWithinDay (MakeDate d t) = t.
Proof.
  unfold TimeWithinDay, MakeDate, msPerDay. intros H.
  Z.to_euclidean_division_equations; lia.
Qed.

Lemma Day_MakeDate d t :
  0 <= t < msPerDay -> Day (MakeDate d t) = d.
Proof.
  unfold Day, MakeDate, msPerDay. intros H.
  Z.to_euclidean_division_equations; lia.
Qed.

Lemma MakeDate_shift d k t : MakeDate (d - k) t = MakeDate d t - k * msPerDay.
Proof. unfold MakeDate. lia. Qed.

(** setMonth(getMonth() - 1) goes back by the length of the previous
    calendar month. *)
Lemma setMonth_prev tz tza t :
  constant_offset tz tza ->
  let l := LocalTime tz t in
  let y := YearFromTime l in
  let m := MonthFromTime l in
  setMonth tz t (getMonth tz t - 1)
  = t - (if m =? 0 then DaysInMonth (y - 1) 11 else DaysInMonth y (m - 1)) * msPerDay.
Proof.
  intros C. cbn zeta. unfold setMonth, getMonth.
  rewrite (UTC_constant tz tza _ C).
  pose proof (LocalTime_constant tz tza t C) as L.
  set (l := LocalTime tz t) in *.
  pose proof (MonthFromTime_range l) as R.
  destruct (Z.eqb_spec (MonthFromTime l) 0) as [E|N].
  - rewrite E, MakeDay_prev_month_jan, <- E, MakeDay_fields, MakeDate_shift,
      MakeDate_Day_TimeWithinDay. lia.
  - rewrite MakeDay_prev_month, MakeDay_fields, MakeDate_shift,
      MakeDate_Day_TimeWithinDay by lia. lia.
Qed.

Lemma setFullYear_prev tz tza t :
  constant_offset tz tza ->
  setFullYear tz t (getFullYear tz t - 1) = t - 365 * msPerDay \/
  setFullYear tz t (getFullYear tz t - 1) = t - 366 * msPerDay.
Proof.
  intros C. unfold setFullYear, getFullYear.
  rewrite !(UTC_constant tz tza _ C).
  pose proof (LocalTime_constant tz tza t C) as L.
  set (l := LocalTime tz t) in *.
  destruct (MakeDay_prev_year (YearFromTime l) (MonthFromTime l) (DateFromTime l)
              (MonthFromTime_range l)) as [E|E];
    rewrite E, MakeDay_fields, MakeDate_shift, MakeDate_Day_TimeWithinDay;
    [left|right]; lia.
Qed.

Lemma setHours4_midnight tz tza t :
  constant_offset tz tza ->
  let s := setHours4 tz t 0 0 0 0 in
  TimeWithinDay (LocalTime tz s) = 0 /\ s <= t < s + msPerDay /\
  Day (LocalTime tz s) = Day (LocalTime tz t).
Proof.
  intros C. cbn zeta. unfold setHours4.
  rewrite (UTC_constant tz tza _ C), !(LocalTime_constant tz tza _ C).
  unfold MakeDate, MakeTime, TimeWithinDay, Day,
    msPerDay, msPerHour, msPerMinute, msPerSecond.
  Z.to_euclidean_division_equations; lia.
Qed.

Lemma setHours_next tz tza t :
  constant_offset tz tza ->
  setHours tz t (getHours tz t + 1) = t + msPerHour.
Proof.
  intros C. unfold setHours, getHours. cbn zeta.
  rewrite (UTC_constant tz tza _ C), !(LocalTime_constant tz tza _ C).
  unfold MakeDate, MakeTime, Day,
    HourFromTime, MinFromTime, SecFromTime, msFromTime,
    msPerDay, msPerHour, msPerMinute, msPerSecond.
  Z.to_euclidean_division_equations; lia.
Qed.

(** [MakeDay] agrees with its definition in ECMA-262: the day it returns
    for the first of a month lies in that year and month. *)
Lemma MakeDay_first y m :
  0 <= m <= 11 ->
  let t := MakeDate (MakeDay y m 1) 0 in
  YearFromTime t = y /\ MonthFromTime t = m /\ DateFromTime t = 1.
Proof.
  intros H t.
  assert (D : Day t = MakeDay y m 1)
    by (apply Day_MakeDate; unfold msPerDay; lia).
  assert (Y : YearFromTime t = y).
  { unfold YearFromTime. rewrite D. apply YearFromDay_unique.
    rewrite MakeDay_in_year, DayFromYear_step, DaysInYear_cases by lia.
    destruct (isLeap y); month_cases m; cbv [monthStart Z.eqb Pos.eqb]; lia. }
  assert (W : DayWithinYear t = monthStart m (if isLeap y then 1 else 0)).
  { unfold DayWithinYear. rewrite D, Y, MakeDay_in_year by lia. lia. }
  assert (M : MonthFromTime t = m).
  { unfold MonthFromTime, InLeapYear. rewrite W, Y.
    destruct (isLeap y); month_cases m; reflexivity. }
  repeat split; [exact Y | exact M |].
  unfold DateFromTime, InLeapYear. rewrite M, W, Y. lia.
Qed.

End JSDateFacts.

(** 2026-11-02T10:37:00Z *)
Example date_fields_20261102 :
  let t := 1793615820000 in
  (JSDate.getFullYear (JSDate.fixed 0) t, JSDate.getMonth (JSDate.fixed 0) t, JSDate.getDate (JSDate.fixed 0) t,
   JSDate.getHours (JSDate.fixed 0) t)
  = (2026, 10, 2, 10).
Proof. vm_compute. reflexivity. Qed.

(** 1969-12-31T23:59:59.999Z, one millisecond before the epoch; and the
    same instant on the wall clock of a zone five and a half hours ahead. *)
Example date_fields_before_epoch :
  (JSDate.getFullYear (JSDate.fixed 0) (-1), JSDate.getMonth (JSDate.fixed 0) (-1), JSDate.getDate (JSDate.fixed 0) (-1),
   JSDate.getHours (JSDate.fixed 0) (-1))
  = (1969, 11, 31, 23)
  /\ (let india := JSDate.fixed 19800000 in
      (JSDate.getFullYear india (-1), JSDate.getMonth india (-1),
       JSDate.getDate india (-1), JSDate.getHours india (-1))
      = (1970, 0, 1, 5)).
Proof. split; vm_compute; reflexivity. Qed.

(** 2024-02-29T12:00Z is a leap day; a year before it is "2023-02-29",
    2023-03-01. *)
Example last_year_leap_day :
  let t := 1709208000000 in
  let s := JSDate.setFullYear (JSDate.fixed 0) t (JSDate.getFullYear (JSDate.fixed 0) t - 1) in
  (JSDate.getFullYear (JSDate.fixed 0) t, JSDate.getMonth (JSDate.fixed 0) t, JSDate.getDate (JSDate.fixed 0) t) = (2024, 1, 29)
  /\ (JSDate.getFullYear (JSDate.fixed 0) s, JSDate.getMonth (JSDate.fixed 0) s, JSDate.getDate (JSDate.fixed 0) s) = (2023, 2, 1).
Proof. split; vm_compute; reflexivity. Qed.

(** One month before 2024-03-31T12:00Z is "February 31st", 2024-03-02. *)
Example last_month_overflow :
  let t := 1711886400000 in
  let s := JSDate.setMonth (JSDate.fixed 0) t (JSDate.getMonth (JSDate.fixed 0) t - 1) in
  (JSDate.getFullYear (JSDate.fixed 0) s, JSDate.getMonth (JSDate.fixed 0) s, JSDate.getDate (JSDate.fixed 0) s)
  = (2024, 2, 2).
Proof. vm_compute. reflexivity. Qed.

(** Across the end of daylight saving a week is an hour longer: at
    2026-11-02T17:00Z, noon in US Eastern time, [setDate(getDate() - 7)]
    gives noon of 2026-10-26, which is 16:00Z, seven days and one hour
    earlier. *)
Example last_week_across_daylight_saving :
  let t := 1793638800000 in
  JSDate.setDate eastern_2026 t (JSDate.getDate eastern_2026 t - 7)
  = 1793030400000
  /\ t - 1793030400000 = 7 * JSDate.msPerDay + JSDate.msPerHour.
Proof. split; vm_compute; reflexivity. Qed.

(** At 2026-11-01T05:30Z, 01:30 in US Eastern time on the night the clocks
    go back, [setHours(getHours() + 1)] gives 02:30 of the new offset,
    07:30Z, two hours later. *)
Example next_hour_across_daylight_saving :
  let t := 1793511000000 in
  JSDate.setHours eastern_2026 t (JSDate.getHours eastern_2026 t + 1)
  = t + 2 * JSDate.msPerHour.
Proof. vm_compute. reflexivity. Qed.

(** ** The query builder and [Map] *)

Section DrizzleFacts.

Context {R : Type}.
Variables (set : R -> R) (p : R -> bool).

Lemma update_rows_no_match (rows : list R) :
  Drizzle.select rows p = [] -> fst (Drizzle.update rows set p) = rows.
Proof.
  unfold Drizzle.select, Drizzle.update. cbn [fst].
  induction rows as [|r rows IH]; cbn; [reflexivity|].
  destruct (p r); [discriminate|]. intros E. now rewrite IH.
Qed.

Lemma update_returning (rows : list R) :
  snd (Drizzle.update rows set p) = map set (Drizzle.select rows p).
Proof. reflexivity. Qed.

(** When [set] keeps the rows inside the [where] clause, the rows it
    selects afterwards are the updated ones, in place. *)
Lemma select_update (rows : list R) :
  (forall r, p r = true -> p (set r) = true) ->
  Drizzle.select (fst (Drizzle.update rows set p)) p
  = map set (Drizzle.select rows p).
Proof.
  intros K. unfold Drizzle.select, Drizzle.update. cbn [fst].
  induction rows as [|r rows IH]; cbn; [reflexivity|].
  destruct (p r) eqn:E; cbn.
  - rewrite (K r E). cbn. now rewrite IH.
  - rewrite E. exact IH.
Qed.

Lemma update_length (rows : list R) :
  List.length (fst (Drizzle.update rows set p)) = List.length rows.
Proof. unfold Drizzle.update. cbn [fst]. apply length_map. Qed.

End DrizzleFacts.

Section JsMapFacts.

Context {V : Type}.

Lemma get_set_same (m : JsMap.t V) k v : JsMap.get (JsMap.set m k v) k = Some v.
Proof.
  induction m as [|[k' v'] m IH]; cbn.
  - now rewrite Z.eqb_refl.
  - destruct (Z.eqb_spec k' k); cbn.
    + now rewrite Z.eqb_refl.
    + destruct (Z.eqb_spec k' k); [contradiction|exact IH].
Qed.

Lemma get_set_other (m : JsMap.t V) k k' v :
  k' <> k -> JsMap.get (JsMap.set m k v) k' = JsMap.get m k'.
Proof.
  intros N. induction m as [|[k0 v0] m IH]; cbn.
  - destruct (Z.eqb_spec k k'); [congruence|reflexivity].
  - destruct (Z.eqb_spec k0 k); cbn.
    + subst. destruct (Z.eqb_spec k k'); [congruence|reflexivity].
    + destruct (Z.eqb_spec k0 k'); [reflexivity|exact IH].
Qed.

Lemma get_In (m : JsMap.t V) k v : JsMap.get m k = Some v -> In (k, v) m.
Proof.
  induction m as [|[k' v'] m IH]; cbn; [discriminate|].
  destruct (Z.eqb_spec k' k); intros E.
  - injection E as <-. subst. now left.
  - right. auto.
Qed.

Lemma get_None_notin (m : JsMap.t V) k :
  JsMap.get m k = None -> ~ In k (map fst m).
Proof.
  induction m as [|[k' v'] m IH]; cbn; [tauto|].
  destruct (Z.eqb_spec k' k); [discriminate|]. intros E [H|H]; [contradiction|].
  now apply IH.
Qed.

(** Setting a key that is not in the map appends the entry. *)
Lemma set_fresh (m : JsMap.t V) k v :
  ~ In k (map fst m) -> JsMap.set m k v = m ++ [(k, v)].
Proof.
  induction m as [|[k' v'] m IH]; cbn; [reflexivity|].
  intros N. destruct (Z.eqb_spec k' k); [tauto|]. rewrite IH; tauto.
Qed.

Lemma set_keys_present (m : JsMap.t V) k v :
  In k (map fst m) -> map fst (JsMap.set m k v) = map fst m.
Proof.
  induction m as [|[k' v'] m IH]; cbn; [tauto|].
  destruct (Z.eqb_spec k' k); cbn; [now subst|].
  intros [H|H]; [contradiction|]. now rewrite IH.
Qed.

End JsMapFacts.

(** ** Lists read as keyed tables *)

Lemma find_first_filter {R : Type} (p : R -> bool) (l : list R) :
  find p l = hd_error (filter p l).
Proof.
  induction l as [|r l IH]; cbn; [reflexivity|]. destruct (p r); [reflexivity|exact IH].
Qed.

Lemma filter_nil_forall {R : Type} (p : R -> bool) (l : list R) :
  filter p l = [] -> forall r, In r l -> p r = false.
Proof.
  induction l as [|a l IH]; cbn; [tauto|].
  destruct (p a) eqn:E; [discriminate|]. intros F r [<-|H]; auto.
Qed.

Lemma filter_head_In {R : Type} (p : R -> bool) (l : list R) e tl :
  filter p l = e :: tl -> In e l /\ p e = true.
Proof.
  intros E. apply filter_In. rewrite E. now left.
Qed.

Lemma filter_and {R : Type} (p q : R -> bool) (l : list R) :
  filter (fun r => p r && q r) l = filter q (filter p l).
Proof.
  induction l as [|a l IH]; cbn; [reflexivity|].
  destruct (p a); cbn; [destruct (q a); now rewrite IH|exact IH].
Qed.

Lemma filter_map_update {R : Type} (p q : R -> bool) (f : R -> R) (l : list R) :
  (forall a, In a l -> q (if p a then f a else a) = p a) ->
  filter q (map (fun a => if p a then f a else a) l) = map f (filter p l).
Proof.
  induction l as [|a l IH]; cbn; [reflexivity|].
  intros K. rewrite (K a (or_introl eq_refl)).
  destruct (p a); cbn; rewrite IH; auto.
Qed.

Lemma filter_map_untouched {R : Type} (p q : R -> bool) (f : R -> R) (l : list R) :
  (forall a, In a l -> p a = true -> q (f a) = false /\ q a = false) ->
  filter q (map (fun a => if p a then f a else a) l) = filter q l.
Proof.
  induction l as [|a l IH]; cbn; [reflexivity|].
  intros K. destruct (p a) eqn:E.
  - destruct (K a (or_introl eq_refl) E) as [-> ->]. auto.
  - destruct (q a); rewrite IH; auto.
Qed.

Section Keyed.

Context {R : Type}.
Variable key : R -> Z.

Lemma key_inj_in (rows : list R) x y :
  NoDup (map key rows) -> In x rows -> In y rows -> key x = key y -> x = y.
Proof.
  induction rows as [|r rows IH]; cbn; [tauto|].
  intros N Hx Hy E. inversion N as [|? ? Nin N']; subst.
  destruct Hx as [<-|Hx], Hy as [<-|Hy]; auto.
  - exfalso. apply Nin. rewrite E. now apply in_map.
  - exfalso. apply Nin. rewrite <- E. now apply in_map.
Qed.

Lemma filter_key_unique (rows : list R) e :
  NoDup (map key rows) -> In e rows ->
  filter (fun r => key r =? key e) rows = [e].
Proof.
  induction rows as [|r rows IH]; cbn; [tauto|].
  intros N H. inversion N as [|? ? Nin N']; subst.
  destruct (Z.eqb_spec (key r) (key e)) as [E|E].
  - assert (r = e)
      by (apply (key_inj_in (r :: rows)); [exact N|now left|exact H|exact E]).
    subst r.
    f_equal. destruct (filter _ rows) as [|x tl] eqn:F; [reflexivity|].
    apply filter_head_In in F. destruct F as [Hin Hk].
    exfalso. apply Nin. apply Z.eqb_eq in Hk. rewrite <- Hk. now apply in_map.
  - destruct H as [->|H]; [congruence|]. auto.
Qed.

Lemma filter_key_absent (rows : list R) k :
  ~ In k (map key rows) -> filter (fun r => key r =? k) rows = [].
Proof.
  induction rows as [|r rows IH]; cbn; [reflexivity|].
  intros N. destruct (Z.eqb_spec (key r) k); [tauto|]. apply IH. tauto.
Qed.

Lemma map_key_update (p : R -> bool) (f : R -> R) (rows : list R) :
  (forall a, In a rows -> p a = true -> key (f a) = key a) ->
  map key (map (fun a => if p a then f a else a) rows) = map key rows.
Proof.
  intros K. rewrite map_map. apply map_ext_in. intros a H.
  destruct (p a) eqn:E; auto.
Qed.

End Keyed.

Lemma table_wf_insert {R : Type} (id : R -> Z) rows next r :
  table_wf id rows next -> id r = next -> table_wf id (rows ++ [r]) (next + 1).
Proof.
  intros [N F] E. split.
  - rewrite map_app. cbn. apply NoDup_app; [exact N|repeat constructor; cbn; tauto|].
    intros k Hk [<-|[]]. rewrite Forall_forall in F.
    apply in_map_iff in Hk. destruct Hk as [x [Hx Hin]]. specialize (F x Hin). lia.
  - apply Forall_app. split.
    + eapply Forall_impl; [|exact F]. cbn. intros; lia.
    + repeat constructor. lia.
Qed.

Lemma table_wf_update {R : Type} (id : R -> Z) rows next (p : R -> bool) f :
  table_wf id rows next -> (forall a, id (f a) = id a) ->
  table_wf id (fst (Drizzle.update rows f p)) next.
Proof.
  intros [N F] K. unfold Drizzle.update. cbn [fst]. split.
  - rewrite map_key_update; auto.
  - rewrite Forall_forall in *. intros x Hx. apply in_map_iff in Hx.
    destruct Hx as [a [<- Ha]]. destruct (p a); [rewrite K|]; auto.
Qed.

(** ** The analytics upsert, relational backend *)

Lemma db_createOrUpdateAnalytics_other_tables now db ia :
  let db' := snd (DatabaseStorage.createOrUpdateAnalytics now db ia) in
  DatabaseStorage.users db' = DatabaseStorage.users db
  /\ DatabaseStorage.users_id_seq db' = DatabaseStorage.users_id_seq db
  /\ DatabaseStorage.contacts db' = DatabaseStorage.contacts db
  /\ DatabaseStorage.contacts_id_seq db' = DatabaseStorage.contacts_id_seq db
  /\ DatabaseStorage.campaigns db' = DatabaseStorage.campaigns db
  /\ DatabaseStorage.campaigns_id_seq db' = DatabaseStorage.campaigns_id_seq db.
Proof.
  unfold DatabaseStorage.createOrUpdateAnalytics.
  destruct (Drizzle.select _ _); cbn; repeat split; reflexivity.
Qed.

Lemma db_createOrUpdateAnalytics_spec now db ia :
  table_wf Analytics.id (DatabaseStorage.analytics db)
    (DatabaseStorage.analytics_id_seq db) ->
  one_per_campaign (DatabaseStorage.analytics db) ->
  let '(r, db') := DatabaseStorage.createOrUpdateAnalytics now db ia in
  let a := upserted now (DatabaseStorage.analytics_id_seq db)
             (DatabaseStorage.analytics db) ia in
  r = Some a
  /\ analytics_of (InsertAnalytics.campaignId ia) (DatabaseStorage.analytics db')
     = [a]
  /\ (forall c, c <> InsertAnalytics.campaignId ia ->
                analytics_of c (DatabaseStorage.analytics db')
                = analytics_of c (DatabaseStorage.analytics db))
  /\ table_wf Analytics.id (DatabaseStorage.analytics db')
       (DatabaseStorage.analytics_id_seq db')
  /\ one_per_campaign (DatabaseStorage.analytics db').
Proof.
  intros W U.
  unfold DatabaseStorage.createOrUpdateAnalytics, upserted, analytics_of,
    Drizzle.select.
  set (cid := InsertAnalytics.campaignId ia).
  set (rows := DatabaseStorage.analytics db) in *.
  set (next := DatabaseStorage.analytics_id_seq db) in *.
  destruct (filter (fun a => Analytics.campaignId a =? cid) rows)
    as [|e tl] eqn:F.
  - (* insert *)
    fold (inserted now next ia). cbn.
    pose proof (filter_nil_forall _ _ F) as Nn.
    rewrite filter_app, F. cbn. subst cid. rewrite Z.eqb_refl.
    split; [reflexivity|]. split; [reflexivity|]. split; [|split].
    + intros c Hc. rewrite filter_app. cbn.
      destruct (Z.eqb_spec (InsertAnalytics.campaignId ia) c); [congruence|].
      apply app_nil_r.
    + apply table_wf_insert; [exact W|reflexivity].
    + unfold one_per_campaign in *. rewrite map_app. cbn.
      apply NoDup_app; [exact U|repeat constructor; cbn; tauto|].
      intros k Hk [<-|[]]. apply in_map_iff in Hk. destruct Hk as [x [Hx Hin]].
      specialize (Nn x Hin). cbn in Nn. apply Z.eqb_neq in Nn. congruence.
  - (* update *)
    destruct (filter_head_In _ _ _ _ F) as [He Hc]. apply Z.eqb_eq in Hc.
    destruct W as [N Fa].
    assert (Same : forall a, In a rows -> Analytics.id a = Analytics.id e -> a = e)
      by (intros a Ha; apply (key_inj_in Analytics.id rows); assumption).
    assert (Camp : forall a, In a rows -> Analytics.campaignId a = cid -> a = e).
    { intros a Ha E. apply (key_inj_in Analytics.campaignId rows); try assumption.
      congruence. }
    set (M := fun a : Analytics.t =>
                Analytics.mk (Analytics.id a) (InsertAnalytics.accountId ia) cid
                  (JS.nullish (InsertAnalytics.sent ia) (Analytics.sent e))
                  (JS.nullish (InsertAnalytics.delivered ia) (Analytics.delivered e))
                  (JS.nullish (InsertAnalytics.read ia) (Analytics.read e))
                  (JS.nullish (InsertAnalytics.optout ia) (Analytics.optout e))
                  (JS.nullish (InsertAnalytics.hold ia) (Analytics.hold e))
                  (JS.nullish (InsertAnalytics.failed ia) (Analytics.failed e))
                  now).
    assert (Me : M e = merged now e ia) by reflexivity.
    cbn. fold M.
    rewrite (filter_key_unique Analytics.id rows e N He). cbn. rewrite Me.
    split; [reflexivity|]. split; [|split; [|split]].
    + rewrite (filter_map_update (fun a => Analytics.id a =? Analytics.id e)).
      * rewrite (filter_key_unique Analytics.id rows e N He). cbn. now rewrite Me.
      * intros a Ha. destruct (Z.eqb_spec (Analytics.id a) (Analytics.id e)) as [E|E].
        -- cbn. apply Z.eqb_refl.
        -- apply Z.eqb_neq. intros Ec. apply E. now rewrite (Camp a Ha Ec).
    + intros c Hc'. apply filter_map_untouched. intros a Ha Ea.
      apply Z.eqb_eq in Ea. rewrite (Same a Ha Ea). cbn.
      split; apply Z.eqb_neq; fold cid; congruence.
    + split.
      * rewrite map_key_update; [exact N|reflexivity].
      * rewrite Forall_forall in *. intros x Hx. apply in_map_iff in Hx.
        destruct Hx as [a [<- Ha]].
        destruct (Analytics.id a =? Analytics.id e); cbn; auto.
    + unfold one_per_campaign in *. rewrite map_key_update; [exact U|].
      intros a Ha Ea. apply Z.eqb_eq in Ea. rewrite (Same a Ha Ea). cbn.
      fold cid. congruence.
Qed.

(** ** A well-formed [Map] read as a table *)

Section MapAsTable.

Context {V : Type}.
Variable id : V -> Z.

Lemma map_wf_ids (m : JsMap.t V) next :
  map_wf id m next -> map id (JsMap.values m) = map fst m.
Proof.
  intros [_ F]. unfold JsMap.values. rewrite map_map.
  apply map_ext_in. intros e He. rewrite Forall_forall in F. now apply F.
Qed.

Lemma map_wf_table (m : JsMap.t V) next :
  map_wf id m next -> table_wf id (JsMap.values m) next.
Proof.
  intros W. split.
  - rewrite (map_wf_ids m next W). apply W.
  - destruct W as [_ F]. unfold JsMap.values. rewrite Forall_forall in *.
    intros v Hv. apply in_map_iff in Hv. destruct Hv as [e [<- He]].
    destruct (F e He) as [-> L]. exact L.
Qed.

Lemma map_wf_tail (e : Z * V) (m : JsMap.t V) next :
  map_wf id (e :: m) next -> map_wf id m next.
Proof.
  intros [N F]. apply NoDup_cons_iff in N. apply Forall_cons_iff in F.
  split; [apply N|apply F].
Qed.

(** [m.get(k)] is the row with id [k]. *)
Lemma get_as_select (m : JsMap.t V) next k :
  map_wf id m next ->
  JsMap.get m k
  = DatabaseStorage.first (Drizzle.select (JsMap.values m) (fun v => id v =? k)).
Proof.
  induction m as [|[k' v'] m IH]; [reflexivity|].
  intros W. pose proof (map_wf_tail _ _ _ W) as W'.
  destruct W as [_ F]. apply Forall_cons_iff in F. destruct F as [[E _] _].
  cbn in E.
  cbn. rewrite E. destruct (k' =? k); [reflexivity|]. now apply IH.
Qed.

Lemma set_as_insert (m : JsMap.t V) next v :
  map_wf id m next -> id v = next ->
  JsMap.values (JsMap.set m next v) = JsMap.values m ++ [v]
  /\ map_wf id (JsMap.set m next v) (next + 1).
Proof.
  intros [N F] E.
  assert (Fresh : ~ In next (map fst m)).
  { intros H. apply in_map_iff in H. destruct H as [e [He Hin]].
    rewrite Forall_forall in F. specialize (F e Hin). lia. }
  rewrite (set_fresh m next v Fresh). split.
  - unfold JsMap.values. now rewrite map_app.
  - split.
    + rewrite map_app. cbn. apply NoDup_app; [exact N|repeat constructor; cbn; tauto|].
      intros k Hk [<-|[]]. contradiction.
    + apply Forall_app. split.
      * eapply Forall_impl; [|exact F]. cbn. intros e [? ?]. split; [assumption|lia].
      * repeat constructor; cbn; [exact E|lia].
Qed.

(** Overwriting the entry of a stored row is the table's update by id. *)
Lemma set_as_update (m : JsMap.t V) next k (f : V -> V) v0 :
  map_wf id m next -> JsMap.get m k = Some v0 -> id (f v0) = k ->
  JsMap.values (JsMap.set m k (f v0))
  = fst (Drizzle.update (JsMap.values m) f (fun v => id v =? k))
  /\ map_wf id (JsMap.set m k (f v0)) next.
Proof.
  unfold Drizzle.update, JsMap.values. cbn [fst].
  induction m as [|[k' v'] m IH]; [discriminate|].
  intros W G E. pose proof (map_wf_tail _ _ _ W) as W'.
  destruct W as [N F]. apply Forall_cons_iff in F. destruct F as [[Ek Lk] F'].
  cbn in Ek, Lk, N. pose proof N as N0.
  apply NoDup_cons_iff in N0. destruct N0 as [Nin N'].
  cbn in G |- *. rewrite Ek.
  destruct (Z.eqb_spec k' k) as [->|Nk].
  - injection G as ->. cbn. split.
    + f_equal. rewrite <- (map_id (map snd m)) at 1. apply map_ext_in.
      intros a Ha. destruct (Z.eqb_spec (id a) k) as [Ea|]; [|reflexivity].
      exfalso. apply Nin. rewrite <- Ea.
      pose proof (map_wf_ids m next W') as Hi. unfold JsMap.values in Hi.
      rewrite <- Hi. now apply in_map.
    + split; [exact N|]. constructor; [cbn; split; [exact E|exact Lk]|exact F'].
  - destruct (IH W' G E) as [Hv Hw]. cbn. split; [now rewrite Hv|].
    destruct Hw as [N2 F2]. split.
    + cbn. constructor; [|exact N2].
      rewrite set_keys_present; [exact Nin|].
      apply get_In in G. apply in_map_iff. now exists (k, v0).
    + constructor; [cbn; split; assumption|exact F2].
Qed.

End MapAsTable.

(** ** Where the in-memory backend agrees with the relational one

    Each lemma runs an operation on a well-formed in-memory state [st] and
    on the tables it stands for, [tables_of st]. *)

Lemma db_eta (db : DatabaseStorage.t) :
  DatabaseStorage.mk (DatabaseStorage.users db) (DatabaseStorage.users_id_seq db)
    (DatabaseStorage.contacts db) (DatabaseStorage.contacts_id_seq db)
    (DatabaseStorage.campaigns db) (DatabaseStorage.campaigns_id_seq db)
    (DatabaseStorage.analytics db) (DatabaseStorage.analytics_id_seq db) = db.
Proof. now destruct db. Qed.

Lemma first_select_None {R : Type} (rows : list R) (p : R -> bool) :
  DatabaseStorage.first (Drizzle.select rows p) = None ->
  Drizzle.select rows p = [].
Proof.
  unfold DatabaseStorage.first.
  destruct (Drizzle.select rows p); [reflexivity|discriminate].
Qed.

Lemma eq_text_strict (column : option string) (value : string) :
  SQL.eq_text column value = JS.strict_eq_opt column (Some value).
Proof. destruct column; reflexivity. Qed.

Lemma mem_wf_tables (st : MemStorage.t) : mem_wf st -> db_wf (tables_of st).
Proof.
  intros (Wu & Wc & Wg & Wa & U). unfold db_wf, tables_of. cbn.
  repeat split; try (apply map_wf_table; assumption); try exact U;
    try (apply (map_wf_table _ _ _ Wu)); try (apply (map_wf_table _ _ _ Wc));
    try (apply (map_wf_table _ _ _ Wg)); try (apply (map_wf_table _ _ _ Wa)).
Qed.

Lemma fresh_wf : db_wf DatabaseStorage.fresh /\ mem_wf MemStorage.fresh.
Proof.
  unfold db_wf, mem_wf, table_wf, map_wf, one_per_campaign. cbn.
  repeat split; constructor.
Qed.

(** Unfold the state setters and reduce the record projections only. *)
Ltac storage_simpl :=
  unfold tables_of, MemStorage.set_users, MemStorage.set_contacts,
    MemStorage.set_campaigns, MemStorage.set_analyticsData,
    DatabaseStorage.set_users, DatabaseStorage.set_contacts,
    DatabaseStorage.set_campaigns, DatabaseStorage.set_analytics;
  cbn [MemStorage.users MemStorage.contacts MemStorage.campaigns
       MemStorage.analyticsData MemStorage.userCurrentId
       MemStorage.contactCurrentId MemStorage.campaignCurrentId
       MemStorage.analyticsCurrentId
       DatabaseStorage.users DatabaseStorage.contacts DatabaseStorage.campaigns
       DatabaseStorage.analytics DatabaseStorage.users_id_seq
       DatabaseStorage.contacts_id_seq DatabaseStorage.campaigns_id_seq
       DatabaseStorage.analytics_id_seq fst snd].

Lemma sim_getUser st id :
  mem_wf st -> MemStorage.getUser st id = DatabaseStorage.getUser (tables_of st) id.
Proof. intros (Wu & _). exact (get_as_select User.id _ _ id Wu). Qed.

Lemma sim_getContactById st id :
  mem_wf st ->
  MemStorage.getContactById st id = DatabaseStorage.getContactById (tables_of st) id.
Proof. intros (_ & Wc & _). exact (get_as_select Contact.id _ _ id Wc). Qed.

Lemma sim_getCampaignById st id :
  mem_wf st ->
  MemStorage.getCampaignById st id
  = DatabaseStorage.getCampaignById (tables_of st) id.
Proof. intros (_ & _ & Wg & _). exact (get_as_select Campaign.id _ _ id Wg). Qed.

Lemma sim_getContactByMobile st mobile accountId :
  MemStorage.getContactByMobile st mobile accountId
  = DatabaseStorage.getContactByMobile (tables_of st) mobile accountId.
Proof. apply find_first_filter. Qed.

Lemma sim_verifyResetToken now st token :
  MemStorage.verifyResetToken now st token
  = DatabaseStorage.verifyResetToken now (tables_of st) token.
Proof.
  unfold MemStorage.verifyResetToken, DatabaseStorage.verifyResetToken.
  rewrite find_first_filter. unfold Drizzle.select. cbn.
  rewrite (filter_ext _ (fun u => SQL.eq_text (User.resetToken u) token))
    by (intros u; symmetry; apply eq_text_strict).
  destruct (filter _ _); reflexivity.
Qed.

Lemma sim_updatePassword st userId password :
  mem_wf st ->
  let '(r, st') := MemStorage.updatePassword st userId password in
  DatabaseStorage.updatePassword (tables_of st) userId password
  = (r, tables_of st')
  /\ mem_wf st'.
Proof.
  intros W. pose proof W as (Wu & Wc & Wg & Wa & U).
  unfold MemStorage.updatePassword, DatabaseStorage.updatePassword.
  pose proof (sim_getUser st userId W) as G.
  unfold DatabaseStorage.getUser in G.
  change (fun u : User.t =>
            User.mk (User.id u) (User.username u) (User.email u) password None
              None (User.createdAt u)) with (with_password password).
  destruct (MemStorage.getUser st userId) as [user|] eqn:Eu.
  - fold (with_password password user).
    destruct (set_as_update User.id _ _ userId (with_password password) user Wu Eu)
      as [Hv Hw].
    { cbn. pose proof (get_In _ _ _ Eu) as Hin. destruct Wu as [_ F].
      rewrite Forall_forall in F. now destruct (F _ Hin). }
    unfold Drizzle.update in *. cbn [fst] in Hv. split.
    + unfold Drizzle.select in G. storage_simpl. rewrite Hv.
      destruct (filter _ _); [discriminate|]. reflexivity.
    + exact (conj Hw (conj Wc (conj Wg (conj Wa U)))).
  - symmetry in G. apply first_select_None in G.
    pose proof (update_rows_no_match (with_password password) _ _ G) as Un.
    unfold Drizzle.update in *. cbn [fst] in Un. unfold Drizzle.select in G.
    unfold tables_of in Un, G. cbn [DatabaseStorage.users] in Un, G.
    split; [|exact W]. storage_simpl. rewrite Un, G. reflexivity.
Qed.

Lemma sim_createContact now st insertContact :
  mem_wf st ->
  let '(c, st') := MemStorage.createContact now st insertContact in
  DatabaseStorage.createContact now (tables_of st) insertContact
  = (Some c, tables_of st')
  /\ mem_wf st'.
Proof.
  intros (Wu & Wc & Wg & Wa & U).
  unfold MemStorage.createContact, DatabaseStorage.createContact, Drizzle.insert.
  match goal with |- context [JsMap.set ?m ?k ?v] =>
    destruct (set_as_insert Contact.id m k v Wc eq_refl) as [Hv Hw] end.
  split.
  - storage_simpl. rewrite Hv. reflexivity.
  - exact (conj Wu (conj Hw (conj Wg (conj Wa U)))).
Qed.

Lemma sim_importContacts_loop now dedup contactsList :
  forall st imported duplicates,
    mem_wf st ->
    let '(r, st') :=
      MemStorage.importContacts_loop now dedup contactsList st imported duplicates in
    DatabaseStorage.importContacts_loop now dedup contactsList (tables_of st)
      imported duplicates
    = (r, tables_of st')
    /\ mem_wf st'.
Proof.
  induction contactsList as [|contact rest IH]; intros st i d W.
  - cbn. split; [reflexivity|exact W].
  - cbn [MemStorage.importContacts_loop DatabaseStorage.importContacts_loop].
    rewrite <- sim_getContactByMobile.
    destruct (if dedup then MemStorage.getContactByMobile st _ _ else None).
    + apply IH, W.
    + pose proof (sim_createContact now st contact W) as S.
      destruct (MemStorage.createContact now st contact) as [c st1].
      destruct S as [-> W1]. apply IH, W1.
Qed.

Lemma sim_createOrUpdateAnalytics now st ia :
  mem_wf st ->
  let '(a, st') := MemStorage.createOrUpdateAnalytics now st ia in
  DatabaseStorage.createOrUpdateAnalytics now (tables_of st) ia
  = (Some a, tables_of st')
  /\ mem_wf st'.
Proof.
  intros W. pose proof W as (Wu & Wc & Wg & Wa & U).
  pose proof (mem_wf_tables st W) as (_ & _ & _ & Ta & Ua).
  pose proof (db_createOrUpdateAnalytics_spec now (tables_of st) ia Ta Ua) as Sp.
  unfold MemStorage.createOrUpdateAnalytics,
    DatabaseStorage.createOrUpdateAnalytics in *.
  rewrite find_first_filter.
  change (DatabaseStorage.analytics (tables_of st))
    with (JsMap.values (MemStorage.analyticsData st)) in *.
  change (DatabaseStorage.analytics_id_seq (tables_of st))
    with (MemStorage.analyticsCurrentId st) in *.
  unfold Drizzle.select in *.
  destruct (filter _ (JsMap.values (MemStorage.analyticsData st)))
    as [|e tl] eqn:F; cbn [hd_error].
  - unfold Drizzle.insert in *.
    match goal with |- context [JsMap.set ?m ?k ?v] =>
      destruct (set_as_insert Analytics.id m k v Wa eq_refl) as [Hv Hw] end.
    destruct Sp as (_ & _ & _ & _ & U'). cbn [DatabaseStorage.analytics
      DatabaseStorage.set_analytics] in U'.
    split.
    + storage_simpl. rewrite Hv. reflexivity.
    + refine (conj Wu (conj Wc (conj Wg (conj Hw _)))).
      storage_simpl. rewrite Hv. exact U'.
  - destruct (filter_head_In _ _ _ _ F) as [He Hc].
    assert (G : JsMap.get (MemStorage.analyticsData st) (Analytics.id e) = Some e).
    { rewrite (get_as_select Analytics.id _ _ (Analytics.id e) Wa).
      unfold Drizzle.select.
      rewrite (filter_key_unique Analytics.id _ e (proj1 Ta) He). reflexivity. }
    set (M := fun a : Analytics.t =>
                Analytics.mk (Analytics.id a) (InsertAnalytics.accountId ia)
                  (InsertAnalytics.campaignId ia)
                  (JS.nullish (InsertAnalytics.sent ia) (Analytics.sent e))
                  (JS.nullish (InsertAnalytics.delivered ia) (Analytics.delivered e))
                  (JS.nullish (InsertAnalytics.read ia) (Analytics.read e))
                  (JS.nullish (InsertAnalytics.optout ia) (Analytics.optout e))
                  (JS.nullish (InsertAnalytics.hold ia) (Analytics.hold e))
                  (JS.nullish (InsertAnalytics.failed ia) (Analytics.failed e))
                  now) in *.
    change (Analytics.mk (Analytics.id e) _ _ _ _ _ _ _ _ _) with (M e).
    destruct (set_as_update Analytics.id _ _ (Analytics.id e) M e Wa G eq_refl)
      as [Hv Hw].
    unfold Drizzle.update in *. cbn [fst] in Hv.
    destruct Sp as (_ & _ & _ & _ & U'). cbn [DatabaseStorage.analytics
      DatabaseStorage.set_analytics snd] in U'.
    split.
    + storage_simpl. rewrite Hv.
      rewrite (filter_key_unique Analytics.id _ e (proj1 Ta) He). reflexivity.
    + refine (conj Wu (conj Wc (conj Wg (conj Hw _)))).
      storage_simpl. rewrite Hv. exact U'.
Qed.

Lemma mem_wf_campaigns st m :
  mem_wf st -> map_wf Campaign.id m (MemStorage.campaignCurrentId st) ->
  mem_wf (MemStorage.set_campaigns st m (MemStorage.campaignCurrentId st)).
Proof.
  intros (Wu & Wc & Wg & Wa & U) Wm. exact (conj Wu (conj Wc (conj Wm (conj Wa U)))).
Qed.

Lemma sim_launchCampaign now st id :
  mem_wf st ->
  let '(r, st') := MemStorage.launchCampaign now st id in
  DatabaseStorage.launchCampaign now (tables_of st) id = (r, tables_of st')
  /\ mem_wf st'.
Proof.
  intros W. pose proof W as (Wu & Wc & Wg & Wa & U).
  unfold MemStorage.launchCampaign, DatabaseStorage.launchCampaign.
  pose proof (get_as_select Campaign.id _ _ id Wg) as G.
  change (fun c : Campaign.t =>
            Campaign.mk (Campaign.id c) (Campaign.accountId c) (Campaign.name c)
              (Campaign.template c) (Campaign.contactLabel c) "active"
              (Campaign.scheduledFor c) (Campaign.createdAt c)) with activate.
  change (DatabaseStorage.campaigns (tables_of st))
    with (JsMap.values (MemStorage.campaigns st)).
  destruct (JsMap.get (MemStorage.campaigns st) id) as [campaign|] eqn:Ec.
  - fold (activate campaign).
    destruct (set_as_update Campaign.id _ _ id activate campaign Wg Ec) as [Hv Hw].
    { cbn. pose proof (get_In _ _ _ Ec) as Hin. destruct Wg as [_ F].
      rewrite Forall_forall in F. now destruct (F _ Hin). }
    unfold Drizzle.update, Drizzle.select in *. cbn [fst] in Hv.
    destruct (filter _ (JsMap.values (MemStorage.campaigns st))) as [|c0 sel];
      [discriminate|].
    injection G as <-. cbn [map].
    pose proof (sim_createOrUpdateAnalytics now
                  (MemStorage.set_campaigns st
                     (JsMap.set (MemStorage.campaigns st) id (activate campaign))
                     (MemStorage.campaignCurrentId st))
                  (InsertAnalytics.mk (Campaign.accountId campaign) id
                     (Some 0) (Some 0) (Some 0) (Some 0) (Some 0) (Some 0))
                  (mem_wf_campaigns st _ W Hw)) as S.
    destruct (MemStorage.createOrUpdateAnalytics _ _ _) as [a st2].
    destruct S as [S W2]. split; [|exact W2].
    revert S. storage_simpl. rewrite Hv. cbn [activate Campaign.accountId].
    intros ->. reflexivity.
  - symmetry in G. apply first_select_None in G.
    pose proof (update_rows_no_match activate _ _ G) as Un.
    unfold Drizzle.update, Drizzle.select in *. cbn [fst] in Un.
    split; [|exact W]. storage_simpl. rewrite Un, G. reflexivity.
Qed.

(** ** Sample states are well formed *)

Lemma sample_db_wf : db_wf sample_db.
Proof.
  unfold db_wf, table_wf, one_per_campaign. cbn.
  repeat split; repeat constructor; cbn; try tauto; lia.
Qed.

Lemma sample_mem_wf : mem_wf sample_mem.
Proof.
  unfold mem_wf, map_wf, one_per_campaign. cbn.
  repeat split; repeat constructor; cbn; try tauto; lia.
Qed.

(** ** The analytics upsert *)

Lemma or_zero_nullish (o : option Z) : JS.or_zero o = JS.nullish o 0.
Proof.
  destruct o as [n|]; [|reflexivity]. cbn. now destruct (Z.eqb_spec n 0).
Qed.

Lemma upserted_zero now next rows accountId campaignId :
  Analytics.counters
    (upserted now next rows
       (InsertAnalytics.mk accountId campaignId
          (Some 0) (Some 0) (Some 0) (Some 0) (Some 0) (Some 0)))
  = zero_counters.
Proof. unfold upserted. destruct (analytics_of _ _); reflexivity. Qed.

Lemma db_wf_analytics db rows next :
  db_wf db -> table_wf Analytics.id rows next -> one_per_campaign rows ->
  db_wf (DatabaseStorage.set_analytics db rows next).
Proof.
  intros (Wu & Wc & Wg & _ & _) Wa U. exact (conj Wu (conj Wc (conj Wg (conj Wa U)))).
Qed.

Lemma db_createOrUpdateAnalytics_wf now db ia :
  db_wf db -> db_wf (snd (DatabaseStorage.createOrUpdateAnalytics now db ia)).
Proof.
  intros W. pose proof W as (Wu & Wc & Wg & Wa & U).
  pose proof (db_createOrUpdateAnalytics_spec now db ia Wa U) as Sp.
  pose proof (db_createOrUpdateAnalytics_other_tables now db ia) as Ot.
  destruct (DatabaseStorage.createOrUpdateAnalytics now db ia) as [r db'].
  cbn [snd] in *. destruct Sp as (_ & _ & _ & Wa' & U').
  destruct Ot as (E1 & E2 & E3 & E4 & E5 & E6).
  unfold db_wf. rewrite E1, E2, E3, E4, E5, E6.
  exact (conj Wu (conj Wc (conj Wg (conj Wa' U')))).
Qed.

(** ** createCampaign *)

(** C7: [createCampaign] stores and returns a campaign whose status is
    "draft" whatever status the input record carries, and whose
    contactLabel is absent when the input's is absent or the empty string;
    in both backends. *)
Theorem createCampaign_forces_draft :
  forall (now : Z) (insertCampaign : InsertCampaign.t),
    (forall db : DatabaseStorage.t,
        exists c,
          DatabaseStorage.createCampaign now db insertCampaign
          = (Some c,
             DatabaseStorage.set_campaigns db (DatabaseStorage.campaigns db ++ [c])
               (DatabaseStorage.campaigns_id_seq db + 1))
          /\ Campaign.status c = "draft"
          /\ Campaign.contactLabel c <> Some ""
          /\ (JS.truthy (InsertCampaign.contactLabel insertCampaign) = false ->
              Campaign.contactLabel c = None)
          /\ (JS.truthy (InsertCampaign.contactLabel insertCampaign) = true ->
              Campaign.contactLabel c = InsertCampaign.contactLabel insertCampaign))
    /\
    (forall st : MemStorage.t,
        let '(c, st') := MemStorage.createCampaign now st insertCampaign in
        MemStorage.getCampaignById st' (Campaign.id c) = Some c
        /\ Campaign.status c = "draft"
        /\ Campaign.contactLabel c <> Some ""
        /\ (JS.truthy (InsertCampaign.contactLabel insertCampaign) = false ->
            Campaign.contactLabel c = None)
        /\ (JS.truthy (InsertCampaign.contactLabel insertCampaign) = true ->
            Campaign.contactLabel c = InsertCampaign.contactLabel insertCampaign)).
Proof.
  intros now ic.
  assert (L : JS.or_null (InsertCampaign.contactLabel ic) <> Some "").
  { unfold JS.or_null, JS.truthy.
    destruct (InsertCampaign.contactLabel ic) as [s|]; [|discriminate].
    destruct (String.eqb_spec s ""); cbn; congruence. }
  split.
  - intros db. eexists. split; [reflexivity|]. cbn.
    repeat split; try exact L; unfold JS.or_null; intros ->; reflexivity.
  - intros st. cbn. unfold MemStorage.getCampaignById. cbn.
    rewrite get_set_same.
    repeat split; try exact L; unfold JS.or_null; intros ->; reflexivity.
Qed.

(** ** Launching a campaign *)

Lemma db_launchCampaign_absent now db id :
  DatabaseStorage.getCampaignById db id = None ->
  DatabaseStorage.launchCampaign now db id = (false, db).
Proof.
  intros E. apply first_select_None in E.
  unfold DatabaseStorage.launchCampaign.
  change (fun c : Campaign.t =>
            Campaign.mk (Campaign.id c) (Campaign.accountId c) (Campaign.name c)
              (Campaign.template c) (Campaign.contactLabel c) "active"
              (Campaign.scheduledFor c) (Campaign.createdAt c)) with activate.
  pose proof (update_rows_no_match activate _ _ E) as U.
  unfold Drizzle.update, Drizzle.select in *. cbn [fst] in U.
  rewrite U, E. cbn [map]. unfold DatabaseStorage.set_campaigns.
  now rewrite db_eta.
Qed.

Lemma db_launchCampaign_spec now db id c :
  db_wf db ->
  DatabaseStorage.getCampaignById db id = Some c ->
  let '(r, db') := DatabaseStorage.launchCampaign now db id in
  r = true
  /\ DatabaseStorage.getCampaignById db' id = Some (activate c)
  /\ (exists a, analytics_of id (DatabaseStorage.analytics db') = [a]
                /\ Analytics.counters a = zero_counters)
  /\ db_wf db'.
Proof.
  intros W E. pose proof W as (Wu & Wc & Wg & Wa & U).
  unfold DatabaseStorage.getCampaignById in *.
  unfold DatabaseStorage.launchCampaign.
  change (fun c : Campaign.t =>
            Campaign.mk (Campaign.id c) (Campaign.accountId c) (Campaign.name c)
              (Campaign.template c) (Campaign.contactLabel c) "active"
              (Campaign.scheduledFor c) (Campaign.createdAt c)) with activate.
  pose proof (select_update activate (fun c => Campaign.id c =? id)
                (DatabaseStorage.campaigns db) (fun r H => H)) as S.
  pose proof (table_wf_update Campaign.id _ _ (fun c => Campaign.id c =? id)
                activate Wg (fun a => eq_refl)) as Wg'.
  unfold Drizzle.update, Drizzle.select in *. cbn [fst] in S, Wg'.
  destruct (filter (fun c => Campaign.id c =? id) (DatabaseStorage.campaigns db))
    as [|c0 sel] eqn:Sel; [discriminate|].
  injection E as ->. cbn [map].
  set (db1 := DatabaseStorage.set_campaigns db _ _).
  set (ia := InsertAnalytics.mk _ _ _ _ _ _ _ _).
  assert (W1 : db_wf db1) by exact (conj Wu (conj Wc (conj Wg' (conj Wa U)))).
  pose proof (db_createOrUpdateAnalytics_spec now db1 ia Wa U) as Sp.
  pose proof (db_createOrUpdateAnalytics_other_tables now db1 ia) as Ot.
  pose proof (db_createOrUpdateAnalytics_wf now db1 ia W1) as W2.
  destruct (DatabaseStorage.createOrUpdateAnalytics now db1 ia) as [r db2].
  cbn [snd] in *. destruct Sp as (_ & One & _).
  destruct Ot as (_ & _ & _ & _ & Ec & _).
  split; [reflexivity|]. split; [|split; [|exact W2]].
  - rewrite Ec. subst db1. unfold DatabaseStorage.set_campaigns.
    cbn [DatabaseStorage.campaigns]. rewrite S. reflexivity.
  - eexists. split; [exact One|]. apply upserted_zero.
Qed.

Lemma mem_launchCampaign_spec now st id c :
  mem_wf st ->
  MemStorage.getCampaignById st id = Some c ->
  let '(r, st') := MemStorage.launchCampaign now st id in
  r = true
  /\ MemStorage.getCampaignById st' id = Some (activate c)
  /\ (exists a, analytics_of id (JsMap.values (MemStorage.analyticsData st')) = [a]
                /\ Analytics.counters a = zero_counters)
  /\ mem_wf st'.
Proof.
  intros W E. rewrite (sim_getCampaignById st id W) in E.
  pose proof (db_launchCampaign_spec now (tables_of st) id c (mem_wf_tables st W) E)
    as Sp.
  pose proof (sim_launchCampaign now st id W) as Sim.
  destruct (MemStorage.launchCampaign now st id) as [r st'].
  destruct Sim as [Sim W']. rewrite Sim in Sp.
  destruct Sp as (-> & G & A & _).
  rewrite (sim_getCampaignById st' id W').
  split; [reflexivity|]. split; [exact G|]. split; [exact A|exact W'].
Qed.

Lemma mem_launchCampaign_absent now st id :
  MemStorage.getCampaignById st id = None ->
  MemStorage.launchCampaign now st id = (false, st).
Proof.
  unfold MemStorage.getCampaignById, MemStorage.launchCampaign. now intros ->.
Qed.

(** C3 (amended): in both backends, on a well-formed store,
    [launchCampaign(id)] of a stored campaign returns true, sets its status
    to "active", and leaves exactly one analytics row for that campaign,
    whose six counters are all 0 whether or not a row existed before; when
    no campaign has that id it returns false and leaves the store as it
    was. *)
Theorem launchCampaign_zeroes_analytics :
  forall (now id : Z) (db : DatabaseStorage.t) (st : MemStorage.t),
    db_wf db -> mem_wf st ->
    match DatabaseStorage.getCampaignById db id with
    | Some _ =>
        let '(r, db') := DatabaseStorage.launchCampaign now db id in
        r = true
        /\ (exists c', DatabaseStorage.getCampaignById db' id = Some c'
                       /\ Campaign.status c' = "active")
        /\ (exists a, analytics_of id (DatabaseStorage.analytics db') = [a]
                      /\ Analytics.counters a = zero_counters)
    | None => DatabaseStorage.launchCampaign now db id = (false, db)
    end
    /\
    match MemStorage.getCampaignById st id with
    | Some _ =>
        let '(r, st') := MemStorage.launchCampaign now st id in
        r = true
        /\ (exists c', MemStorage.getCampaignById st' id = Some c'
                       /\ Campaign.status c' = "active")
        /\ (exists a,
               analytics_of id (JsMap.values (MemStorage.analyticsData st')) = [a]
               /\ Analytics.counters a = zero_counters)
    | None => MemStorage.launchCampaign now st id = (false, st)
    end.
Proof.
  intros now id db st Wd Wm. split.
  - destruct (DatabaseStorage.getCampaignById db id) as [c|] eqn:E.
    + pose proof (db_launchCampaign_spec now db id c Wd E) as Sp.
      destruct (DatabaseStorage.launchCampaign now db id) as [r db'].
      destruct Sp as (R & G & A & _).
      split; [exact R|]. split; [|exact A]. now exists (activate c).
    + now apply db_launchCampaign_absent.
  - destruct (MemStorage.getCampaignById st id) as [c|] eqn:E.
    + pose proof (mem_launchCampaign_spec now st id c Wm E) as Sp.
      destruct (MemStorage.launchCampaign now st id) as [r st'].
      destruct Sp as (R & G & A & _).
      split; [exact R|]. split; [|exact A]. now exists (activate c).
    + now apply mem_launchCampaign_absent.
Qed.

Lemma launchCampaign_zeroes_analytics_witness :
  db_wf sample_db /\ mem_wf sample_mem
  /\ (let '(r, db') := DatabaseStorage.launchCampaign 2000 sample_db 1 in
      r = true
      /\ (exists c', DatabaseStorage.getCampaignById db' 1 = Some c'
                     /\ Campaign.status c' = "active")
      /\ (exists a, analytics_of 1 (DatabaseStorage.analytics db') = [a]
                    /\ Analytics.counters a = zero_counters))
  /\ MemStorage.launchCampaign 2000 sample_mem 7 = (false, sample_mem).
Proof.
  split; [exact sample_db_wf|]. split; [exact sample_mem_wf|].
  split.
  - exact (proj1 (launchCampaign_zeroes_analytics 2000 1 sample_db sample_mem
                    sample_db_wf sample_mem_wf)).
  - exact (proj2 (launchCampaign_zeroes_analytics 2000 7 sample_db sample_mem
                    sample_db_wf sample_mem_wf)).
Defined.

(** C3, as stated, fails: a campaign whose analytics row has [sent = 5] is
    launched again, and the row's counters are all 0 afterwards, not
    unchanged; in both backends. *)
Lemma launchCampaign_unchanged_counters_counterexample :
  map Analytics.counters
    (analytics_of 1 (DatabaseStorage.analytics sample_db)) = [[5; 0; 0; 0; 0; 0]]
  /\ map Analytics.counters
       (analytics_of 1
          (DatabaseStorage.analytics
             (snd (DatabaseStorage.launchCampaign 2000 sample_db 1))))
     = [[0; 0; 0; 0; 0; 0]]
  /\ map Analytics.counters
       (analytics_of 1 (JsMap.values (MemStorage.analyticsData sample_mem)))
     = [[5; 0; 0; 0; 0; 0]]
  /\ map Analytics.counters
       (analytics_of 1
          (JsMap.values
             (MemStorage.analyticsData
                (snd (MemStorage.launchCampaign 2000 sample_mem 1)))))
     = [[0; 0; 0; 0; 0; 0]].
Proof. repeat split; vm_compute; reflexivity. Qed.


Lemma db_launchCampaign_present now db id c :
  DatabaseStorage.getCampaignById db id = Some c ->
  let '(r, db') := DatabaseStorage.launchCampaign now db id in
  r = true /\ DatabaseStorage.getCampaignById db' id = Some (activate c).
Proof.
  intros E. unfold DatabaseStorage.getCampaignById in *.
  unfold DatabaseStorage.launchCampaign.
  change (fun c : Campaign.t =>
            Campaign.mk (Campaign.id c) (Campaign.accountId c) (Campaign.name c)
              (Campaign.template c) (Campaign.contactLabel c) "active"
              (Campaign.scheduledFor c) (Campaign.createdAt c)) with activate.
  pose proof (select_update activate (fun c => Campaign.id c =? id)
                (DatabaseStorage.campaigns db) (fun r H => H)) as S.
  unfold Drizzle.update, Drizzle.select in *. cbn [fst] in S.
  destruct (filter (fun c => Campaign.id c =? id) (DatabaseStorage.campaigns db))
    as [|c0 sel] eqn:Sel; [discriminate|].
  injection E as ->. cbn [map].
  set (db1 := DatabaseStorage.set_campaigns db _ _).
  set (ia := InsertAnalytics.mk _ _ _ _ _ _ _ _).
  pose proof (db_createOrUpdateAnalytics_other_tables now db1 ia) as Ot.
  destruct (DatabaseStorage.createOrUpdateAnalytics now db1 ia) as [r db2].
  cbn [snd] in Ot. destruct Ot as (_ & _ & _ & _ & Ec & _).
  split; [reflexivity|]. rewrite Ec. subst db1.
  unfold DatabaseStorage.set_campaigns. cbn [DatabaseStorage.campaigns].
  rewrite S. reflexivity.
Qed.

Lemma mem_createOrUpdateAnalytics_campaigns now st ia :
  MemStorage.campaigns (snd (MemStorage.createOrUpdateAnalytics now st ia))
  = MemStorage.campaigns st.
Proof.
  unfold MemStorage.createOrUpdateAnalytics. destruct (find _ _); reflexivity.
Qed.

Lemma mem_launchCampaign_present now st id c :
  MemStorage.getCampaignById st id = Some c ->
  let '(r, st') := MemStorage.launchCampaign now st id in
  r = true /\ MemStorage.getCampaignById st' id = Some (activate c).
Proof.
  unfold MemStorage.getCampaignById, MemStorage.launchCampaign. intros ->.
  fold (activate c).
  match goal with |- context [MemStorage.createOrUpdateAnalytics ?n ?s ?i] =>
    pose proof (mem_createOrUpdateAnalytics_campaigns n s i) as K;
    destruct (MemStorage.createOrUpdateAnalytics n s i) as [a st2] end.
  cbn [snd] in K. split; [reflexivity|]. rewrite K.
  unfold MemStorage.set_campaigns. cbn [MemStorage.campaigns].
  apply get_set_same.
Qed.

(** C10: [launchCampaign] on a stored campaign returns true and leaves it
    stored with status "active", whatever its status was; in both
    backends, with no assumption on the stores. *)
Theorem launchCampaign_ignores_status :
  forall (now id : Z) (db : DatabaseStorage.t) (st : MemStorage.t)
         (c1 c2 : Campaign.t),
    DatabaseStorage.getCampaignById db id = Some c1 ->
    MemStorage.getCampaignById st id = Some c2 ->
    (let '(r, db') := DatabaseStorage.launchCampaign now db id in
     r = true
     /\ exists c', DatabaseStorage.getCampaignById db' id = Some c'
                   /\ Campaign.status c' = "active")
    /\
    (let '(r, st') := MemStorage.launchCampaign now st id in
     r = true
     /\ exists c', MemStorage.getCampaignById st' id = Some c'
                   /\ Campaign.status c' = "active").
Proof.
  intros now id db st c1 c2 E1 E2. split.
  - pose proof (db_launchCampaign_present now db id c1 E1) as P.
    destruct (DatabaseStorage.launchCampaign now db id) as [r db'].
    destruct P as [-> G]. split; [reflexivity|]. now exists (activate c1).
  - pose proof (mem_launchCampaign_present now st id c2 E2) as P.
    destruct (MemStorage.launchCampaign now st id) as [r st'].
    destruct P as [-> G]. split; [reflexivity|]. now exists (activate c2).
Qed.

Lemma launchCampaign_ignores_status_witness :
  (let '(r, db') :=
     DatabaseStorage.launchCampaign 3000
       (snd (DatabaseStorage.launchCampaign 2000 sample_db 1)) 1 in
   r = true
   /\ exists c', DatabaseStorage.getCampaignById db' 1 = Some c'
                 /\ Campaign.status c' = "active")
  /\
  (let '(r, st') := MemStorage.launchCampaign 2000 sample_mem 1 in
   r = true
   /\ exists c', MemStorage.getCampaignById st' 1 = Some c'
                 /\ Campaign.status c' = "active").
Proof.
  exact (launchCampaign_ignores_status 3000 1
           (snd (DatabaseStorage.launchCampaign 2000 sample_db 1)) sample_mem
           _ _ eq_refl eq_refl).
Defined.

(** ** The analytics upsert, both backends *)

Lemma mem_createOrUpdateAnalytics_spec now st ia :
  mem_wf st ->
  let '(r, st') := MemStorage.createOrUpdateAnalytics now st ia in
  let a := upserted now (MemStorage.analyticsCurrentId st)
             (JsMap.values (MemStorage.analyticsData st)) ia in
  r = a
  /\ analytics_of (InsertAnalytics.campaignId ia)
       (JsMap.values (MemStorage.analyticsData st')) = [a]
  /\ mem_wf st'.
Proof.
  intros W. pose proof (mem_wf_tables st W) as (_ & _ & _ & Ta & Ua).
  pose proof (db_createOrUpdateAnalytics_spec now (tables_of st) ia Ta Ua) as Sp.
  pose proof (sim_createOrUpdateAnalytics now st ia W) as Sim.
  destruct (MemStorage.createOrUpdateAnalytics now st ia) as [r st'].
  destruct Sim as [Sim W']. rewrite Sim in Sp.
  destruct Sp as (R & One & _). injection R as R.
  split; [exact R|]. split; [exact One|exact W'].
Qed.

Lemma upserted_after_upsert now next rows ia e :
  analytics_of (InsertAnalytics.campaignId ia) rows = [e] ->
  upserted now next rows ia = merged now e ia.
Proof. unfold upserted. now intros ->. Qed.

Lemma upserted_sent now1 now2 next rows account1 account2 campaignId :
  Analytics.sent
    (merged now2
       (upserted now1 next rows
          (InsertAnalytics.mk account1 campaignId (Some 5) None None None None None))
       (InsertAnalytics.mk account2 campaignId None (Some 3) None None None None))
  = 5.
Proof. unfold upserted. destruct (analytics_of _ _); reflexivity. Qed.

Lemma upserted_counters now next rows ia :
  Analytics.counters (upserted now next rows ia)
  = coalesce (supplied_counters ia)
      (counters_before (InsertAnalytics.campaignId ia) rows).
Proof.
  unfold upserted, counters_before. destruct (analytics_of _ _); [|reflexivity].
  unfold inserted, Analytics.counters, zero_counters, coalesce, supplied_counters.
  cbn [Analytics.sent Analytics.delivered Analytics.read Analytics.optout
       Analytics.hold Analytics.failed combine map].
  now rewrite !or_zero_nullish.
Qed.

(** C4: on a well-formed store of either backend, [createOrUpdateAnalytics]
    with [{sent: 5}] and then with [{delivered: 3}] for the same campaign
    leaves exactly one row for it, with sent = 5 and delivered = 3; an
    upsert over an existing row keeps every counter that is not supplied,
    and an upsert that inserts sets every counter that is not supplied
    to 0. *)
Theorem createOrUpdateAnalytics_merges :
  forall (now1 now2 account1 account2 campaignId : Z)
         (db : DatabaseStorage.t) (st : MemStorage.t),
    db_wf db -> mem_wf st ->
    let first_call :=
      InsertAnalytics.mk account1 campaignId (Some 5) None None None None None in
    let second_call :=
      InsertAnalytics.mk account2 campaignId None (Some 3) None None None None in
    (let db1 := snd (DatabaseStorage.createOrUpdateAnalytics now1 db first_call) in
     let db2 := snd (DatabaseStorage.createOrUpdateAnalytics now2 db1 second_call) in
     exists a, analytics_of campaignId (DatabaseStorage.analytics db2) = [a]
               /\ Analytics.sent a = 5 /\ Analytics.delivered a = 3)
    /\
    (let st1 := snd (MemStorage.createOrUpdateAnalytics now1 st first_call) in
     let st2 := snd (MemStorage.createOrUpdateAnalytics now2 st1 second_call) in
     exists a, analytics_of campaignId (JsMap.values (MemStorage.analyticsData st2))
               = [a]
               /\ Analytics.sent a = 5 /\ Analytics.delivered a = 3)
    /\
    (forall now ia,
        exists a b,
          analytics_of (InsertAnalytics.campaignId ia)
            (DatabaseStorage.analytics
               (snd (DatabaseStorage.createOrUpdateAnalytics now db ia))) = [a]
          /\ analytics_of (InsertAnalytics.campaignId ia)
               (JsMap.values
                  (MemStorage.analyticsData
                     (snd (MemStorage.createOrUpdateAnalytics now st ia)))) = [b]
          /\ Analytics.counters a
             = coalesce (supplied_counters ia)
                 (counters_before (InsertAnalytics.campaignId ia)
                    (DatabaseStorage.analytics db))
          /\ Analytics.counters b
             = coalesce (supplied_counters ia)
                 (counters_before (InsertAnalytics.campaignId ia)
                    (JsMap.values (MemStorage.analyticsData st)))).
Proof.
  intros now1 now2 acc1 acc2 cid db st Wd Wm first_call second_call.
  split; [|split].
  - pose proof Wd as (_ & _ & _ & Wa & U).
    pose proof (db_createOrUpdateAnalytics_spec now1 db first_call Wa U) as S1.
    pose proof (db_createOrUpdateAnalytics_wf now1 db first_call Wd) as W1.
    destruct (DatabaseStorage.createOrUpdateAnalytics now1 db first_call)
      as [r1 db1]. cbn [snd] in *.
    destruct S1 as (_ & One1 & _).
    pose proof W1 as (_ & _ & _ & Wa1 & U1).
    pose proof (db_createOrUpdateAnalytics_spec now2 db1 second_call Wa1 U1) as S2.
    destruct (DatabaseStorage.createOrUpdateAnalytics now2 db1 second_call)
      as [r2 db2]. cbn [snd] in *.
    destruct S2 as (_ & One2 & _).
    rewrite (upserted_after_upsert _ _ _ second_call _ One1) in One2.
    eexists. split; [exact One2|]. split; [|reflexivity].
    apply upserted_sent.
  - pose proof (mem_createOrUpdateAnalytics_spec now1 st first_call Wm) as S1.
    destruct (MemStorage.createOrUpdateAnalytics now1 st first_call)
      as [r1 st1]. cbn [snd] in *.
    destruct S1 as (_ & One1 & W1).
    pose proof (mem_createOrUpdateAnalytics_spec now2 st1 second_call W1) as S2.
    destruct (MemStorage.createOrUpdateAnalytics now2 st1 second_call)
      as [r2 st2]. cbn [snd] in *.
    destruct S2 as (_ & One2 & _).
    rewrite (upserted_after_upsert _ _ _ second_call _ One1) in One2.
    eexists. split; [exact One2|]. split; [|reflexivity].
    apply upserted_sent.
  - intros now ia.
    pose proof Wd as (_ & _ & _ & Wa & U).
    pose proof (db_createOrUpdateAnalytics_spec now db ia Wa U) as Sd.
    pose proof (mem_createOrUpdateAnalytics_spec now st ia Wm) as Sm.
    destruct (DatabaseStorage.createOrUpdateAnalytics now db ia) as [rd db'].
    destruct (MemStorage.createOrUpdateAnalytics now st ia) as [rm st'].
    cbn [snd] in *. destruct Sd as (_ & Od & _). destruct Sm as (_ & Om & _).
    eexists. eexists. split; [exact Od|]. split; [exact Om|].
    split; apply upserted_counters.
Qed.

Lemma createOrUpdateAnalytics_merges_witness :
  db_wf sample_db /\ mem_wf MemStorage.fresh
  /\ (exists a,
         analytics_of 1
           (DatabaseStorage.analytics
              (snd (DatabaseStorage.createOrUpdateAnalytics 3000
                      (snd (DatabaseStorage.createOrUpdateAnalytics 2000 sample_db
                              (InsertAnalytics.mk 1 1 (Some 5) None None None None
                                 None)))
                      (InsertAnalytics.mk 1 1 None (Some 3) None None None None))))
         = [a]
         /\ Analytics.sent a = 5 /\ Analytics.delivered a = 3).
Proof.
  split; [exact sample_db_wf|]. split; [exact (proj2 fresh_wf)|].
  exact (proj1 (createOrUpdateAnalytics_merges 2000 3000 1 1 1 sample_db
                  MemStorage.fresh sample_db_wf (proj2 fresh_wf))).
Defined.

(** ** Passwords and reset tokens *)

Lemma filter_all_false {R : Type} (p : R -> bool) (l : list R) :
  (forall a, In a l -> p a = false) -> filter p l = [].
Proof.
  induction l as [|a l IH]; cbn; [reflexivity|]. intros K.
  rewrite (K a (or_introl eq_refl)). apply IH. auto.
Qed.

Lemma db_updatePassword_rows db userId password :
  DatabaseStorage.users (snd (DatabaseStorage.updatePassword db userId password))
  = map (fun u => if User.id u =? userId then with_password password u else u)
      (DatabaseStorage.users db).
Proof. reflexivity. Qed.

Lemma db_updatePassword_absent db userId password :
  DatabaseStorage.getUser db userId = None ->
  DatabaseStorage.updatePassword db userId password = (false, db).
Proof.
  intros E. apply first_select_None in E.
  unfold DatabaseStorage.updatePassword.
  change (fun u : User.t =>
            User.mk (User.id u) (User.username u) (User.email u) password None
              None (User.createdAt u)) with (with_password password).
  pose proof (update_rows_no_match (with_password password) _ _ E) as U.
  unfold Drizzle.update, Drizzle.select in *. cbn [fst] in U.
  rewrite U, E. cbn. unfold DatabaseStorage.set_users. now rewrite db_eta.
Qed.

Lemma db_updatePassword_present db userId password u :
  DatabaseStorage.getUser db userId = Some u ->
  let '(r, db') := DatabaseStorage.updatePassword db userId password in
  r = true
  /\ DatabaseStorage.getUser db' userId = Some (with_password password u).
Proof.
  intros E. unfold DatabaseStorage.getUser in *.
  unfold DatabaseStorage.updatePassword.
  change (fun u : User.t =>
            User.mk (User.id u) (User.username u) (User.email u) password None
              None (User.createdAt u)) with (with_password password).
  pose proof (select_update (with_password password) (fun u => User.id u =? userId)
                (DatabaseStorage.users db) (fun r H => H)) as S.
  unfold Drizzle.update, Drizzle.select in *. cbn [fst] in S.
  destruct (filter (fun u => User.id u =? userId) (DatabaseStorage.users db))
    as [|u0 sel] eqn:Sel; [discriminate|].
  injection E as ->. split; [reflexivity|].
  unfold DatabaseStorage.set_users. cbn [DatabaseStorage.users]. now rewrite S.
Qed.

Lemma db_verifyResetToken_owner now db token u :
  DatabaseStorage.verifyResetToken now db token = Some u ->
  In u (DatabaseStorage.users db) /\ User.resetToken u = Some token.
Proof.
  unfold DatabaseStorage.verifyResetToken, Drizzle.select.
  destruct (filter _ _) as [|u0 tl] eqn:F; [discriminate|].
  destruct (filter_head_In _ _ _ _ F) as [Hin Ht].
  destruct (User.resetTokenExpiry u0); [|discriminate].
  destruct (_ <? _); [discriminate|]. intros [= <-].
  split; [exact Hin|]. unfold SQL.eq_text in Ht.
  destruct (User.resetToken u0) as [t|]; [|discriminate].
  apply String.eqb_eq in Ht. now subst.
Qed.

Lemma db_token_cleared now now' db userId password token u :
  token_owner_unique (DatabaseStorage.users db) ->
  DatabaseStorage.verifyResetToken now db token = Some u ->
  User.id u = userId ->
  DatabaseStorage.verifyResetToken now'
    (snd (DatabaseStorage.updatePassword db userId password)) token = None.
Proof.
  intros Uq V Eid. destruct (db_verifyResetToken_owner _ _ _ _ V) as [Hin Ht].
  unfold DatabaseStorage.verifyResetToken at 1.
  rewrite db_updatePassword_rows. unfold Drizzle.select.
  rewrite filter_all_false; [reflexivity|].
  intros a Ha. apply in_map_iff in Ha. destruct Ha as [r [<- Hr]].
  destruct (Z.eqb_spec (User.id r) userId) as [E|N]; [reflexivity|].
  unfold SQL.eq_text. destruct (User.resetToken r) as [t|] eqn:Tr; [|reflexivity].
  apply String.eqb_neq. intros ->. apply N. rewrite <- Eid.
  exact (Uq r u token Hr Hin Tr Ht).
Qed.

(** C6: in both backends, [updatePassword] on a stored user returns true
    and leaves that user with the new password and with resetToken and
    resetTokenExpiry absent, all in the one update; a token that resolved
    to that user before the call resolves to nobody afterwards, whatever
    the time, provided a reset token identifies at most one user; on an
    unknown user id the call returns false and the store is unchanged. *)
Theorem updatePassword_clears_reset_token :
  forall (userId now now' : Z) (password token : string)
         (db : DatabaseStorage.t) (st : MemStorage.t),
    token_owner_unique (DatabaseStorage.users db) ->
    mem_wf st ->
    token_owner_unique (JsMap.values (MemStorage.users st)) ->
    match DatabaseStorage.getUser db userId with
    | Some u =>
        let '(r, db') := DatabaseStorage.updatePassword db userId password in
        r = true
        /\ (exists u', DatabaseStorage.getUser db' userId = Some u'
                       /\ User.password u' = password
                       /\ User.resetToken u' = None
                       /\ User.resetTokenExpiry u' = None
                       /\ User.username u' = User.username u)
        /\ ((exists v, DatabaseStorage.verifyResetToken now db token = Some v
                       /\ User.id v = userId) ->
            DatabaseStorage.verifyResetToken now' db' token = None)
    | None => DatabaseStorage.updatePassword db userId password = (false, db)
    end
    /\
    match MemStorage.getUser st userId with
    | Some u =>
        let '(r, st') := MemStorage.updatePassword st userId password in
        r = true
        /\ (exists u', MemStorage.getUser st' userId = Some u'
                       /\ User.password u' = password
                       /\ User.resetToken u' = None
                       /\ User.resetTokenExpiry u' = None
                       /\ User.username u' = User.username u)
        /\ ((exists v, MemStorage.verifyResetToken now st token = Some v
                       /\ User.id v = userId) ->
            MemStorage.verifyResetToken now' st' token = None)
    | None => MemStorage.updatePassword st userId password = (false, st)
    end.
Proof.
  intros userId now now' password token db st Ud Wm Um. split.
  - destruct (DatabaseStorage.getUser db userId) as [u|] eqn:E.
    + pose proof (db_updatePassword_present db userId password u E) as P.
      pose proof (fun v => db_token_cleared now now' db userId password token v Ud)
        as C.
      destruct (DatabaseStorage.updatePassword db userId password) as [r db'].
      cbn [snd] in C. destruct P as [-> G]. split; [reflexivity|]. split.
      * exists (with_password password u). repeat split; try reflexivity. exact G.
      * intros [v [V Ev]]. exact (C v V Ev).
    + now apply db_updatePassword_absent.
  - pose proof (sim_getUser st userId Wm) as Sg.
    pose proof (sim_updatePassword st userId password Wm) as Su.
    destruct (MemStorage.getUser st userId) as [u|] eqn:E.
    + symmetry in Sg.
      pose proof (db_updatePassword_present _ userId password u Sg) as P.
      pose proof (fun v => db_token_cleared now now' (tables_of st) userId password
                             token v Um) as C.
      destruct (MemStorage.updatePassword st userId password) as [r st'].
      destruct Su as [Su W']. rewrite Su in P, C. cbn [snd] in C.
      destruct P as [-> G]. split; [reflexivity|]. split.
      * exists (with_password password u). repeat split; try reflexivity.
        now rewrite (sim_getUser st' userId W').
      * intros [v [V Ev]]. rewrite sim_verifyResetToken in V |- *.
        exact (C v V Ev).
    + unfold MemStorage.updatePassword. now rewrite E.
Qed.

Lemma sample_tokens_unique :
  token_owner_unique (DatabaseStorage.users sample_db)
  /\ token_owner_unique (JsMap.values (MemStorage.users sample_mem)).
Proof.
  split; intros u1 u2 token H1 H2 _ _; cbn in H1, H2;
    destruct H1 as [<-|[]]; destruct H2 as [<-|[]]; reflexivity.
Qed.

Lemma updatePassword_clears_reset_token_witness :
  DatabaseStorage.verifyResetToken 2000 sample_db "c0ffee"
  = DatabaseStorage.getUser sample_db 1
  /\ DatabaseStorage.verifyResetToken 2000
       (snd (DatabaseStorage.updatePassword sample_db 1 "hash1")) "c0ffee" = None
  /\ MemStorage.verifyResetToken 2000
       (snd (MemStorage.updatePassword sample_mem 1 "hash1")) "c0ffee" = None.
Proof.
  pose proof (updatePassword_clears_reset_token 1 2000 2000 "hash1" "c0ffee"
                sample_db sample_mem (proj1 sample_tokens_unique) sample_mem_wf
                (proj2 sample_tokens_unique)) as [D M].
  split; [reflexivity|]. split.
  - apply D. eexists. split; reflexivity.
  - apply M. eexists. split; reflexivity.
Defined.

(** ** Unknown ids *)

(** C8: for a user id that resolves to no stored user, [createResetToken]
    throws ("User not found") and [updatePassword] returns false; for a
    campaign id that resolves to no stored campaign, [launchCampaign]
    returns false; none of the three changes the store; in both
    backends. *)
Theorem unknown_id_signalling :
  forall (tz : JSDate.zone) (now userId id : Z) (token password : string)
         (db : DatabaseStorage.t) (st : MemStorage.t),
    DatabaseStorage.getUser db userId = None ->
    MemStorage.getUser st userId = None ->
    DatabaseStorage.getCampaignById db id = None ->
    MemStorage.getCampaignById st id = None ->
    DatabaseStorage.createResetToken tz now token db userId
    = (Thrown "User not found", db)
    /\ DatabaseStorage.updatePassword db userId password = (false, db)
    /\ DatabaseStorage.launchCampaign now db id = (false, db)
    /\ MemStorage.createResetToken tz now token st userId
       = (Thrown "User not found", st)
    /\ MemStorage.updatePassword st userId password = (false, st)
    /\ MemStorage.launchCampaign now st id = (false, st).
Proof.
  intros tz now userId id token password db st Ud Um Cd Cm.
  repeat split.
  - unfold DatabaseStorage.createResetToken. now rewrite Ud.
  - now apply db_updatePassword_absent.
  - now apply db_launchCampaign_absent.
  - unfold MemStorage.createResetToken. now rewrite Um.
  - unfold MemStorage.updatePassword. now rewrite Um.
  - now apply mem_launchCampaign_absent.
Qed.

Lemma unknown_id_signalling_witness :
  DatabaseStorage.createResetToken (JSDate.fixed 0) 2000 "beef" sample_db 9
  = (Thrown "User not found", sample_db)
  /\ DatabaseStorage.updatePassword sample_db 9 "hash1" = (false, sample_db)
  /\ DatabaseStorage.launchCampaign 2000 sample_db 9 = (false, sample_db)
  /\ MemStorage.createResetToken (JSDate.fixed 0) 2000 "beef" sample_mem 9
     = (Thrown "User not found", sample_mem)
  /\ MemStorage.updatePassword sample_mem 9 "hash1" = (false, sample_mem)
  /\ MemStorage.launchCampaign 2000 sample_mem 9 = (false, sample_mem).
Proof.
  exact (unknown_id_signalling (JSDate.fixed 0) 2000 9 9 "beef" "hash1" sample_db sample_mem
           eq_refl eq_refl eq_refl eq_refl).
Defined.

(** ** Importing contacts *)

Lemma key_eqb_eq k1 k2 : key_eqb k1 k2 = true <-> k1 = k2.
Proof.
  destruct k1 as [m1 a1], k2 as [m2 a2]. unfold key_eqb. cbn.
  rewrite andb_true_iff, String.eqb_eq, Z.eqb_eq. split.
  - intros [-> ->]. reflexivity.
  - intros [= -> ->]. split; reflexivity.
Qed.

Lemma key_seen_app seen k x :
  key_seen (seen ++ [x]) k = key_seen seen k || key_eqb x k.
Proof. unfold key_seen. rewrite existsb_app. cbn. now rewrite orb_false_r. Qed.

Lemma count_duplicates_ext batch :
  forall s1 s2,
    (forall k, key_seen s1 k = key_seen s2 k) ->
    count_duplicates s1 batch = count_duplicates s2 batch.
Proof.
  induction batch as [|c rest IH]; intros s1 s2 E; cbn; [reflexivity|].
  rewrite (E (contact_key c)). f_equal. apply IH.
  intros k. now rewrite !key_seen_app, E.
Qed.


(** The duplicate check of the loop is a membership test on the stored
    pairs. *)
Lemma db_getContactByMobile_seen db c :
  match DatabaseStorage.getContactByMobile db (InsertContact.mobile c)
          (InsertContact.accountId c) with
  | Some _ => true
  | None => false
  end
  = key_seen (map stored_key (DatabaseStorage.contacts db)) (contact_key c).
Proof.
  unfold DatabaseStorage.getContactByMobile, Drizzle.select, key_seen.
  induction (DatabaseStorage.contacts db) as [|r rows IH]; [reflexivity|].
  cbn [filter map existsb].
  change (key_eqb (stored_key r) (contact_key c))
    with (String.eqb (Contact.mobile r) (InsertContact.mobile c)
          && (Contact.accountId r =? InsertContact.accountId c)).
  destruct (_ && _); [reflexivity|exact IH].
Qed.





(** When the pairs of the batch are pairwise distinct, K is the number of
    records whose pair is in storage when the call starts. *)
Lemma count_duplicates_distinct batch :
  forall seen,
    NoDup (map contact_key batch) ->
    count_duplicates seen batch = count_present seen batch.
Proof.
  unfold count_present.
  induction batch as [|c rest IH]; intros seen N; [reflexivity|].
  cbn [count_duplicates filter map] in *.
  apply NoDup_cons_iff in N. destruct N as [Nin N].
  rewrite (IH _ N).
  assert (E : filter (fun c0 => key_seen (seen ++ [contact_key c]) (contact_key c0)) rest
              = filter (fun c0 => key_seen seen (contact_key c0)) rest).
  { apply filter_ext_in. intros x Hx. rewrite key_seen_app.
    destruct (key_eqb (contact_key c) (contact_key x)) eqn:Ek; [|apply orb_false_r].
    apply key_eqb_eq in Ek. exfalso. apply Nin. rewrite Ek. now apply in_map. }
  rewrite E. destruct (key_seen seen (contact_key c)); cbn [List.length]; lia.
Qed.

(** ** Filtered listings *)

(** In the relational backend the first non-empty field decides: a listing
    with a non-empty [search] is the listing with [search] alone, then
    [label], then [location]. *)
Lemma or_null_truthy (o : option string) :
  JS.truthy o = true -> JS.or_null o = o.
Proof. unfold JS.or_null. now intros ->. Qed.

Lemma or_null_falsy (o : option string) :
  JS.truthy o = false -> JS.or_null o = None.
Proof. unfold JS.or_null. now intros ->. Qed.

Lemma truthy_Some (o : option string) :
  JS.truthy o = true -> exists s, o = Some s.
Proof. destruct o as [s|]; [now exists s|discriminate]. Qed.

Lemma db_getContacts_priority tz now startDate db accountId f :
  DatabaseStorage.getContacts tz now startDate db accountId (Some f)
  = DatabaseStorage.getContacts tz now startDate db accountId
      (Some
         (if JS.truthy (ContactFilters.search f)
          then ContactFilters.mk (ContactFilters.search f) None None None
          else if JS.truthy (ContactFilters.label f)
          then ContactFilters.mk None (ContactFilters.label f) None None
          else if JS.truthy (ContactFilters.location f)
          then ContactFilters.mk None None (ContactFilters.location f) None
          else ContactFilters.mk None None None (ContactFilters.dateRange f))).
Proof.
  unfold DatabaseStorage.getContacts.
  destruct (JS.truthy (ContactFilters.search f)) eqn:Es.
  { cbn [ContactFilters.search]. rewrite (or_null_truthy _ Es).
    destruct (truthy_Some _ Es) as [s ->]. reflexivity. }
  rewrite (or_null_falsy _ Es).
  destruct (JS.truthy (ContactFilters.label f)) eqn:El.
  { cbn [ContactFilters.search ContactFilters.label JS.or_null JS.truthy].
    rewrite (or_null_truthy _ El). destruct (truthy_Some _ El) as [s ->].
    reflexivity. }
  rewrite (or_null_falsy _ El).
  destruct (JS.truthy (ContactFilters.location f)) eqn:Eo.
  { cbn [ContactFilters.search ContactFilters.label ContactFilters.location
         JS.or_null JS.truthy].
    rewrite (or_null_truthy _ Eo). destruct (truthy_Some _ Eo) as [s ->].
    reflexivity. }
  rewrite (or_null_falsy _ Eo). reflexivity.
Qed.

Lemma db_getCampaigns_priority tz now startDate db accountId f :
  DatabaseStorage.getCampaigns tz now startDate db accountId (Some f)
  = DatabaseStorage.getCampaigns tz now startDate db accountId
      (Some
         (if JS.truthy (CampaignFilters.search f)
          then CampaignFilters.mk (CampaignFilters.search f) None None
          else if JS.truthy (CampaignFilters.status f)
          then CampaignFilters.mk None (CampaignFilters.status f) None
          else CampaignFilters.mk None None (CampaignFilters.dateRange f))).
Proof.
  unfold DatabaseStorage.getCampaigns.
  destruct (JS.truthy (CampaignFilters.search f)) eqn:Es.
  { cbn [CampaignFilters.search]. rewrite (or_null_truthy _ Es).
    destruct (truthy_Some _ Es) as [s ->]. reflexivity. }
  rewrite (or_null_falsy _ Es).
  destruct (JS.truthy (CampaignFilters.status f)) eqn:El.
  { cbn [CampaignFilters.search CampaignFilters.status JS.or_null JS.truthy].
    rewrite (or_null_truthy _ El). destruct (truthy_Some _ El) as [s ->].
    reflexivity. }
  rewrite (or_null_falsy _ El). reflexivity.
Qed.

(** In the in-memory backend every non-empty field filters the result of
    the fields before it. *)
Lemma mem_getContacts_conjunction toLowerCase tz now startDate st accountId
  search label :
  JS.truthy (Some search) = true -> JS.truthy (Some label) = true ->
  MemStorage.getContacts toLowerCase tz now startDate st accountId
    (Some (ContactFilters.mk (Some search) (Some label) None None))
  = filter (fun c => JS.strict_eq_opt (Contact.label c) (Some label))
      (MemStorage.getContacts toLowerCase tz now startDate st accountId
         (Some (ContactFilters.mk (Some search) None None None))).
Proof.
  intros Hs Hl. unfold MemStorage.getContacts, JS.or_null.
  cbn [ContactFilters.search ContactFilters.label ContactFilters.location
       ContactFilters.dateRange].
  rewrite Hs, Hl. reflexivity.
Qed.

(** C2 at its failing input: with the stored contact alice (label "other")
    and the filters [{search: "a", label: "vip"}], the relational backend
    answers as for [{search: "a"}] alone, the in-memory backend also
    applies the label and answers with no contact. *)
Theorem mem_getContacts_applies_label_after_search :
  DatabaseStorage.getContacts (JSDate.fixed 0) 2000 2000 sample_db 1 search_and_label
  = DatabaseStorage.getContacts (JSDate.fixed 0) 2000 2000 sample_db 1 search_only
  /\ map Contact.name (DatabaseStorage.getContacts (JSDate.fixed 0) 2000 2000 sample_db 1 search_only)
     = ["alice"]
  /\ map Contact.name (MemStorage.getContacts JS.toLowerCase (JSDate.fixed 0) 2000 2000 sample_mem 1 search_only)
     = ["alice"]
  /\ MemStorage.getContacts JS.toLowerCase (JSDate.fixed 0) 2000 2000 sample_mem 1 search_and_label = [].
Proof. repeat split; vm_compute; reflexivity. Qed.

(** ** Date ranges *)

Lemma previous_month_length_range tz now :
  28 <= previous_month_length tz now <= 31.
Proof.
  unfold previous_month_length. cbv zeta.
  pose proof (JSDateFacts.MonthFromTime_range (JSDate.LocalTime tz now)) as R.
  destruct (Z.eqb_spec (JSDate.MonthFromTime (JSDate.LocalTime tz now)) 0);
    apply JSDateFacts.DaysInMonth_range; lia.
Qed.

Lemma dateRangeStart_unrecognized tz now startDate dateRange :
  recognized dateRange = false ->
  dateRangeStart tz now startDate dateRange = startDate.
Proof.
  unfold recognized, recognized_ranges, dateRangeStart. cbn [existsb].
  rewrite !orb_false_iff. intros (-> & -> & -> & -> & _). reflexivity.
Qed.

Lemma dateRangeStart_today tz now startDate :
  dateRangeStart tz now startDate "today" = JSDate.setHours4 tz startDate 0 0 0 0.
Proof. reflexivity. Qed.

Lemma dateRangeStart_last_week tz now startDate :
  dateRangeStart tz now startDate "last-week"
  = JSDate.setDate tz startDate (JSDate.getDate tz now - 7).
Proof. reflexivity. Qed.

Lemma dateRangeStart_last_month tz now startDate :
  dateRangeStart tz now startDate "last-month"
  = JSDate.setMonth tz startDate (JSDate.getMonth tz now - 1).
Proof. reflexivity. Qed.

Lemma dateRangeStart_last_year tz now startDate :
  dateRangeStart tz now startDate "last-year"
  = JSDate.setFullYear tz startDate (JSDate.getFullYear tz now - 1).
Proof. reflexivity. Qed.

(** The four bounds in a zone of constant offset, when both clock readings
    fall on the same local day. *)
Lemma dateRangeStart_bounds tz tza now startDate :
  constant_offset tz tza ->
  same_local_day tz now startDate ->
  (let today := dateRangeStart tz now startDate "today" in
   JSDate.TimeWithinDay (JSDate.LocalTime tz today) = 0
   /\ today <= startDate < today + JSDate.msPerDay)
  /\ dateRangeStart tz now startDate "last-week"
     = startDate - 7 * JSDate.msPerDay
  /\ (dateRangeStart tz now startDate "last-month"
      = startDate - previous_month_length tz startDate * JSDate.msPerDay
      /\ 28 <= previous_month_length tz startDate <= 31)
  /\ (dateRangeStart tz now startDate "last-year"
      = startDate - 365 * JSDate.msPerDay
      \/ dateRangeStart tz now startDate "last-year"
         = startDate - 366 * JSDate.msPerDay).
Proof.
  intros C S.
  destruct (JSDateFacts.getters_same_local_day tz now startDate S)
    as (Ey & Em & Ed).
  rewrite dateRangeStart_today, dateRangeStart_last_week,
    dateRangeStart_last_month, dateRangeStart_last_year, Ey, Em, Ed.
  split; [|split; [|split]].
  - pose proof (JSDateFacts.setHours4_midnight tz tza startDate C) as (M & B & _).
    split; [exact M|exact B].
  - exact (JSDateFacts.setDate_getDate tz tza startDate 7 C).
  - split; [exact (JSDateFacts.setMonth_prev tz tza startDate C)
           |apply previous_month_length_range].
  - exact (JSDateFacts.setFullYear_prev tz tza startDate C).
Qed.

Lemma truthy_nonempty (s : string) : s <> "" -> JS.or_null (Some s) = Some s.
Proof.
  intros N. apply or_null_truthy. cbn. now destruct (String.eqb_spec s "").
Qed.

Lemma db_getContacts_since tz now startDate db accountId r :
  r <> "" ->
  DatabaseStorage.getContacts tz now startDate db accountId (contacts_since r)
  = filter (fun c => dateRangeStart tz now startDate r <=? Contact.createdAt c)
      (DatabaseStorage.getContacts tz now startDate db accountId None).
Proof.
  intros N. pose proof (truthy_nonempty r N) as T.
  unfold DatabaseStorage.getContacts, contacts_since, Drizzle.select.
  cbn [ContactFilters.search ContactFilters.label ContactFilters.location
       ContactFilters.dateRange].
  rewrite T. cbn. apply filter_and.
Qed.

Lemma db_getCampaigns_since tz now startDate db accountId r :
  r <> "" ->
  DatabaseStorage.getCampaigns tz now startDate db accountId (campaigns_since r)
  = filter (fun c => dateRangeStart tz now startDate r <=? Campaign.createdAt c)
      (DatabaseStorage.getCampaigns tz now startDate db accountId None).
Proof.
  intros N. pose proof (truthy_nonempty r N) as T.
  unfold DatabaseStorage.getCampaigns, campaigns_since, Drizzle.select.
  cbn [CampaignFilters.search CampaignFilters.status CampaignFilters.dateRange].
  rewrite T. cbn. apply filter_and.
Qed.

Lemma mem_getContacts_since toLowerCase tz now startDate st accountId r :
  r <> "" ->
  MemStorage.getContacts toLowerCase tz now startDate st accountId
    (contacts_since r)
  = filter (fun c => dateRangeStart tz now startDate r <=? Contact.createdAt c)
      (MemStorage.getContacts toLowerCase tz now startDate st accountId None).
Proof.
  intros N. pose proof (truthy_nonempty r N) as T.
  unfold MemStorage.getContacts, contacts_since.
  cbn [ContactFilters.search ContactFilters.label ContactFilters.location
       ContactFilters.dateRange].
  rewrite T. reflexivity.
Qed.

Lemma mem_getCampaigns_since toLowerCase tz now startDate st accountId r :
  r <> "" ->
  MemStorage.getCampaigns toLowerCase tz now startDate st accountId
    (campaigns_since r)
  = filter (fun c => dateRangeStart tz now startDate r <=? Campaign.createdAt c)
      (MemStorage.getCampaigns toLowerCase tz now startDate st accountId None).
Proof.
  intros N. pose proof (truthy_nonempty r N) as T.
  unfold MemStorage.getCampaigns, campaigns_since.
  cbn [CampaignFilters.search CampaignFilters.status CampaignFilters.dateRange].
  rewrite T. reflexivity.
Qed.

(** C9 (amended): in both backends, for contacts and campaigns, a
    non-empty [dateRange], alone in the filters, keeps the records of the
    account whose createdAt is not before a lower bound, which the call
    computes in local time from two readings of the clock, [now] and then
    [startDate].  For every value other than the four recognized ones the
    bound is [startDate] itself, in every time zone: such a value filters,
    it does not pass the records of the account through.  In a time zone
    whose offset from UTC does not change, and when both readings fall on
    the same local day, the bound is local midnight of that day for
    "today", [startDate] minus 7 days for "last-week", [startDate] minus
    the length of the previous calendar month (28 to 31 days) for
    "last-month", and [startDate] minus 365 or 366 days for "last-year". *)
Theorem dateRange_lower_bound :
  forall (toLowerCase : string -> string) (tz : JSDate.zone)
         (now startDate accountId : Z) (dateRange : string)
         (db : DatabaseStorage.t) (st : MemStorage.t),
    dateRange <> "" ->
    let start := dateRangeStart tz now startDate dateRange in
    DatabaseStorage.getContacts tz now startDate db accountId
      (contacts_since dateRange)
    = filter (fun c => start <=? Contact.createdAt c)
        (DatabaseStorage.getContacts tz now startDate db accountId None)
    /\ DatabaseStorage.getCampaigns tz now startDate db accountId
         (campaigns_since dateRange)
       = filter (fun c => start <=? Campaign.createdAt c)
           (DatabaseStorage.getCampaigns tz now startDate db accountId None)
    /\ MemStorage.getContacts toLowerCase tz now startDate st accountId
         (contacts_since dateRange)
       = filter (fun c => start <=? Contact.createdAt c)
           (MemStorage.getContacts toLowerCase tz now startDate st accountId None)
    /\ MemStorage.getCampaigns toLowerCase tz now startDate st accountId
         (campaigns_since dateRange)
       = filter (fun c => start <=? Campaign.createdAt c)
           (MemStorage.getCampaigns toLowerCase tz now startDate st accountId
              None)
    /\ (if recognized dateRange then True else start = startDate)
    /\ (forall tza,
           constant_offset tz tza ->
           same_local_day tz now startDate ->
           (let today := dateRangeStart tz now startDate "today" in
            JSDate.TimeWithinDay (JSDate.LocalTime tz today) = 0
            /\ today <= startDate < today + JSDate.msPerDay)
           /\ dateRangeStart tz now startDate "last-week"
              = startDate - 7 * JSDate.msPerDay
           /\ (dateRangeStart tz now startDate "last-month"
               = startDate - previous_month_length tz startDate * JSDate.msPerDay
               /\ 28 <= previous_month_length tz startDate <= 31)
           /\ (dateRangeStart tz now startDate "last-year"
               = startDate - 365 * JSDate.msPerDay
               \/ dateRangeStart tz now startDate "last-year"
                  = startDate - 366 * JSDate.msPerDay)).
Proof.
  intros toLowerCase tz now startDate accountId dateRange db st N start.
  split; [apply db_getContacts_since, N|].
  split; [apply db_getCampaigns_since, N|].
  split; [apply mem_getContacts_since, N|].
  split; [apply mem_getCampaigns_since, N|].
  split.
  - destruct (recognized dateRange) eqn:R; [exact I|].
    now apply dateRangeStart_unrecognized.
  - intros tza. apply dateRangeStart_bounds.
Qed.

Lemma dateRange_lower_bound_witness :
  DatabaseStorage.getContacts (JSDate.fixed 0) 2000 2001 sample_db 1
    (contacts_since "sometime")
  = filter (fun c => 2001 <=? Contact.createdAt c)
      (DatabaseStorage.getContacts (JSDate.fixed 0) 2000 2001 sample_db 1 None)
  /\ dateRangeStart (JSDate.fixed 19800000) 1793615820000 1793615820001
       "last-week"
     = 1793615820001 - 7 * JSDate.msPerDay.
Proof.
  split.
  - exact (proj1 (dateRange_lower_bound JS.toLowerCase (JSDate.fixed 0) 2000 2001
                    1 "sometime" sample_db sample_mem ltac:(discriminate))).
  - exact (proj1 (proj2
             (proj2 (proj2 (proj2 (proj2 (proj2
                (dateRange_lower_bound JS.toLowerCase (JSDate.fixed 19800000)
                   1793615820000 1793615820001 1 "last-week"
                   sample_db sample_mem ltac:(discriminate))))))
                19800000 (fun _ _ => eq_refl) eq_refl))).
Defined.

(** C9, as stated, fails on the unrecognized values: with clock readings
    2000 and 2001 the account's one contact and one campaign, created at
    time 1000, are listed without filters and are not listed with
    [dateRange = "sometime"]; in both backends. *)
Lemma dateRange_unrecognized_counterexample :
  map Contact.name
    (DatabaseStorage.getContacts (JSDate.fixed 0) 2000 2001 sample_db 1 None)
  = ["alice"]
  /\ DatabaseStorage.getContacts (JSDate.fixed 0) 2000 2001 sample_db 1
       (contacts_since "sometime") = []
  /\ map Contact.name
       (MemStorage.getContacts JS.toLowerCase (JSDate.fixed 0) 2000 2001
          sample_mem 1 None)
     = ["alice"]
  /\ MemStorage.getContacts JS.toLowerCase (JSDate.fixed 0) 2000 2001 sample_mem 1
       (contacts_since "sometime") = []
  /\ map Campaign.name
       (DatabaseStorage.getCampaigns (JSDate.fixed 0) 2000 2001 sample_db 1 None)
     = ["Spring sale"]
  /\ DatabaseStorage.getCampaigns (JSDate.fixed 0) 2000 2001 sample_db 1
       (campaigns_since "sometime") = []
  /\ map Campaign.name
       (MemStorage.getCampaigns JS.toLowerCase (JSDate.fixed 0) 2000 2001
          sample_mem 1 None)
     = ["Spring sale"]
  /\ MemStorage.getCampaigns JS.toLowerCase (JSDate.fixed 0) 2000 2001 sample_mem 1
       (campaigns_since "sometime") = [].
Proof. repeat split; vm_compute; reflexivity. Qed.

(** With readings one millisecond apart across local midnight at the end
    of a month, "last-week" takes the day of the month from the first
    reading and the month from the second: the bound lies 23 days after
    the call, above the bound of "today". *)
Example last_week_across_midnight :
  let now := 1769903999999 in
  let startDate := 1769904000000 in
  dateRangeStart (JSDate.fixed 0) now startDate "last-week"
  = startDate + 23 * JSDate.msPerDay
  /\ dateRangeStart (JSDate.fixed 0) now startDate "today" = startDate.
Proof. split; vm_compute; reflexivity. Qed.

(** ** More of the in-memory backend read as tables *)

Lemma sim_createResetToken tz now token st userId :
  mem_wf st ->
  let '(r, st') := MemStorage.createResetToken tz now token st userId in
  DatabaseStorage.createResetToken tz now token (tables_of st) userId
  = (r, tables_of st')
  /\ mem_wf st'.
Proof.
  intros W. pose proof W as (Wu & Wc & Wg & Wa & U).
  unfold MemStorage.createResetToken, DatabaseStorage.createResetToken.
  rewrite <- (sim_getUser st userId W).
  pose proof (sim_getUser st userId W) as G. unfold DatabaseStorage.getUser in G.
  destruct (MemStorage.getUser st userId) as [user|] eqn:Eu;
    [|split; [reflexivity|exact W]].
  set (expiry := JSDate.setHours tz now (JSDate.getHours tz now + 1)).
  set (f := fun u : User.t =>
              User.mk (User.id u) (User.username u) (User.email u)
                (User.password u) (Some token) (Some expiry) (User.createdAt u)).
  change (User.mk (User.id user) _ _ _ _ _ _) with (f user).
  destruct (set_as_update User.id _ _ userId f user Wu Eu) as [Hv Hw].
  { cbn. pose proof (get_In _ _ _ Eu) as Hin. destruct Wu as [_ F].
    rewrite Forall_forall in F. now destruct (F _ Hin). }
  unfold Drizzle.update, Drizzle.select in *. cbn [fst] in Hv.
  split; [|exact (conj Hw (conj Wc (conj Wg (conj Wa U))))].
  unfold tables_of in G. cbn [DatabaseStorage.users] in G.
  storage_simpl. rewrite Hv.
  destruct (filter _ (JsMap.values (MemStorage.users st))); [discriminate|].
  reflexivity.
Qed.

Lemma sim_getAnalytics st accountId campaignId :
  MemStorage.getAnalytics st accountId campaignId
  = DatabaseStorage.getAnalytics (tables_of st) accountId campaignId.
Proof.
  unfold MemStorage.getAnalytics, DatabaseStorage.getAnalytics, Drizzle.select.
  destruct (truthy_number campaignId); [|reflexivity].
  symmetry. apply filter_and.
Qed.

(** ** The backends side by side *)

(** C1 at its failing input: the same two calls, [createContact(alice)]
    and [getContacts(1, {search: "a", label: "vip"})], on a fresh store of
    each backend: the relational backend lists alice, the in-memory
    backend lists nobody. *)
Theorem backends_disagree_on_two_filters :
  let calls :=
    [(1000, 1000, CreateContact alice);
     (2000, 2000, GetContacts 1 search_and_label)] in
  db_run (JSDate.fixed 0) calls DatabaseStorage.fresh
  = [ContactOrNone (Some (Contact.mk 1 1 "alice" "111" (Some "other") None 1000));
     ContactList [Contact.mk 1 1 "alice" "111" (Some "other") None 1000]]
  /\ mem_run JS.toLowerCase (JSDate.fixed 0) calls MemStorage.fresh
     = [ContactOrNone (Some (Contact.mk 1 1 "alice" "111" (Some "other") None 1000));
        ContactList []]
  /\ db_run (JSDate.fixed 0) calls DatabaseStorage.fresh
     <> mem_run JS.toLowerCase (JSDate.fixed 0) calls MemStorage.fresh.
Proof.
  cbv zeta. split; [vm_compute; reflexivity|]. split; [vm_compute; reflexivity|].
  vm_compute. discriminate.
Qed.

(** The backends also part on a single [search]: SQL [LIKE] is case
    sensitive, the in-memory search lower-cases both sides. *)
Example backends_disagree_on_search_case :
  let calls :=
    [(1000, 1000, CreateContact alice);
     (2000, 2000,
      GetContacts 1 (Some (ContactFilters.mk (Some "A") None None None)))] in
  nth 1 (db_run (JSDate.fixed 0) calls DatabaseStorage.fresh) (Flag false)
  = ContactList []
  /\ nth 1 (mem_run JS.toLowerCase (JSDate.fixed 0) calls MemStorage.fresh) (Flag false)
     = ContactList [Contact.mk 1 1 "alice" "111" (Some "other") None 1000].
Proof. split; vm_compute; reflexivity. Qed.

(** ** The relational operations keep the tables well formed *)

Lemma db_wf_users db rows next :
  db_wf db -> table_wf User.id rows next ->
  db_wf (DatabaseStorage.set_users db rows next).
Proof.
  intros (_ & Wc & Wg & Wa & U) Wu. exact (conj Wu (conj Wc (conj Wg (conj Wa U)))).
Qed.

Lemma db_wf_contacts db rows next :
  db_wf db -> table_wf Contact.id rows next ->
  db_wf (DatabaseStorage.set_contacts db rows next).
Proof.
  intros (Wu & _ & Wg & Wa & U) Wc. exact (conj Wu (conj Wc (conj Wg (conj Wa U)))).
Qed.

Lemma db_wf_campaigns db rows next :
  db_wf db -> table_wf Campaign.id rows next ->
  db_wf (DatabaseStorage.set_campaigns db rows next).
Proof.
  intros (Wu & Wc & _ & Wa & U) Wg. exact (conj Wu (conj Wc (conj Wg (conj Wa U)))).
Qed.

Lemma db_createContact_wf now db c :
  db_wf db -> db_wf (snd (DatabaseStorage.createContact now db c)).
Proof.
  intros W. apply db_wf_contacts; [exact W|].
  apply table_wf_insert; [apply W|reflexivity].
Qed.

Lemma db_importContacts_loop_wf now dedup batch :
  forall db i d,
    db_wf db ->
    db_wf (snd (DatabaseStorage.importContacts_loop now dedup batch db i d)).
Proof.
  induction batch as [|c rest IH]; intros db i d W; [exact W|].
  cbn [DatabaseStorage.importContacts_loop].
  destruct (if dedup then _ else None); [now apply IH|].
  pose proof (db_createContact_wf now db c W) as W1.
  destruct (DatabaseStorage.createContact now db c) as [x db1]. now apply IH.
Qed.

Lemma db_launchCampaign_wf now db id :
  db_wf db -> db_wf (snd (DatabaseStorage.launchCampaign now db id)).
Proof.
  intros W. destruct (DatabaseStorage.getCampaignById db id) as [c|] eqn:E.
  - pose proof (db_launchCampaign_spec now db id c W E) as Sp.
    destruct (DatabaseStorage.launchCampaign now db id) as [r db'].
    apply Sp.
  - now rewrite (db_launchCampaign_absent now db id E).
Qed.

Lemma db_createCampaign_wf now db c :
  db_wf db -> db_wf (snd (DatabaseStorage.createCampaign now db c)).
Proof.
  intros W. apply db_wf_campaigns; [exact W|].
  apply table_wf_insert; [apply W|reflexivity].
Qed.

Lemma db_createUser_wf now db u :
  db_wf db -> db_wf (snd (DatabaseStorage.createUser now db u)).
Proof.
  intros W. apply db_wf_users; [exact W|].
  apply table_wf_insert; [apply W|reflexivity].
Qed.

Lemma db_createResetToken_wf tz now token db userId :
  db_wf db ->
  db_wf (snd (DatabaseStorage.createResetToken tz now token db userId)).
Proof.
  intros W. unfold DatabaseStorage.createResetToken.
  destruct (DatabaseStorage.getUser db userId); [|exact W].
  match goal with |- context [Drizzle.update ?rows ?f ?p] =>
    pose proof (table_wf_update User.id rows (DatabaseStorage.users_id_seq db)
                  p f (proj1 W) (fun a => eq_refl)) as Wu;
    destruct (Drizzle.update rows f p) as [rows' result] end.
  cbn [fst] in Wu. destruct result; apply db_wf_users; assumption.
Qed.

Lemma db_updatePassword_wf db userId password :
  db_wf db -> db_wf (snd (DatabaseStorage.updatePassword db userId password)).
Proof.
  intros W. unfold DatabaseStorage.updatePassword.
  match goal with |- context [Drizzle.update ?rows ?f ?p] =>
    pose proof (table_wf_update User.id rows (DatabaseStorage.users_id_seq db)
                  p f (proj1 W) (fun a => eq_refl)) as Wu;
    destruct (Drizzle.update rows f p) as [rows' result] end.
  cbn [fst] in Wu. apply db_wf_users; assumption.
Qed.

Lemma db_step_wf tz now startDate c db :
  db_wf db -> db_wf (snd (db_step tz now startDate c db)).
Proof.
  intros W. destruct c; cbn [db_step]; try exact W.
  - pose proof (db_createContact_wf now db contact W) as H.
    now destruct (DatabaseStorage.createContact now db contact).
  - pose proof (db_importContacts_loop_wf now deduplicateByMobile batch db 0 0 W)
      as H.
    unfold DatabaseStorage.importContacts.
    now destruct (DatabaseStorage.importContacts_loop _ _ _ _ _ _).
  - pose proof (db_createCampaign_wf now db campaign W) as H.
    now destruct (DatabaseStorage.createCampaign now db campaign).
  - pose proof (db_launchCampaign_wf now db id W) as H.
    now destruct (DatabaseStorage.launchCampaign now db id).
  - pose proof (db_createOrUpdateAnalytics_wf now db analytics W) as H.
    now destruct (DatabaseStorage.createOrUpdateAnalytics now db analytics).
  - pose proof (db_createUser_wf now db user W) as H.
    now destruct (DatabaseStorage.createUser now db user).
  - pose proof (db_createResetToken_wf tz now token db userId W) as H.
    now destruct (DatabaseStorage.createResetToken tz now token db userId).
  - pose proof (db_updatePassword_wf db userId password W) as H.
    now destruct (DatabaseStorage.updatePassword db userId password).
Qed.

Lemma mem_step_wf toLowerCase tz now startDate c st :
  mem_wf st -> mem_wf (snd (mem_step toLowerCase tz now startDate c st)).
Proof.
  intros W. pose proof W as (Wu & Wc & Wg & Wa & U).
  destruct c; cbn [mem_step]; try exact W.
  - pose proof (sim_createContact now st contact W) as S.
    destruct (MemStorage.createContact now st contact). apply S.
  - pose proof (sim_importContacts_loop now deduplicateByMobile batch st 0 0 W) as S.
    unfold MemStorage.importContacts.
    destruct (MemStorage.importContacts_loop _ _ _ _ _ _). apply S.
  - unfold MemStorage.createCampaign.
    match goal with |- context [JsMap.set ?m ?k ?v] =>
      destruct (set_as_insert Campaign.id m k v Wg eq_refl) as [_ Hw] end.
    exact (conj Wu (conj Wc (conj Hw (conj Wa U)))).
  - pose proof (sim_launchCampaign now st id W) as S.
    destruct (MemStorage.launchCampaign now st id). apply S.
  - pose proof (sim_createOrUpdateAnalytics now st analytics W) as S.
    destruct (MemStorage.createOrUpdateAnalytics now st analytics). apply S.
  - unfold MemStorage.createUser.
    match goal with |- context [JsMap.set ?m ?k ?v] =>
      destruct (set_as_insert User.id m k v Wu eq_refl) as [_ Hw] end.
    exact (conj Hw (conj Wc (conj Wg (conj Wa U)))).
  - pose proof (sim_createResetToken tz now token st userId W) as S.
    destruct (MemStorage.createResetToken tz now token st userId). apply S.
  - pose proof (sim_updatePassword st userId password W) as S.
    destruct (MemStorage.updatePassword st userId password). apply S.
Qed.

(** The stores that the thirteen operations run side by side reach from
    the empty ones are well formed. *)
Lemma reachable_wf toLowerCase tz calls :
  db_wf (db_exec tz calls DatabaseStorage.fresh)
  /\ mem_wf (mem_exec toLowerCase tz calls MemStorage.fresh).
Proof.
  split.
  - generalize DatabaseStorage.fresh (proj1 fresh_wf).
    induction calls as [|[[now startDate] c] rest IH]; intros db W; [exact W|].
    cbn [db_exec]. apply IH. now apply db_step_wf.
  - generalize MemStorage.fresh (proj2 fresh_wf).
    induction calls as [|[[now startDate] c] rest IH]; intros st W; [exact W|].
    cbn [mem_exec]. apply IH. now apply mem_step_wf.
Qed.

(** ** [LIKE] with a plain term is substring search *)

Lemma like_percent_all (s : string) : SQL.like_pattern "%" s = true.
Proof.
  induction s as [|c r IH]; [reflexivity|].
  change (SQL.like_pattern "%" (String c r))
    with (SQL.like_pattern "" (String c r) || SQL.like_pattern "%" r).
  rewrite IH. apply orb_true_r.
Qed.

Lemma like_plain_prefix (term : string) :
  plain term = true ->
  forall s, SQL.like_pattern (term ++ "%")%string s = String.prefix term s.
Proof.
  induction term as [|c t IH]; intros P s.
  - cbn [String.append]. rewrite like_percent_all. now destruct s.
  - cbn [plain] in P. rewrite !andb_true_iff, !negb_true_iff in P.
    destruct P as [[[P1 P2] P3] Pt].
    cbn [String.append SQL.like_pattern]. rewrite P1, P2, P3.
    destruct s as [|d r]; [reflexivity|]. cbn [String.prefix].
    rewrite (IH Pt r).
    destruct (Ascii.eqb_spec c d) as [->|N].
    + destruct (ascii_dec d d); [reflexivity|contradiction].
    + destruct (ascii_dec c d); [contradiction|reflexivity].
Qed.

Lemma like_contains (term s : string) :
  plain term = true ->
  SQL.like s ("%" ++ term ++ "%")%string = JS.includes s term.
Proof.
  intros P. unfold SQL.like. cbn [String.append].
  induction s as [|c r IH].
  - change (SQL.like_pattern (String "%" (term ++ "%")) "")
      with (SQL.like_pattern (term ++ "%")%string "" || false).
    rewrite (like_plain_prefix term P ""). cbn [JS.includes].
    now destruct (String.prefix term "").
  - change (SQL.like_pattern (String "%" (term ++ "%")) (String c r))
      with (SQL.like_pattern (term ++ "%")%string (String c r)
            || SQL.like_pattern (String "%" (term ++ "%")) r).
    rewrite IH, (like_plain_prefix term P). cbn [JS.includes].
    now destruct (String.prefix term (String c r)).
Qed.

(** * Further properties of the storage layer *)

(** ** Creating, finding and deleting contacts *)

Lemma select_app {R : Type} (p : R -> bool) (l1 l2 : list R) :
  Drizzle.select (l1 ++ l2) p = Drizzle.select l1 p ++ Drizzle.select l2 p.
Proof. apply filter_app. Qed.

Lemma first_app {R : Type} (l1 l2 : list R) :
  DatabaseStorage.first (l1 ++ l2)
  = match DatabaseStorage.first l1 with
    | Some r => Some r
    | None => DatabaseStorage.first l2
    end.
Proof. now destruct l1. Qed.

Lemma table_wf_next_absent {R : Type} (id : R -> Z) rows next :
  table_wf id rows next -> Drizzle.select rows (fun r => id r =? next) = [].
Proof.
  intros [_ F]. apply filter_all_false. intros a Ha.
  rewrite Forall_forall in F. specialize (F a Ha). apply Z.eqb_neq. lia.
Qed.

Lemma db_createContact_lookup now db ic :
  db_wf db ->
  let '(r, db') := DatabaseStorage.createContact now db ic in
  exists c,
    r = Some c
    /\ Contact.id c = DatabaseStorage.contacts_id_seq db
    /\ DatabaseStorage.getContactById db (Contact.id c) = None
    /\ (forall k, DatabaseStorage.getContactById db' k
                  = if k =? Contact.id c then Some c
                    else DatabaseStorage.getContactById db k)
    /\ (Contact.accountId c, Contact.name c, Contact.mobile c, Contact.createdAt c)
       = (InsertContact.accountId ic, InsertContact.name ic,
          InsertContact.mobile ic, now)
    /\ Contact.label c = JS.or_null (InsertContact.label ic)
    /\ Contact.location c = JS.or_null (InsertContact.location ic).
Proof.
  intros (_ & Wc & _).
  unfold DatabaseStorage.createContact, Drizzle.insert.
  eexists. split; [reflexivity|]. cbn [Contact.id].
  pose proof (table_wf_next_absent Contact.id _ _ Wc) as A.
  split; [reflexivity|]. split.
  { unfold DatabaseStorage.getContactById. now rewrite A. }
  split; [|repeat split].
  intros k. unfold DatabaseStorage.getContactById, DatabaseStorage.set_contacts.
  cbn [DatabaseStorage.contacts]. rewrite select_app, first_app.
  unfold Drizzle.select at 2. cbn [filter Contact.id].
  rewrite (Z.eqb_sym k).
  destruct (Z.eqb_spec (DatabaseStorage.contacts_id_seq db) k) as [<-|N].
  - now rewrite A.
  - cbn. now destruct (DatabaseStorage.first _).
Qed.

(** X1: on a well-formed store of either backend, [createContact] returns
    a contact under an id that no stored contact holds; afterwards
    [getContactById] finds it under that id and answers for every other id
    as before; the contact carries the input's account, name and mobile and
    the time of the call; its label and its location are those of the
    input when they are non-empty strings, and absent when the input's are
    absent or empty. *)
Theorem createContact_then_getContactById :
  forall (now : Z) (ic : InsertContact.t)
         (db : DatabaseStorage.t) (st : MemStorage.t),
    db_wf db -> mem_wf st ->
    (let '(r, db') := DatabaseStorage.createContact now db ic in
     exists c,
       r = Some c
       /\ DatabaseStorage.getContactById db (Contact.id c) = None
       /\ (forall k, DatabaseStorage.getContactById db' k
                     = if k =? Contact.id c then Some c
                       else DatabaseStorage.getContactById db k)
       /\ (Contact.accountId c, Contact.name c, Contact.mobile c,
           Contact.createdAt c)
          = (InsertContact.accountId ic, InsertContact.name ic,
             InsertContact.mobile ic, now)
       /\ Contact.label c = JS.or_null (InsertContact.label ic)
       /\ Contact.location c = JS.or_null (InsertContact.location ic))
    /\
    (let '(c, st') := MemStorage.createContact now st ic in
     MemStorage.getContactById st (Contact.id c) = None
     /\ (forall k, MemStorage.getContactById st' k
                   = if k =? Contact.id c then Some c
                     else MemStorage.getContactById st k)
     /\ (Contact.accountId c, Contact.name c, Contact.mobile c,
         Contact.createdAt c)
        = (InsertContact.accountId ic, InsertContact.name ic,
           InsertContact.mobile ic, now)
     /\ Contact.label c = JS.or_null (InsertContact.label ic)
     /\ Contact.location c = JS.or_null (InsertContact.location ic)).
Proof.
  intros now ic db st Wd Wm.
  split.
  - pose proof (db_createContact_lookup now db ic Wd) as L.
    destruct (DatabaseStorage.createContact now db ic) as [r db'].
    destruct L as (c & R & _ & A & G & F & El & Eo).
    exists c. repeat split; auto.
  - pose proof (db_createContact_lookup now (tables_of st) ic (mem_wf_tables st Wm))
      as L.
    pose proof (sim_createContact now st ic Wm) as S.
    destruct (MemStorage.createContact now st ic) as [c st'].
    destruct S as [S W']. rewrite S in L.
    destruct L as (c0 & R & _ & A & G & F & El & Eo). injection R as <-.
    rewrite (sim_getContactById st _ Wm).
    split; [exact A|]. split; [|repeat split; auto].
    intros k. rewrite (sim_getContactById st' k W'), (sim_getContactById st k Wm).
    apply G.
Qed.

Lemma createContact_then_getContactById_witness :
  (let '(c, st') := MemStorage.createContact 2000 sample_mem alice in
   MemStorage.getContactById sample_mem (Contact.id c) = None
   /\ MemStorage.getContactById st' 2 = Some c
   /\ MemStorage.getContactById st' 1 = MemStorage.getContactById sample_mem 1
   /\ Contact.label c = Some "other"
   /\ Contact.location c = None).
Proof.
  pose proof (proj2 (createContact_then_getContactById 2000 alice sample_db
                       sample_mem sample_db_wf sample_mem_wf)) as H.
  cbv beta iota zeta delta [MemStorage.createContact] in H |- *.
  destruct H as (A & G & _ & L & O). split; [exact A|]. split; [exact (G 2)|].
  split; [exact (G 1)|]. split; [exact L|exact O].
Defined.

Lemma db_getContactByMobile_after_create now db ic mobile accountId :
  DatabaseStorage.getContactByMobile
    (snd (DatabaseStorage.createContact now db ic)) mobile accountId
  = match DatabaseStorage.getContactByMobile db mobile accountId with
    | Some earlier => Some earlier
    | None =>
        if String.eqb (InsertContact.mobile ic) mobile
           && (InsertContact.accountId ic =? accountId)
        then fst (DatabaseStorage.createContact now db ic)
        else None
    end.
Proof.
  unfold DatabaseStorage.getContactByMobile, DatabaseStorage.createContact,
    Drizzle.insert, DatabaseStorage.set_contacts.
  cbn [snd fst DatabaseStorage.contacts]. rewrite select_app, first_app.
  destruct (DatabaseStorage.first _); [reflexivity|].
  unfold Drizzle.select. cbn [filter Contact.mobile Contact.accountId].
  now destruct (_ && _).
Qed.

(** X2: after [createContact], [getContactByMobile] answers for every
    (mobile, accountId) pair other than the new contact's as it did
    before, and for the new contact's own pair with the new contact when
    the pair was not stored before.  In the in-memory backend, when the
    pair was stored before, the answer is still the contact that held it.
    In the relational backend this is stated for a table whose stored
    pairs are pairwise distinct, where at most one row matches a lookup
    other than the lookup of a pair stored twice, for which it only says
    that a contact is found. *)
Theorem getContactByMobile_after_createContact :
  forall (now accountId : Z) (mobile : string) (ic : InsertContact.t)
         (db : DatabaseStorage.t) (st : MemStorage.t),
    NoDup (map stored_key (DatabaseStorage.contacts db)) ->
    mem_wf st ->
    (let '(r, db') := DatabaseStorage.createContact now db ic in
     if key_eqb (mobile, accountId) (contact_key ic)
     then match DatabaseStorage.getContactByMobile db mobile accountId with
          | None => DatabaseStorage.getContactByMobile db' mobile accountId = r
          | Some _ =>
              is_some (DatabaseStorage.getContactByMobile db' mobile accountId)
              = true
          end
     else DatabaseStorage.getContactByMobile db' mobile accountId
          = DatabaseStorage.getContactByMobile db mobile accountId)
    /\
    (let '(c, st') := MemStorage.createContact now st ic in
     MemStorage.getContactByMobile st' mobile accountId
     = match MemStorage.getContactByMobile st mobile accountId with
       | Some earlier => Some earlier
       | None =>
           if String.eqb (InsertContact.mobile ic) mobile
              && (InsertContact.accountId ic =? accountId)
           then Some c else None
       end).
Proof.
  intros now accountId mobile ic db st _ W. split.
  - pose proof (db_getContactByMobile_after_create now db ic mobile accountId) as H.
    destruct (DatabaseStorage.createContact now db ic) as [r db'].
    cbn [fst snd] in H. rewrite H. unfold key_eqb, contact_key. cbn [fst snd].
    rewrite (String.eqb_sym mobile), (Z.eqb_sym accountId).
    destruct (DatabaseStorage.getContactByMobile db mobile accountId);
      destruct (_ && _); reflexivity.
  - pose proof (db_getContactByMobile_after_create now (tables_of st) ic mobile
                  accountId) as H.
    pose proof (sim_createContact now st ic W) as S.
    destruct (MemStorage.createContact now st ic) as [c st'].
    destruct S as [S _]. rewrite S in H. cbn [fst snd] in H.
    now rewrite !sim_getContactByMobile.
Qed.

Lemma sample_pairs_distinct :
  NoDup (map stored_key (DatabaseStorage.contacts sample_db)).
Proof. repeat constructor. cbn. tauto. Qed.

Lemma getContactByMobile_after_createContact_witness :
  (let '(c, st') := MemStorage.createContact 2000 sample_mem alice in
   option_map Contact.id (MemStorage.getContactByMobile st' "111" 1) = Some 1)
  /\
  (let '(r, db') := DatabaseStorage.createContact 2000 sample_db bob in
   DatabaseStorage.getContactByMobile db' "222" 1 = r).
Proof.
  split.
  - pose proof (proj2 (getContactByMobile_after_createContact 2000 1 "111" alice
                         sample_db sample_mem sample_pairs_distinct
                         sample_mem_wf)) as H.
    cbv beta iota zeta delta [MemStorage.createContact] in H |- *.
    rewrite H. reflexivity.
  - exact (proj1 (getContactByMobile_after_createContact 2000 1 "222" bob
                    sample_db sample_mem sample_pairs_distinct sample_mem_wf)).
Defined.

(** ** Deleting a contact *)

Lemma jsmap_get_delete_same {V : Type} (m : JsMap.t V) k :
  JsMap.get (fst (JsMap.delete m k)) k = None.
Proof.
  unfold JsMap.delete. cbn [fst].
  induction m as [|[k' v] m IH]; [reflexivity|]. cbn.
  destruct (Z.eqb_spec k' k) as [E|N]; cbn; [exact IH|].
  destruct (Z.eqb_spec k' k); [contradiction|exact IH].
Qed.

Lemma jsmap_get_delete_other {V : Type} (m : JsMap.t V) k k' :
  k' <> k -> JsMap.get (fst (JsMap.delete m k)) k' = JsMap.get m k'.
Proof.
  intros N. unfold JsMap.delete. cbn [fst].
  induction m as [|[k0 v] m IH]; [reflexivity|]. cbn.
  destruct (Z.eqb_spec k0 k) as [E|Nk]; cbn.
  - subst. destruct (Z.eqb_spec k k'); [congruence|exact IH].
  - destruct (Z.eqb_spec k0 k'); [reflexivity|exact IH].
Qed.

Lemma select_delete_same {R : Type} (rows : list R) (p : R -> bool) :
  Drizzle.select (fst (Drizzle.delete rows p)) p = [].
Proof.
  unfold Drizzle.select, Drizzle.delete. cbn [fst]. apply filter_all_false.
  intros a Ha. apply filter_In in Ha. destruct Ha as [_ H].
  now apply negb_true_iff in H.
Qed.

Lemma select_delete_other {R : Type} (rows : list R) (p q : R -> bool) :
  (forall r, q r = true -> p r = false) ->
  Drizzle.select (fst (Drizzle.delete rows p)) q = Drizzle.select rows q.
Proof.
  intros D. unfold Drizzle.select, Drizzle.delete. cbn [fst].
  induction rows as [|r rows IH]; [reflexivity|]. cbn.
  destruct (p r) eqn:Ep; cbn.
  - destruct (q r) eqn:Eq; [rewrite (D r Eq) in Ep; discriminate|exact IH].
  - destruct (q r); now rewrite IH.
Qed.

(** X3: [deleteContact(id)] returns whether a contact was stored under the
    id; afterwards [getContactById] finds nothing under it and answers for
    every other id as before, and a second [deleteContact(id)] returns
    false and changes nothing; in both backends, with no assumption on the
    stores. *)
Theorem deleteContact_removes_only_that_contact :
  forall (id : Z) (db : DatabaseStorage.t) (st : MemStorage.t),
    (let '(r, db') := DatabaseStorage.deleteContact db id in
     r = is_some (DatabaseStorage.getContactById db id)
     /\ DatabaseStorage.getContactById db' id = None
     /\ (forall k, k <> id -> DatabaseStorage.getContactById db' k
                              = DatabaseStorage.getContactById db k)
     /\ DatabaseStorage.deleteContact db' id = (false, db'))
    /\
    (let '(r, st') := MemStorage.deleteContact st id in
     r = is_some (MemStorage.getContactById st id)
     /\ MemStorage.getContactById st' id = None
     /\ (forall k, k <> id -> MemStorage.getContactById st' k
                              = MemStorage.getContactById st k)
     /\ MemStorage.deleteContact st' id = (false, st')).
Proof.
  intros id db st. split.
  - unfold DatabaseStorage.deleteContact, DatabaseStorage.getContactById.
    set (p := fun c : Contact.t => Contact.id c =? id).
    pose proof (select_delete_same (DatabaseStorage.contacts db) p) as Same.
    unfold Drizzle.delete in *. cbn [fst] in Same.
    unfold DatabaseStorage.set_contacts at 1 2. cbn [DatabaseStorage.contacts].
    split; [|split; [|split]].
    + unfold Drizzle.select. now destruct (filter p (DatabaseStorage.contacts db)).
    + now rewrite Same.
    + intros k Hk.
      rewrite <- (select_delete_other (DatabaseStorage.contacts db) p
                    (fun c => Contact.id c =? k)); [reflexivity|].
      intros r Hr. apply Z.eqb_eq in Hr. apply Z.eqb_neq. congruence.
    + unfold DatabaseStorage.set_contacts.
      cbn [DatabaseStorage.contacts DatabaseStorage.users
           DatabaseStorage.users_id_seq DatabaseStorage.contacts_id_seq
           DatabaseStorage.campaigns DatabaseStorage.campaigns_id_seq
           DatabaseStorage.analytics DatabaseStorage.analytics_id_seq].
      unfold Drizzle.select in Same. rewrite Same. cbn [List.length Z.of_nat].
      f_equal. f_equal. apply forallb_filter_id. apply forallb_forall.
      intros x Hx. apply filter_In in Hx. apply Hx.
  - unfold MemStorage.deleteContact, MemStorage.getContactById.
    pose proof (jsmap_get_delete_same (MemStorage.contacts st) id) as Same.
    pose proof (fun k => jsmap_get_delete_other (MemStorage.contacts st) id k)
      as Other.
    unfold JsMap.delete in *. cbn [fst] in Same, Other.
    unfold MemStorage.set_contacts at 1 2. cbn [MemStorage.contacts].
    split; [reflexivity|]. split; [exact Same|]. split; [exact Other|].
    unfold MemStorage.set_contacts.
    cbn [MemStorage.contacts MemStorage.users MemStorage.campaigns
         MemStorage.analyticsData MemStorage.userCurrentId
         MemStorage.contactCurrentId MemStorage.campaignCurrentId
         MemStorage.analyticsCurrentId].
    unfold JsMap.has. rewrite Same. f_equal. f_equal.
    apply forallb_filter_id. apply forallb_forall.
    intros x Hx. apply filter_In in Hx. apply Hx.
Qed.

(** ** Updating a contact in memory *)

Lemma jsmap_set_same {V : Type} (m : JsMap.t V) k v :
  JsMap.get m k = Some v -> JsMap.set m k v = m.
Proof.
  induction m as [|[k' v'] m IH]; cbn; [discriminate|].
  destruct (Z.eqb_spec k' k) as [->|N]; intros E.
  - now injection E as ->.
  - now rewrite IH.
Qed.

Lemma mem_eta (st : MemStorage.t) :
  MemStorage.mk (MemStorage.users st) (MemStorage.contacts st)
    (MemStorage.campaigns st) (MemStorage.analyticsData st)
    (MemStorage.userCurrentId st) (MemStorage.contactCurrentId st)
    (MemStorage.campaignCurrentId st) (MemStorage.analyticsCurrentId st) = st.
Proof. now destruct st. Qed.

(** X4: [MemStorage.updateContact] on an unknown id returns undefined and
    changes nothing; on a stored contact it returns and stores the contact
    in which every key present in the partial record has the given value
    (an empty label is stored as the empty string, a null label as
    absent) and every absent key keeps its value; id and createdAt never
    change, every other contact stays as it was, and an update with no
    keys leaves the store as it was. *)
Theorem updateContact_overwrites_present_keys :
  forall (id : Z) (updateData : PartialContact.t) (st : MemStorage.t),
    match MemStorage.getContactById st id with
    | None => MemStorage.updateContact st id updateData = (None, st)
    | Some c =>
        let '(r, st') := MemStorage.updateContact st id updateData in
        exists c',
          r = Some c'
          /\ MemStorage.getContactById st' id = Some c'
          /\ (forall k, k <> id -> MemStorage.getContactById st' k
                                   = MemStorage.getContactById st k)
          /\ Contact.id c' = Contact.id c
          /\ Contact.createdAt c' = Contact.createdAt c
          /\ Contact.accountId c'
             = JS.spread (PartialContact.accountId updateData) (Contact.accountId c)
          /\ Contact.name c'
             = JS.spread (PartialContact.name updateData) (Contact.name c)
          /\ Contact.mobile c'
             = JS.spread (PartialContact.mobile updateData) (Contact.mobile c)
          /\ Contact.label c'
             = JS.spread (PartialContact.label updateData) (Contact.label c)
          /\ Contact.location c'
             = JS.spread (PartialContact.location updateData) (Contact.location c)
    end
    /\ MemStorage.updateContact st id PartialContact.empty
       = (MemStorage.getContactById st id, st).
Proof.
  intros id p st. unfold MemStorage.getContactById, MemStorage.updateContact.
  destruct (JsMap.get (MemStorage.contacts st) id) as [c|] eqn:E.
  - split.
    + eexists. split; [reflexivity|].
      unfold MemStorage.set_contacts. cbn [MemStorage.contacts].
      split; [apply get_set_same|]. split; [|repeat split].
      intros k Hk. now apply get_set_other.
    + cbn [PartialContact.empty PartialContact.accountId PartialContact.name
           PartialContact.mobile PartialContact.label PartialContact.location
           JS.spread].
      assert (Ec : Contact.mk (Contact.id c) (Contact.accountId c) (Contact.name c)
                     (Contact.mobile c) (Contact.label c) (Contact.location c)
                     (Contact.createdAt c) = c) by now destruct c.
      rewrite Ec, (jsmap_set_same _ _ _ E). unfold MemStorage.set_contacts.
      now rewrite mem_eta.
  - split; reflexivity.
Qed.

(** ** More on [importContacts] *)

Lemma db_importContacts_plain now batch :
  forall db i d,
    let '(r, db') := DatabaseStorage.importContacts_loop now false batch db i d in
    r = mkImportResult (i + Z.of_nat (List.length batch)) d
    /\ Z.of_nat (List.length (DatabaseStorage.contacts db'))
       = Z.of_nat (List.length (DatabaseStorage.contacts db))
         + Z.of_nat (List.length batch)
    /\ DatabaseStorage.contacts_id_seq db'
       = DatabaseStorage.contacts_id_seq db + Z.of_nat (List.length batch).
Proof.
  induction batch as [|c rest IH]; intros db i d.
  - cbn. repeat split; [f_equal|..]; lia.
  - cbn [DatabaseStorage.importContacts_loop List.length].
    assert (Len : Z.of_nat (List.length
                    (DatabaseStorage.contacts
                       (snd (DatabaseStorage.createContact now db c))))
                  = Z.of_nat (List.length (DatabaseStorage.contacts db)) + 1).
    { unfold DatabaseStorage.createContact, Drizzle.insert.
      storage_simpl. rewrite length_app. cbn [List.length]. lia. }
    assert (Sq : DatabaseStorage.contacts_id_seq
                   (snd (DatabaseStorage.createContact now db c))
                 = DatabaseStorage.contacts_id_seq db + 1) by reflexivity.
    destruct (DatabaseStorage.createContact now db c) as [x db1].
    cbn [snd] in Len, Sq. specialize (IH db1 (i + 1) d).
    destruct (DatabaseStorage.importContacts_loop now false rest db1 (i + 1) d)
      as [r db'].
    destruct IH as (-> & L & S). repeat split; [f_equal|..]; lia.
Qed.

(** X5: with [deduplicateByMobile = false], [importContacts] inserts every
    record: a batch of N records gives [{imported: N, duplicates: 0}], the
    contact collection grows by N and the id counter advances by N,
    whatever is stored already; in both backends (the in-memory one on a
    well-formed store). *)
Theorem importContacts_without_deduplication :
  forall (now : Z) (batch : list InsertContact.t)
         (db : DatabaseStorage.t) (st : MemStorage.t),
    mem_wf st ->
    let n := Z.of_nat (List.length batch) in
    (let '(r, db') := DatabaseStorage.importContacts now db batch false in
     r = mkImportResult n 0
     /\ Z.of_nat (List.length (DatabaseStorage.contacts db'))
        = Z.of_nat (List.length (DatabaseStorage.contacts db)) + n
     /\ DatabaseStorage.contacts_id_seq db'
        = DatabaseStorage.contacts_id_seq db + n)
    /\
    (let '(r, st') := MemStorage.importContacts now st batch false in
     r = mkImportResult n 0
     /\ Z.of_nat (List.length (MemStorage.contacts st'))
        = Z.of_nat (List.length (MemStorage.contacts st)) + n
     /\ MemStorage.contactCurrentId st' = MemStorage.contactCurrentId st + n).
Proof.
  intros now batch db st W n. split.
  - exact (db_importContacts_plain now batch db 0 0).
  - pose proof (db_importContacts_plain now batch (tables_of st) 0 0) as Sp.
    pose proof (sim_importContacts_loop now false batch st 0 0 W) as Sim.
    unfold MemStorage.importContacts.
    destruct (MemStorage.importContacts_loop now false batch st 0 0) as [r st'].
    destruct Sim as [Sim _]. rewrite Sim in Sp. destruct Sp as (R & L & S).
    split; [exact R|]. split; [|exact S].
    cbn [tables_of DatabaseStorage.contacts] in L.
    unfold JsMap.values in L. rewrite !length_map in L. exact L.
Qed.

Lemma importContacts_without_deduplication_witness :
  let '(r, st') := MemStorage.importContacts 2000 sample_mem [alice; alice] false in
  r = mkImportResult 2 0
  /\ Z.of_nat (List.length (MemStorage.contacts st')) = 1 + 2
  /\ MemStorage.contactCurrentId st' = 2 + 2.
Proof.
  exact (proj2 (importContacts_without_deduplication 2000 [alice; alice]
                  sample_db sample_mem sample_mem_wf)).
Defined.

Lemma key_seen_In seen k : key_seen seen k = true <-> In k seen.
Proof.
  unfold key_seen. rewrite existsb_exists. split.
  - intros [x [Hx E]]. apply key_eqb_eq in E. now subst.
  - intros H. exists k. split; [exact H|]. now apply key_eqb_eq.
Qed.

Lemma db_createContact_keys now db c :
  map stored_key (DatabaseStorage.contacts (snd (DatabaseStorage.createContact now db c)))
  = map stored_key (DatabaseStorage.contacts db) ++ [contact_key c].
Proof.
  unfold DatabaseStorage.createContact, Drizzle.insert. storage_simpl.
  now rewrite map_app.
Qed.

Lemma db_importContacts_dedup_keys now batch :
  forall db i d,
    let stored db := map stored_key (DatabaseStorage.contacts db) in
    let db' := snd (DatabaseStorage.importContacts_loop now true batch db i d) in
    (forall k, In k (stored db) -> In k (stored db'))
    /\ (forall c, In c batch -> In (contact_key c) (stored db'))
    /\ (NoDup (stored db) -> NoDup (stored db')).
Proof.
  induction batch as [|c rest IH]; intros db i d; cbv zeta.
  - cbn. repeat split; auto. intros c [].
  - cbn [DatabaseStorage.importContacts_loop].
    pose proof (db_getContactByMobile_seen db c) as P.
    destruct (DatabaseStorage.getContactByMobile db _ _) as [x|].
    + symmetry in P. apply key_seen_In in P.
      destruct (IH db i (d + 1)) as (M & C & N). cbv zeta in M, C, N.
      split; [exact M|]. split; [|exact N].
      intros c0 [<-|H]; [now apply M|now apply C].
    + assert (Nin : ~ In (contact_key c) (map stored_key (DatabaseStorage.contacts db))).
      { intros H. apply key_seen_In in H. congruence. }
      pose proof (db_createContact_keys now db c) as K.
      destruct (DatabaseStorage.createContact now db c) as [x db1]. cbn [snd] in K.
      destruct (IH db1 (i + 1) d) as (M & C & N). cbv zeta in M, C, N.
      split; [|split].
      * intros k Hk. apply M. rewrite K. apply in_or_app. now left.
      * intros c0 [<-|H]; [|now apply C].
        apply M. rewrite K. apply in_or_app. right. now left.
      * intros Nd. apply N. rewrite K.
        apply NoDup_app; [exact Nd|repeat constructor; cbn; tauto|].
        intros k Hk [<-|[]]. contradiction.
Qed.

Lemma db_importContacts_all_seen now batch :
  forall db i d,
    (forall c, In c batch ->
               In (contact_key c) (map stored_key (DatabaseStorage.contacts db))) ->
    DatabaseStorage.importContacts_loop now true batch db i d
    = (mkImportResult i (d + Z.of_nat (List.length batch)), db).
Proof.
  induction batch as [|c rest IH]; intros db i d A.
  - cbn. now rewrite Z.add_0_r.
  - cbn [DatabaseStorage.importContacts_loop List.length].
    pose proof (db_getContactByMobile_seen db c) as P.
    assert (S : key_seen (map stored_key (DatabaseStorage.contacts db)) (contact_key c)
                = true) by (apply key_seen_In, A; now left).
    rewrite S in P.
    destruct (DatabaseStorage.getContactByMobile db _ _); [|discriminate].
    rewrite IH by (intros c0 H; apply A; now right).
    do 2 f_equal. lia.
Qed.

Lemma mem_importContacts_all_seen now batch :
  forall st i d,
    (forall c, In c batch ->
               In (contact_key c)
                  (map stored_key (JsMap.values (MemStorage.contacts st)))) ->
    MemStorage.importContacts_loop now true batch st i d
    = (mkImportResult i (d + Z.of_nat (List.length batch)), st).
Proof.
  induction batch as [|c rest IH]; intros st i d A.
  - cbn. now rewrite Z.add_0_r.
  - cbn [MemStorage.importContacts_loop List.length].
    pose proof (db_getContactByMobile_seen (tables_of st) c) as P.
    rewrite <- sim_getContactByMobile in P.
    assert (S : key_seen (map stored_key (JsMap.values (MemStorage.contacts st)))
                  (contact_key c) = true) by (apply key_seen_In, A; now left).
    cbn [tables_of DatabaseStorage.contacts] in P. rewrite S in P.
    destruct (MemStorage.getContactByMobile st _ _); [|discriminate].
    rewrite IH by (intros c0 H; apply A; now right).
    do 2 f_equal. lia.
Qed.

(** X6: importing with [deduplicateByMobile = true] is idempotent: when
    the same batch is imported a second time, at any later time, every one
    of its N records counts as a duplicate, the result is [{imported: 0,
    duplicates: N}] and the store is left as the first import left it; in
    both backends (the in-memory one on a well-formed store). *)
Theorem importContacts_twice_imports_nothing :
  forall (now later : Z) (batch : list InsertContact.t)
         (db : DatabaseStorage.t) (st : MemStorage.t),
    mem_wf st ->
    let n := Z.of_nat (List.length batch) in
    (let db1 := snd (DatabaseStorage.importContacts now db batch true) in
     DatabaseStorage.importContacts later db1 batch true
     = (mkImportResult 0 n, db1))
    /\
    (let st1 := snd (MemStorage.importContacts now st batch true) in
     MemStorage.importContacts later st1 batch true
     = (mkImportResult 0 n, st1)).
Proof.
  intros now later batch db st W n. split.
  - cbv zeta. unfold DatabaseStorage.importContacts.
    destruct (db_importContacts_dedup_keys now batch db 0 0) as (_ & C & _).
    cbv zeta in C. now rewrite db_importContacts_all_seen.
  - cbv zeta. unfold MemStorage.importContacts.
    pose proof (sim_importContacts_loop now true batch st 0 0 W) as S1.
    destruct (db_importContacts_dedup_keys now batch (tables_of st) 0 0)
      as (_ & C & _). cbv zeta in C.
    destruct (MemStorage.importContacts_loop now true batch st 0 0) as [r1 st1].
    destruct S1 as [S1 W1]. rewrite S1 in C. cbn [snd] in C |- *.
    cbn [tables_of DatabaseStorage.contacts] in C.
    exact (mem_importContacts_all_seen later batch st1 0 0 C).
Qed.

Lemma importContacts_twice_imports_nothing_witness :
  MemStorage.importContacts 3000
    (snd (MemStorage.importContacts 2000 sample_mem [bob; bob; alice] true))
    [bob; bob; alice] true
  = (mkImportResult 0 3,
     snd (MemStorage.importContacts 2000 sample_mem [bob; bob; alice] true)).
Proof.
  exact (proj2 (importContacts_twice_imports_nothing 2000 3000 [bob; bob; alice]
                  sample_db sample_mem sample_mem_wf)).
Defined.

(** X7: importing with [deduplicateByMobile = true] never creates a second
    contact for a (mobile, accountId) pair: when the stored pairs are
    pairwise distinct before the call they are pairwise distinct after it,
    every pair stored before is still stored, and every pair of the batch
    is stored afterwards; in both backends (the in-memory one on a
    well-formed store). *)
Theorem importContacts_keeps_pairs_distinct :
  forall (now : Z) (batch : list InsertContact.t)
         (db : DatabaseStorage.t) (st : MemStorage.t),
    mem_wf st ->
    NoDup (map stored_key (DatabaseStorage.contacts db)) ->
    NoDup (map stored_key (JsMap.values (MemStorage.contacts st))) ->
    (let db' := snd (DatabaseStorage.importContacts now db batch true) in
     NoDup (map stored_key (DatabaseStorage.contacts db'))
     /\ (forall k, In k (map stored_key (DatabaseStorage.contacts db)) ->
                   In k (map stored_key (DatabaseStorage.contacts db')))
     /\ (forall c, In c batch ->
                   In (contact_key c) (map stored_key (DatabaseStorage.contacts db'))))
    /\
    (let st' := snd (MemStorage.importContacts now st batch true) in
     NoDup (map stored_key (JsMap.values (MemStorage.contacts st')))
     /\ (forall k, In k (map stored_key (JsMap.values (MemStorage.contacts st))) ->
                   In k (map stored_key (JsMap.values (MemStorage.contacts st'))))
     /\ (forall c, In c batch ->
                   In (contact_key c)
                      (map stored_key (JsMap.values (MemStorage.contacts st'))))).
Proof.
  intros now batch db st W Nd Nm. split.
  - cbv zeta. unfold DatabaseStorage.importContacts.
    destruct (db_importContacts_dedup_keys now batch db 0 0) as (M & C & N).
    cbv zeta in M, C, N. split; [now apply N|]. split; assumption.
  - cbv zeta. unfold MemStorage.importContacts.
    pose proof (sim_importContacts_loop now true batch st 0 0 W) as S1.
    destruct (db_importContacts_dedup_keys now batch (tables_of st) 0 0)
      as (M & C & N). cbv zeta in M, C, N.
    destruct (MemStorage.importContacts_loop now true batch st 0 0) as [r1 st1].
    destruct S1 as [S1 _]. rewrite S1 in M, C, N.
    cbn [snd tables_of DatabaseStorage.contacts] in M, C, N |- *.
    split; [now apply N|]. split; assumption.
Qed.

Lemma importContacts_keeps_pairs_distinct_witness :
  NoDup (map stored_key
           (JsMap.values
              (MemStorage.contacts
                 (snd (MemStorage.importContacts 2000 sample_mem [bob; bob; alice]
                         true))))).
Proof.
  refine (proj1 (proj2 (importContacts_keeps_pairs_distinct 2000 [bob; bob; alice]
                          sample_db sample_mem sample_mem_wf _ _)));
    repeat constructor; cbn; tauto.
Defined.

(** ** Listings stay inside the account *)

Lemma in_select_and {R : Type} (a p : R -> bool) (rows : list R) x :
  In x (Drizzle.select rows (fun r => a r && p r)) ->
  a x = true /\ In x (Drizzle.select rows a).
Proof.
  unfold Drizzle.select. rewrite !filter_In, andb_true_iff. tauto.
Qed.

Lemma in_filter_base {R : Type} (p : R -> bool) (l : list R) x :
  In x (filter p l) -> In x l.
Proof. rewrite filter_In. tauto. Qed.

Lemma db_getContacts_in_account tz now startDate db accountId filters c :
  In c (DatabaseStorage.getContacts tz now startDate db accountId filters) ->
  Contact.accountId c = accountId
  /\ In c (DatabaseStorage.getContacts tz now startDate db accountId None).
Proof.
  assert (B : In c (Drizzle.select (DatabaseStorage.contacts db)
                      (fun c => Contact.accountId c =? accountId)) ->
              Contact.accountId c = accountId
              /\ In c (DatabaseStorage.getContacts tz now startDate db accountId None)).
  { intros H. split; [|exact H]. unfold Drizzle.select in H.
    apply filter_In in H. now apply Z.eqb_eq. }
  unfold DatabaseStorage.getContacts at 1. destruct filters as [f|]; [|exact B].
  repeat match goal with
         | |- In _ match ?o with Some _ => _ | None => _ end -> _ => destruct o
         end;
    try exact B; intros H; apply in_select_and in H; apply B, H.
Qed.

Lemma db_getCampaigns_in_account tz now startDate db accountId filters c :
  In c (DatabaseStorage.getCampaigns tz now startDate db accountId filters) ->
  Campaign.accountId c = accountId
  /\ In c (DatabaseStorage.getCampaigns tz now startDate db accountId None).
Proof.
  assert (B : In c (Drizzle.select (DatabaseStorage.campaigns db)
                      (fun c => Campaign.accountId c =? accountId)) ->
              Campaign.accountId c = accountId
              /\ In c (DatabaseStorage.getCampaigns tz now startDate db accountId None)).
  { intros H. split; [|exact H]. unfold Drizzle.select in H.
    apply filter_In in H. now apply Z.eqb_eq. }
  unfold DatabaseStorage.getCampaigns at 1. destruct filters as [f|]; [|exact B].
  repeat match goal with
         | |- In _ match ?o with Some _ => _ | None => _ end -> _ => destruct o
         end;
    try exact B; intros H; apply in_select_and in H; apply B, H.
Qed.

Lemma mem_getContacts_in_account toLowerCase tz now startDate st accountId
  filters c :
  In c (MemStorage.getContacts toLowerCase tz now startDate st accountId filters) ->
  Contact.accountId c = accountId
  /\ In c (MemStorage.getContacts toLowerCase tz now startDate st accountId None).
Proof.
  assert (B : In c (MemStorage.getContacts toLowerCase tz now startDate st accountId None) ->
              Contact.accountId c = accountId
              /\ In c (MemStorage.getContacts toLowerCase tz now startDate st accountId None)).
  { intros H. split; [|exact H]. unfold MemStorage.getContacts in H.
    apply filter_In in H. now apply Z.eqb_eq. }
  destruct filters as [f|]; [|exact B].
  intros H. apply B. unfold MemStorage.getContacts in H |- *. cbv zeta in H.
  repeat match type of H with
         | In _ match ?o with Some _ => _ | None => _ end =>
             destruct o; [apply in_filter_base in H|]
         end; exact H.
Qed.

Lemma mem_getCampaigns_in_account toLowerCase tz now startDate st accountId
  filters c :
  In c (MemStorage.getCampaigns toLowerCase tz now startDate st accountId filters) ->
  Campaign.accountId c = accountId
  /\ In c (MemStorage.getCampaigns toLowerCase tz now startDate st accountId None).
Proof.
  assert (B : In c (MemStorage.getCampaigns toLowerCase tz now startDate st accountId None) ->
              Campaign.accountId c = accountId
              /\ In c (MemStorage.getCampaigns toLowerCase tz now startDate st accountId None)).
  { intros H. split; [|exact H]. unfold MemStorage.getCampaigns in H.
    apply filter_In in H. now apply Z.eqb_eq. }
  destruct filters as [f|]; [|exact B].
  intros H. apply B. unfold MemStorage.getCampaigns in H |- *. cbv zeta in H.
  repeat match type of H with
         | In _ match ?o with Some _ => _ | None => _ end =>
             destruct o; [apply in_filter_base in H|]
         end; exact H.
Qed.

(** X8: whatever the filters, [getContacts] and [getCampaigns] return only
    records of the requested account, each of them a record of the
    unfiltered listing of that account: no combination of filter values
    reaches another account's data; in both backends. *)
Theorem listings_never_leave_the_account :
  forall (toLowerCase : string -> string) (tz : JSDate.zone)
         (now startDate accountId : Z)
         (contactFilters : option ContactFilters.t)
         (campaignFilters : option CampaignFilters.t)
         (db : DatabaseStorage.t) (st : MemStorage.t),
    (forall c,
        In c (DatabaseStorage.getContacts tz now startDate db accountId contactFilters) ->
        Contact.accountId c = accountId
        /\ In c (DatabaseStorage.getContacts tz now startDate db accountId None))
    /\ (forall c,
           In c (MemStorage.getContacts toLowerCase tz now startDate st accountId contactFilters) ->
           Contact.accountId c = accountId
           /\ In c (MemStorage.getContacts toLowerCase tz now startDate st accountId None))
    /\ (forall c,
           In c (DatabaseStorage.getCampaigns tz now startDate db accountId campaignFilters) ->
           Campaign.accountId c = accountId
           /\ In c (DatabaseStorage.getCampaigns tz now startDate db accountId None))
    /\ (forall c,
           In c (MemStorage.getCampaigns toLowerCase tz now startDate st accountId campaignFilters) ->
           Campaign.accountId c = accountId
           /\ In c (MemStorage.getCampaigns toLowerCase tz now startDate st accountId None)).
Proof.
  intros. split; [|split; [|split]]; intros c.
  - apply db_getContacts_in_account.
  - apply mem_getContacts_in_account.
  - apply db_getCampaigns_in_account.
  - apply mem_getCampaigns_in_account.
Qed.

(** X9: a filters object in which every field is absent or the empty
    string filters nothing: the listing is the unfiltered listing of the
    account; for contacts and campaigns, in both backends. *)
Theorem blank_filters_list_everything :
  forall (toLowerCase : string -> string) (tz : JSDate.zone)
         (now startDate accountId : Z)
         (f : ContactFilters.t) (g : CampaignFilters.t)
         (db : DatabaseStorage.t) (st : MemStorage.t),
    no_contact_filter f = true ->
    no_campaign_filter g = true ->
    DatabaseStorage.getContacts tz now startDate db accountId (Some f)
    = DatabaseStorage.getContacts tz now startDate db accountId None
    /\ MemStorage.getContacts toLowerCase tz now startDate st accountId (Some f)
       = MemStorage.getContacts toLowerCase tz now startDate st accountId None
    /\ DatabaseStorage.getCampaigns tz now startDate db accountId (Some g)
       = DatabaseStorage.getCampaigns tz now startDate db accountId None
    /\ MemStorage.getCampaigns toLowerCase tz now startDate st accountId (Some g)
       = MemStorage.getCampaigns toLowerCase tz now startDate st accountId None.
Proof.
  intros toLowerCase tz now startDate accountId f g db st Hf Hg.
  unfold no_contact_filter, no_campaign_filter in *.
  apply andb_true_iff in Hf. destruct Hf as [Hf F4].
  apply andb_true_iff in Hf. destruct Hf as [Hf F3].
  apply andb_true_iff in Hf. destruct Hf as [F1 F2].
  apply andb_true_iff in Hg. destruct Hg as [Hg G3].
  apply andb_true_iff in Hg. destruct Hg as [G1 G2].
  apply negb_true_iff in F1, F2, F3, F4, G1, G2, G3.
  unfold DatabaseStorage.getContacts, MemStorage.getContacts,
    DatabaseStorage.getCampaigns, MemStorage.getCampaigns.
  rewrite !(or_null_falsy _ F1), !(or_null_falsy _ F2), !(or_null_falsy _ F3),
    !(or_null_falsy _ F4), !(or_null_falsy _ G1), !(or_null_falsy _ G2),
    !(or_null_falsy _ G3).
  repeat split.
Qed.

Lemma blank_filters_list_everything_witness :
  MemStorage.getContacts JS.toLowerCase (JSDate.fixed 0) 2000 2000 sample_mem 1
    (Some (ContactFilters.mk (Some "") None (Some "") None))
  = MemStorage.getContacts JS.toLowerCase (JSDate.fixed 0) 2000 2000 sample_mem 1
      None.
Proof.
  exact (proj1 (proj2 (blank_filters_list_everything JS.toLowerCase
                         (JSDate.fixed 0) 2000 2000 1
                         (ContactFilters.mk (Some "") None (Some "") None)
                         (CampaignFilters.mk None (Some "") None)
                         sample_db sample_mem eq_refl eq_refl))).
Defined.

(** ** Widening a date range; searching *)

Lemma dateRangeStart_order tz tza now startDate :
  constant_offset tz tza ->
  same_local_day tz now startDate ->
  dateRangeStart tz now startDate "last-year"
  <= dateRangeStart tz now startDate "last-month"
  /\ dateRangeStart tz now startDate "last-month"
     <= dateRangeStart tz now startDate "last-week"
  /\ dateRangeStart tz now startDate "last-week"
     <= dateRangeStart tz now startDate "today"
  /\ dateRangeStart tz now startDate "today" <= startDate.
Proof.
  intros C S.
  pose proof (dateRangeStart_bounds tz tza now startDate C S)
    as ((_ & B) & W & (M & R) & Y).
  revert B W M R Y.
  generalize (dateRangeStart tz now startDate "today")
    (dateRangeStart tz now startDate "last-week")
    (dateRangeStart tz now startDate "last-month")
    (dateRangeStart tz now startDate "last-year")
    (previous_month_length tz startDate).
  unfold JSDate.msPerDay. intros; lia.
Qed.

Lemma filter_since_mono {A : Type} (t : A -> Z) (s1 s2 : Z) (base : list A) x :
  s2 <= s1 ->
  In x (filter (fun c => s1 <=? t c) base) ->
  In x (filter (fun c => s2 <=? t c) base).
Proof.
  intros L. rewrite !filter_In, !Z.leb_le. intros [I H]. split; [exact I|lia].
Qed.

Lemma widening_since {A : Type} (t : A -> Z) (base : list A) tz tza now startDate
  (listing : string -> list A) :
  constant_offset tz tza ->
  same_local_day tz now startDate ->
  (forall r, r <> "" ->
             listing r
             = filter (fun c => dateRangeStart tz now startDate r <=? t c) base) ->
  widening listing.
Proof.
  intros C S E x.
  pose proof (dateRangeStart_order tz tza now startDate C S) as (Y & M & W & _).
  rewrite !E by discriminate.
  split; [|split]; apply filter_since_mono; assumption.
Qed.

(** X10: in a time zone whose offset from UTC does not change, and when
    the two clock readings of the call fall on the same local day, the four
    recognized date ranges are nested: every record listed for "today" is
    listed for "last-week", every one of "last-week" for "last-month", and
    every one of "last-month" for "last-year"; for contacts and campaigns,
    in both backends. *)
Theorem date_ranges_are_nested :
  forall (toLowerCase : string -> string) (tz : JSDate.zone)
         (tza now startDate accountId : Z)
         (db : DatabaseStorage.t) (st : MemStorage.t),
    constant_offset tz tza ->
    same_local_day tz now startDate ->
    widening (fun r => DatabaseStorage.getContacts tz now startDate db accountId
                         (contacts_since r))
    /\ widening (fun r => DatabaseStorage.getCampaigns tz now startDate db accountId
                            (campaigns_since r))
    /\ widening (fun r => MemStorage.getContacts toLowerCase tz now startDate st
                            accountId (contacts_since r))
    /\ widening (fun r => MemStorage.getCampaigns toLowerCase tz now startDate st
                            accountId (campaigns_since r)).
Proof.
  intros toLowerCase tz tza now startDate accountId db st C S.
  split; [|split; [|split]].
  - eapply (widening_since _ _ tz tza now startDate _ C S).
    intros r N. apply db_getContacts_since, N.
  - eapply (widening_since _ _ tz tza now startDate _ C S).
    intros r N. apply db_getCampaigns_since, N.
  - eapply (widening_since _ _ tz tza now startDate _ C S).
    intros r N. apply mem_getContacts_since, N.
  - eapply (widening_since _ _ tz tza now startDate _ C S).
    intros r N. apply mem_getCampaigns_since, N.
Qed.

Lemma date_ranges_are_nested_witness :
  In (Contact.mk 1 1 "alice" "111" (Some "other") None 1000)
    (MemStorage.getContacts JS.toLowerCase (JSDate.fixed 0) 2000 2001 sample_mem 1
       (contacts_since "last-week")).
Proof.
  apply (proj1 (proj1 (proj2 (proj2
           (date_ranges_are_nested JS.toLowerCase (JSDate.fixed 0) 0 2000 2001 1
              sample_db sample_mem (fun _ _ => eq_refl) eq_refl)))
           (Contact.mk 1 1 "alice" "111" (Some "other") None 1000))).
  left. reflexivity.
Defined.

Lemma db_getContacts_matching tz now startDate db accountId term :
  term <> "" ->
  DatabaseStorage.getContacts tz now startDate db accountId (contacts_matching term)
  = filter (fun c => SQL.like (Contact.name c) ("%" ++ term ++ "%")
                     || SQL.like (Contact.mobile c) ("%" ++ term ++ "%"))
      (DatabaseStorage.getContacts tz now startDate db accountId None).
Proof.
  intros N. pose proof (truthy_nonempty term N) as T.
  unfold DatabaseStorage.getContacts, contacts_matching, Drizzle.select.
  cbn [ContactFilters.search]. rewrite T. cbv zeta. apply filter_and.
Qed.

Lemma db_getCampaigns_matching tz now startDate db accountId term :
  term <> "" ->
  DatabaseStorage.getCampaigns tz now startDate db accountId (campaigns_matching term)
  = filter (fun c => SQL.like (Campaign.name c) ("%" ++ term ++ "%"))
      (DatabaseStorage.getCampaigns tz now startDate db accountId None).
Proof.
  intros N. pose proof (truthy_nonempty term N) as T.
  unfold DatabaseStorage.getCampaigns, campaigns_matching, Drizzle.select.
  cbn [CampaignFilters.search]. rewrite T. cbv zeta. apply filter_and.
Qed.

(** X11: in the relational backend a search term without the
    metacharacters of LIKE (percent sign, underscore, backslash) selects
    the records of the account whose name contains the term as written,
    letter case included; for contacts also those whose mobile contains
    it. *)
Theorem db_search_is_case_sensitive_substring :
  forall (tz : JSDate.zone) (now startDate accountId : Z) (term : string)
         (db : DatabaseStorage.t),
    term <> "" ->
    plain term = true ->
    DatabaseStorage.getContacts tz now startDate db accountId (contacts_matching term)
    = filter (fun c => JS.includes (Contact.name c) term
                       || JS.includes (Contact.mobile c) term)
        (DatabaseStorage.getContacts tz now startDate db accountId None)
    /\ DatabaseStorage.getCampaigns tz now startDate db accountId (campaigns_matching term)
       = filter (fun c => JS.includes (Campaign.name c) term)
           (DatabaseStorage.getCampaigns tz now startDate db accountId None).
Proof.
  intros tz now startDate accountId term db N P. split.
  - rewrite (db_getContacts_matching _ _ _ _ _ _ N). apply filter_ext.
    intros c. now rewrite !(like_contains term _ P).
  - rewrite (db_getCampaigns_matching _ _ _ _ _ _ N). apply filter_ext.
    intros c. now rewrite !(like_contains term _ P).
Qed.

Lemma db_search_is_case_sensitive_substring_witness :
  DatabaseStorage.getContacts (JSDate.fixed 0) 2000 2000 sample_db 1 (contacts_matching "Ali")
  = filter (fun c => JS.includes (Contact.name c) "Ali"
                     || JS.includes (Contact.mobile c) "Ali")
      (DatabaseStorage.getContacts (JSDate.fixed 0) 2000 2000 sample_db 1 None).
Proof.
  refine (proj1 (db_search_is_case_sensitive_substring (JSDate.fixed 0) 2000 2000
                   1 "Ali" sample_db
                   _ eq_refl)).
  discriminate.
Defined.

Lemma like_all_percent (p : string) :
  all_percent p = true -> p <> "" -> forall s, SQL.like_pattern p s = true.
Proof.
  induction p as [|c p IH]; intros A N s; [contradiction|].
  cbn [all_percent] in A. apply andb_true_iff in A. destruct A as [C A].
  apply Ascii.eqb_eq in C. subst c.
  destruct p as [|d p]; [apply like_percent_all|].
  assert (H : forall s, SQL.like_pattern (String d p) s = true).
  { intros s'. apply IH; [exact A|discriminate]. }
  destruct s as [|e r].
  - change (SQL.like_pattern (String "%" (String d p)) "")
      with (SQL.like_pattern (String d p) "" || false).
    now rewrite H.
  - change (SQL.like_pattern (String "%" (String d p)) (String e r))
      with (SQL.like_pattern (String d p) (String e r)
            || SQL.like_pattern (String "%" (String d p)) r).
    now rewrite H.
Qed.

Lemma all_percent_wrapped (term : string) :
  all_percent term = true -> all_percent ("%" ++ term ++ "%") = true.
Proof.
  intros A. cbn [String.append all_percent Ascii.eqb Bool.eqb]. cbn [andb].
  induction term as [|c r IH]; [reflexivity|].
  cbn [all_percent] in A. apply andb_true_iff in A. destruct A as [C A].
  cbn [String.append all_percent]. rewrite C. exact (IH A).
Qed.

(** X12: in the relational backend the search term reaches LIKE
    unescaped: a term made of percent signs only matches every name, so
    the search lists every record of the account. *)
Theorem db_search_percent_lists_everything :
  forall (tz : JSDate.zone) (now startDate accountId : Z) (term : string)
         (db : DatabaseStorage.t),
    term <> "" ->
    all_percent term = true ->
    DatabaseStorage.getContacts tz now startDate db accountId (contacts_matching term)
    = DatabaseStorage.getContacts tz now startDate db accountId None
    /\ DatabaseStorage.getCampaigns tz now startDate db accountId (campaigns_matching term)
       = DatabaseStorage.getCampaigns tz now startDate db accountId None.
Proof.
  intros tz now startDate accountId term db N A.
  assert (L : forall s, SQL.like s ("%" ++ term ++ "%") = true).
  { intros s. unfold SQL.like.
    apply like_all_percent; [now apply all_percent_wrapped|discriminate]. }
  split.
  - rewrite (db_getContacts_matching _ _ _ _ _ _ N).
    apply forallb_filter_id, forallb_forall. intros c _. now rewrite L.
  - rewrite (db_getCampaigns_matching _ _ _ _ _ _ N).
    apply forallb_filter_id, forallb_forall. intros c _. now rewrite L.
Qed.

Lemma db_search_percent_lists_everything_witness :
  DatabaseStorage.getContacts (JSDate.fixed 0) 2000 2000 sample_db 1 (contacts_matching "%")
  = DatabaseStorage.getContacts (JSDate.fixed 0) 2000 2000 sample_db 1 None.
Proof.
  refine (proj1 (db_search_percent_lists_everything (JSDate.fixed 0) 2000 2000 1
                   "%" sample_db
                   _ eq_refl)).
  discriminate.
Defined.



Lemma prefix_lower (t s : string) :
  String.prefix t s = true ->
  String.prefix (JS.toLowerCase t) (JS.toLowerCase s) = true.
Proof.
  revert s. induction t as [|a t IH]; intros s H; [now destruct s|].
  destruct s as [|b s]; [discriminate|].
  cbn [String.prefix JS.toLowerCase] in H |- *.
  destruct (ascii_dec a b) as [->|]; [|discriminate].
  destruct (ascii_dec (JS.lower_ascii b) (JS.lower_ascii b)); [|contradiction].
  now apply IH.
Qed.

Lemma includes_lower (s t : string) :
  JS.includes s t = true ->
  JS.includes (JS.toLowerCase s) (JS.toLowerCase t) = true.
Proof.
  induction s as [|a s IH]; cbn [JS.includes JS.toLowerCase].
  - destruct (String.prefix t "") eqn:P; [|discriminate].
    intros _. change "" with (JS.toLowerCase ""). now rewrite (prefix_lower _ _ P).
  - destruct (String.prefix t (String a s)) eqn:P.
    + intros _. change (String (JS.lower_ascii a) (JS.toLowerCase s))
        with (JS.toLowerCase (String a s)).
      now rewrite (prefix_lower _ _ P).
    + intros H.
      destruct (String.prefix (JS.toLowerCase t)
                  (String (JS.lower_ascii a) (JS.toLowerCase s)));
        [reflexivity|now apply IH].
Qed.

Lemma includes_lowered toLowerCase (s t : string) :
  lowers_ascii toLowerCase ->
  ascii_only s = true -> ascii_only t = true ->
  JS.includes s t = true ->
  JS.includes (toLowerCase s) (toLowerCase t) = true.
Proof.
  intros L As At H. rewrite (L s As), (L t At). now apply includes_lower.
Qed.

(** X14: on the same records, when the names and mobiles of the records
    and the search term are ASCII text and the term holds no LIKE
    metacharacter, whatever the relational backend finds the in-memory
    backend finds too; the lowering function is any function that lowers
    ASCII text as [String.prototype.toLowerCase] does. *)
Theorem db_search_results_found_in_memory :
  forall (toLowerCase : string -> string) (tz : JSDate.zone)
         (now startDate accountId : Z) (term : string) (st : MemStorage.t),
    lowers_ascii toLowerCase ->
    ascii_records st = true ->
    ascii_only term = true ->
    plain term = true ->
    (forall c,
        In c (DatabaseStorage.getContacts tz now startDate (tables_of st)
                accountId (contacts_matching term)) ->
        In c (MemStorage.getContacts toLowerCase tz now startDate st accountId
                (contacts_matching term)))
    /\ (forall c,
           In c (DatabaseStorage.getCampaigns tz now startDate (tables_of st)
                   accountId (campaigns_matching term)) ->
           In c (MemStorage.getCampaigns toLowerCase tz now startDate st accountId
                   (campaigns_matching term))).
Proof.
  intros toLowerCase tz now startDate accountId term st L Ar At P.
  destruct (String.eqb_spec term "") as [->|N]; [split; intros c H; exact H|].
  pose proof (truthy_nonempty term N) as T.
  unfold ascii_records in Ar. apply andb_true_iff in Ar.
  destruct Ar as [Ac Ag]. rewrite forallb_forall in Ac, Ag.
  split; intros c.
  - rewrite (db_getContacts_matching _ _ _ _ _ _ N).
    unfold MemStorage.getContacts, contacts_matching.
    cbn [ContactFilters.search ContactFilters.label ContactFilters.location
         ContactFilters.dateRange].
    rewrite T. cbn [JS.or_null JS.truthy]. cbv zeta.
    change (DatabaseStorage.getContacts tz now startDate (tables_of st) accountId
              None)
      with (filter (fun contact => Contact.accountId contact =? accountId)
              (JsMap.values (MemStorage.contacts st))).
    rewrite !filter_In, !(like_contains term _ P), !orb_true_iff.
    intros [I H]. split; [exact I|].
    pose proof (Ac c (proj1 I)) as A. apply andb_true_iff in A.
    destruct A as [An Am].
    destruct H as [H|H]; [left|right]; now apply includes_lowered.
  - rewrite (db_getCampaigns_matching _ _ _ _ _ _ N).
    unfold MemStorage.getCampaigns, campaigns_matching.
    cbn [CampaignFilters.search CampaignFilters.status CampaignFilters.dateRange].
    rewrite T. cbn [JS.or_null JS.truthy]. cbv zeta.
    change (DatabaseStorage.getCampaigns tz now startDate (tables_of st) accountId
              None)
      with (filter (fun c => Campaign.accountId c =? accountId)
              (JsMap.values (MemStorage.campaigns st))).
    rewrite !filter_In, !(like_contains term _ P).
    intros [I H]. split; [exact I|].
    apply includes_lowered; [exact L|exact (Ag c (proj1 I))|exact At|exact H].
Qed.

Lemma db_search_results_found_in_memory_witness :
  In (Contact.mk 1 1 "alice" "111" (Some "other") None 1000)
    (MemStorage.getContacts JS.toLowerCase (JSDate.fixed 0) 2000 2000 sample_mem 1
       (contacts_matching "ali")).
Proof.
  apply (proj1 (db_search_results_found_in_memory JS.toLowerCase (JSDate.fixed 0)
                  2000 2000 1 "ali" sample_mem (fun _ _ => eq_refl)
                  eq_refl eq_refl eq_refl)).
  left. reflexivity.
Defined.

(** ** The life of a campaign in the in-memory backend *)

(** X15: [MemStorage.updateCampaign] on an unknown id returns undefined
    and leaves the store as it was; on a stored campaign it returns the
    campaign it stores under the id, and whatever [updateData] carries,
    [status] and [accountId] included, the campaign keeps its id, its
    account, its status and its creation time, and every other campaign
    is found as before. *)
Theorem updateCampaign_keeps_status_and_account :
  forall (id : Z) (updateData : PartialCampaign.t) (st : MemStorage.t),
    let '(r, st') := MemStorage.updateCampaign st id updateData in
    match MemStorage.getCampaignById st id with
    | None => r = None /\ st' = st
    | Some old =>
        exists c,
          r = Some c
          /\ MemStorage.getCampaignById st' id = Some c
          /\ Campaign.id c = Campaign.id old
          /\ Campaign.accountId c = Campaign.accountId old
          /\ Campaign.status c = Campaign.status old
          /\ Campaign.createdAt c = Campaign.createdAt old
          /\ (forall k, k <> id -> MemStorage.getCampaignById st' k
                                   = MemStorage.getCampaignById st k)
    end.
Proof.
  intros id updateData st.
  unfold MemStorage.updateCampaign, MemStorage.getCampaignById.
  destruct (JsMap.get (MemStorage.campaigns st) id) as [old|] eqn:G.
  - eexists. split; [reflexivity|]. storage_simpl.
    split; [apply get_set_same|].
    split; [reflexivity|]. split; [reflexivity|]. split; [reflexivity|].
    split; [reflexivity|]. intros k Hk. now apply get_set_other.
  - split; reflexivity.
Qed.

Lemma tidy_or_null (o : option string) :
  negb (JS.strict_eq_opt (JS.or_null o) (Some "")) = true.
Proof.
  destruct o as [s|]; [|reflexivity]. unfold JS.or_null, JS.truthy.
  destruct (String.eqb_spec s "") as [->|N]; cbn; [reflexivity|].
  apply negb_true_iff. now apply String.eqb_neq.
Qed.

Lemma forallb_values_set {V : Type} (p : V -> bool) (m : JsMap.t V) k v :
  forallb p (JsMap.values m) = true -> p v = true ->
  forallb p (JsMap.values (JsMap.set m k v)) = true.
Proof.
  unfold JsMap.values. intros F Pv.
  induction m as [|[k' v'] m IH]; cbn in *; [now rewrite Pv|].
  apply andb_true_iff in F. destruct F as [F1 F2].
  destruct (Z.eqb_spec k' k); cbn; [now rewrite Pv|].
  now rewrite F1, IH.
Qed.

Lemma forallb_values_get {V : Type} (p : V -> bool) (m : JsMap.t V) k v :
  forallb p (JsMap.values m) = true -> JsMap.get m k = Some v -> p v = true.
Proof.
  intros F G. rewrite forallb_forall in F. apply F.
  apply get_In in G. unfold JsMap.values.
  change v with (snd (k, v)). now apply in_map.
Qed.

Lemma forallb_values_delete {V : Type} (p : V -> bool) (m : JsMap.t V) k :
  forallb p (JsMap.values m) = true ->
  forallb p (JsMap.values (fst (JsMap.delete m k))) = true.
Proof.
  unfold JsMap.values, JsMap.delete. cbn [fst]. rewrite !forallb_forall.
  intros F v Hv. apply F. apply in_map_iff in Hv. destruct Hv as (e & <- & He).
  apply filter_In in He. now apply in_map.
Qed.

Lemma mem_campaign_step_tidy now op st :
  forallb tidy_campaign (JsMap.values (MemStorage.campaigns st)) = true ->
  forallb tidy_campaign
    (JsMap.values (MemStorage.campaigns (mem_campaign_step now op st))) = true.
Proof.
  intros T. destruct op as [ic|id u|id|id]; cbn [mem_campaign_step].
  - unfold MemStorage.createCampaign. storage_simpl.
    apply forallb_values_set; [exact T|].
    unfold tidy_campaign.
    cbn [Campaign.status Campaign.contactLabel Campaign.scheduledFor].
    now rewrite !tidy_or_null.
  - unfold MemStorage.updateCampaign.
    destruct (JsMap.get (MemStorage.campaigns st) id) as [old|] eqn:G;
      [|exact T].
    storage_simpl. apply forallb_values_set; [exact T|].
    pose proof (forallb_values_get _ _ _ _ T G) as To.
    unfold tidy_campaign in To |- *.
    cbn [Campaign.status Campaign.contactLabel Campaign.scheduledFor].
    apply andb_true_iff in To. destruct To as [To S].
    apply andb_true_iff in To. destruct To as [St L].
    rewrite St.
    destruct (PartialCampaign.contactLabel u);
      destruct (PartialCampaign.scheduledFor u);
      rewrite ?tidy_or_null, ?L, ?S; reflexivity.
  - unfold MemStorage.launchCampaign.
    destruct (JsMap.get (MemStorage.campaigns st) id) as [old|] eqn:G;
      [|exact T].
    cbv zeta.
    match goal with
    | |- context [MemStorage.createOrUpdateAnalytics ?n ?s ?i] =>
        pose proof (mem_createOrUpdateAnalytics_campaigns n s i) as E;
        destruct (MemStorage.createOrUpdateAnalytics n s i) as [r st2]
    end.
    cbn [snd] in E |- *. rewrite E. storage_simpl.
    apply forallb_values_set; [exact T|].
    pose proof (forallb_values_get _ _ _ _ T G) as To.
    unfold tidy_campaign in To |- *.
    cbn [Campaign.status Campaign.contactLabel Campaign.scheduledFor].
    apply andb_true_iff in To. destruct To as [To S].
    apply andb_true_iff in To. destruct To as [_ L].
    now rewrite L, S.
  - unfold MemStorage.deleteCampaign.
    pose proof (forallb_values_delete tidy_campaign (MemStorage.campaigns st) id T)
      as D.
    destruct (JsMap.delete (MemStorage.campaigns st) id) as [m deleted].
    storage_simpl. exact D.
Qed.

(** X16: whatever sequence of [createCampaign], [updateCampaign],
    [launchCampaign] and [deleteCampaign] the in-memory backend runs from
    its empty state, every stored campaign has status "draft" or "active",
    and its contactLabel and scheduledFor are null or a non-empty
    string. *)
Theorem mem_campaigns_stay_tidy :
  forall (ops : list (Z * campaign_op)),
    forallb tidy_campaign
      (JsMap.values (MemStorage.campaigns (mem_campaign_exec ops MemStorage.fresh)))
    = true.
Proof.
  intros ops.
  assert (G : forall st,
             forallb tidy_campaign (JsMap.values (MemStorage.campaigns st)) = true ->
             forallb tidy_campaign
               (JsMap.values (MemStorage.campaigns (mem_campaign_exec ops st)))
             = true).
  { induction ops as [|[now op] rest IH]; intros st T; [exact T|].
    cbn [mem_campaign_exec]. apply IH. now apply mem_campaign_step_tidy. }
  apply G. reflexivity.
Qed.

(** X17: [MemStorage.deleteCampaign(id)] returns whether a campaign was
    stored under the id and removes that campaign only; the analytics rows
    are not touched, so those of the deleted campaign are still listed by
    [getAnalytics]; a later [launchCampaign(id)] returns false and changes
    nothing. *)
Theorem mem_deleteCampaign_keeps_analytics :
  forall (now id : Z) (st : MemStorage.t),
    let '(r, st') := MemStorage.deleteCampaign st id in
    r = is_some (MemStorage.getCampaignById st id)
    /\ MemStorage.getCampaignById st' id = None
    /\ (forall k, k <> id -> MemStorage.getCampaignById st' k
                             = MemStorage.getCampaignById st k)
    /\ (forall accountId campaignId,
           MemStorage.getAnalytics st' accountId campaignId
           = MemStorage.getAnalytics st accountId campaignId)
    /\ MemStorage.launchCampaign now st' id = (false, st').
Proof.
  intros now id st.
  unfold MemStorage.deleteCampaign, MemStorage.getCampaignById.
  pose proof (jsmap_get_delete_same (MemStorage.campaigns st) id) as Same.
  pose proof (fun k => jsmap_get_delete_other (MemStorage.campaigns st) id k)
    as Other.
  unfold JsMap.delete in *. cbn [fst] in Same, Other.
  storage_simpl.
  split; [reflexivity|]. split; [exact Same|]. split; [exact Other|].
  split; [reflexivity|].
  unfold MemStorage.launchCampaign. storage_simpl. now rewrite Same.
Qed.

(** ** Reset tokens *)

Lemma db_createResetToken_users tz now token db userId u :
  DatabaseStorage.getUser db userId = Some u ->
  let '(r, db') := DatabaseStorage.createResetToken tz now token db userId in
  r = Returned token
  /\ DatabaseStorage.users db'
     = map (fun a =>
              if User.id a =? userId
              then with_token token
                     (JSDate.setHours tz now (JSDate.getHours tz now + 1)) a
              else a)
         (DatabaseStorage.users db).
Proof.
  intros E. unfold DatabaseStorage.createResetToken. rewrite E.
  unfold DatabaseStorage.getUser, Drizzle.select in E.
  unfold Drizzle.update. 
  destruct (filter (fun u => User.id u =? userId) (DatabaseStorage.users db))
    as [|u0 tl]; [discriminate|].
  cbn [map]. split; reflexivity.
Qed.

Lemma db_verify_after_createResetToken tz now later token db userId u :
  db_wf db ->
  DatabaseStorage.getUser db userId = Some u ->
  token_free token userId (DatabaseStorage.users db) ->
  DatabaseStorage.verifyResetToken later
    (snd (DatabaseStorage.createResetToken tz now token db userId)) token
  = if JSDate.setHours tz now (JSDate.getHours tz now + 1) <? later then None
    else Some (with_token token
                 (JSDate.setHours tz now (JSDate.getHours tz now + 1)) u).
Proof.
  intros (Wu & _) E Free.
  pose proof (db_createResetToken_users tz now token db userId u E) as C.
  destruct (DatabaseStorage.createResetToken tz now token db userId) as [r db'].
  destruct C as [_ C]. cbn [snd].
  unfold DatabaseStorage.verifyResetToken, Drizzle.select. rewrite C.
  rewrite (filter_map_update (fun a => User.id a =? userId)
             (fun a => SQL.eq_text (User.resetToken a) token)
             (with_token token
                (JSDate.setHours tz now (JSDate.getHours tz now + 1)))).
  - unfold DatabaseStorage.getUser, Drizzle.select, DatabaseStorage.first in E.
    destruct (filter (fun a => User.id a =? userId) (DatabaseStorage.users db))
      as [|u0 tl]; [discriminate|].
    injection E as ->. reflexivity.
  - intros a Ha. destruct (Z.eqb_spec (User.id a) userId) as [K|K].
    + cbn. apply String.eqb_refl.
    + unfold SQL.eq_text. destruct (User.resetToken a) as [t|] eqn:T; [|reflexivity].
      apply String.eqb_neq. intros ->. apply K. now apply Free.
Qed.

Lemma db_old_token_after_createResetToken tz now later old token db userId u :
  DatabaseStorage.getUser db userId = Some u ->
  token_free old userId (DatabaseStorage.users db) ->
  old <> token ->
  DatabaseStorage.verifyResetToken later
    (snd (DatabaseStorage.createResetToken tz now token db userId)) old
  = None.
Proof.
  intros E Free N.
  pose proof (db_createResetToken_users tz now token db userId u E) as C.
  destruct (DatabaseStorage.createResetToken tz now token db userId) as [r db'].
  destruct C as [_ C]. cbn [snd].
  unfold DatabaseStorage.verifyResetToken, Drizzle.select. rewrite C.
  rewrite filter_all_false; [reflexivity|].
  intros a Ha. apply in_map_iff in Ha. destruct Ha as (b & <- & Hb).
  destruct (Z.eqb_spec (User.id b) userId) as [K|K].
  - cbn. apply String.eqb_neq. congruence.
  - unfold SQL.eq_text. destruct (User.resetToken b) as [t|] eqn:T; [|reflexivity].
    apply String.eqb_neq. intros ->. apply K. now apply Free.
Qed.

(** X18: [createResetToken] for a stored user returns the token and
    stores it with the expiry that [setHours(getHours() + 1)] gives, in the
    local time zone, for the time of the call; provided no other user
    holds the same token, [verifyResetToken] then resolves to that user,
    carrying the token and the expiry, at every instant up to and
    including the expiry, and to nobody at every later instant; in both
    backends.  In a time zone whose offset from UTC does not change, the
    expiry is one hour after the call. *)
Theorem resetToken_verifies_until_expiry :
  forall (tz : JSDate.zone) (now later userId : Z) (token : string)
         (db : DatabaseStorage.t) (st : MemStorage.t)
         (u : User.t) (v : User.t),
    db_wf db -> mem_wf st ->
    DatabaseStorage.getUser db userId = Some u ->
    MemStorage.getUser st userId = Some v ->
    token_free token userId (DatabaseStorage.users db) ->
    token_free token userId (JsMap.values (MemStorage.users st)) ->
    let expiry := JSDate.setHours tz now (JSDate.getHours tz now + 1) in
    (let '(r, db') := DatabaseStorage.createResetToken tz now token db userId in
     r = Returned token
     /\ DatabaseStorage.verifyResetToken later db' token
        = if expiry <? later then None else Some (with_token token expiry u))
    /\
    (let '(r, st') := MemStorage.createResetToken tz now token st userId in
     r = Returned token
     /\ MemStorage.verifyResetToken later st' token
        = if expiry <? later then None else Some (with_token token expiry v))
    /\ (forall tza, constant_offset tz tza -> expiry = now + 3600000).
Proof.
  intros tz now later userId token db st u v Wd Wm Eu Ev Fd Fm expiry.
  split; [|split].
  - pose proof (db_createResetToken_users tz now token db userId u Eu) as C.
    pose proof (db_verify_after_createResetToken tz now later token db userId u
                  Wd Eu Fd) as V.
    destruct (DatabaseStorage.createResetToken tz now token db userId) as [r db'].
    split; [apply C|exact V].
  - pose proof (sim_createResetToken tz now token st userId Wm) as S.
    rewrite (sim_getUser st userId Wm) in Ev.
    pose proof (db_createResetToken_users tz now token (tables_of st) userId v Ev)
      as C.
    pose proof (db_verify_after_createResetToken tz now later token (tables_of st)
                  userId v (mem_wf_tables st Wm) Ev Fm) as V.
    destruct (MemStorage.createResetToken tz now token st userId) as [r st'].
    destruct S as [S _]. rewrite S in C, V. cbn [snd] in V.
    split; [apply C|]. now rewrite sim_verifyResetToken.
  - intros tza C. exact (JSDateFacts.setHours_next tz tza now C).
Qed.

Lemma sample_token_free :
  token_free "beef" 1 (DatabaseStorage.users sample_db)
  /\ token_free "beef" 1 (JsMap.values (MemStorage.users sample_mem)).
Proof.
  split; intros u [<-|[]] _; reflexivity.
Qed.

(** In US Eastern time the token created at 01:30 on the night the clocks
    go back expires two hours later. *)
Lemma resetToken_verifies_until_expiry_witness :
  MemStorage.verifyResetToken (1793511000000 + 7200001)
    (snd (MemStorage.createResetToken eastern_2026 1793511000000 "beef"
            sample_mem 1)) "beef"
  = None
  /\ JSDate.setHours (JSDate.fixed 0) 2000 (JSDate.getHours (JSDate.fixed 0) 2000 + 1)
     = 2000 + 3600000.
Proof.
  split.
  - exact (proj2 (proj1 (proj2
             (resetToken_verifies_until_expiry eastern_2026 1793511000000
                (1793511000000 + 7200001) 1 "beef" sample_db sample_mem _ _
                sample_db_wf sample_mem_wf eq_refl eq_refl
                (proj1 sample_token_free) (proj2 sample_token_free))))).
  - exact (proj2 (proj2
             (resetToken_verifies_until_expiry (JSDate.fixed 0) 2000 0 1 "beef"
                sample_db sample_mem _ _ sample_db_wf sample_mem_wf
                eq_refl eq_refl (proj1 sample_token_free)
                (proj2 sample_token_free)))
             0 (fun _ _ => eq_refl)).
Defined.

(** X19: a second [createResetToken] for the same user replaces the token:
    the older token, if no other user holds it, resolves to nobody from
    then on, whatever the time; in both backends. *)
Theorem createResetToken_replaces_older_token :
  forall (tz : JSDate.zone) (now later userId : Z) (old token : string)
         (db : DatabaseStorage.t) (st : MemStorage.t),
    mem_wf st ->
    is_some (DatabaseStorage.getUser db userId) = true ->
    is_some (MemStorage.getUser st userId) = true ->
    token_free old userId (DatabaseStorage.users db) ->
    token_free old userId (JsMap.values (MemStorage.users st)) ->
    old <> token ->
    DatabaseStorage.verifyResetToken later
      (snd (DatabaseStorage.createResetToken tz now token db userId)) old = None
    /\ MemStorage.verifyResetToken later
         (snd (MemStorage.createResetToken tz now token st userId)) old = None.
Proof.
  intros tz now later userId old token db st Wm Eu Ev Fd Fm N. split.
  - destruct (DatabaseStorage.getUser db userId) as [u|] eqn:E; [|discriminate].
    now apply (db_old_token_after_createResetToken _ _ _ _ _ _ _ u).
  - rewrite (sim_getUser st userId Wm) in Ev.
    destruct (DatabaseStorage.getUser (tables_of st) userId) as [v|] eqn:E;
      [|discriminate].
    pose proof (sim_createResetToken tz now token st userId Wm) as S.
    pose proof (db_old_token_after_createResetToken tz now later old token
                  (tables_of st) userId v E Fm N) as V.
    destruct (MemStorage.createResetToken tz now token st userId) as [r st'].
    destruct S as [S _]. rewrite S in V. cbn [snd] in V |- *.
    now rewrite sim_verifyResetToken.
Qed.

Lemma sample_old_token_free :
  token_free "c0ffee" 1 (DatabaseStorage.users sample_db)
  /\ token_free "c0ffee" 1 (JsMap.values (MemStorage.users sample_mem)).
Proof.
  split; intros u [<-|[]] _; reflexivity.
Qed.

Lemma createResetToken_replaces_older_token_witness :
  MemStorage.verifyResetToken 2001
    (snd (MemStorage.createResetToken (JSDate.fixed 0) 2000 "beef" sample_mem 1)) "c0ffee" = None.
Proof.
  refine (proj2 (createResetToken_replaces_older_token (JSDate.fixed 0) 2000 2001 1
                   "c0ffee" "beef"
                   sample_db sample_mem sample_mem_wf eq_refl eq_refl
                   (proj1 sample_old_token_free) (proj2 sample_old_token_free) _)).
  discriminate.
Defined.

(** ** Users *)

Lemma find_app_last {R : Type} (p : R -> bool) (l : list R) (x : R) :
  find p (l ++ [x])
  = match find p l with
    | Some y => Some y
    | None => if p x then Some x else None
    end.
Proof.
  induction l as [|a l IH]; cbn; [reflexivity|]. now destruct (p a).
Qed.

(** X20: [createUser] numbers the user from the id counter and stores it
    without reset token; [getUser] then finds it under its id.  In the
    relational backend, when the username and the email are not taken,
    [getUserByUsername] finds the new user.  The in-memory backend stores
    an absent or empty email as null and checks no uniqueness: a lookup
    by username still resolves to the earliest user of that name, and to
    the new user only when the name was free. *)
Theorem createUser_then_lookup :
  forall (now : Z) (insertUser : InsertUser.t)
         (db : DatabaseStorage.t) (st : MemStorage.t),
    db_wf db -> mem_wf st ->
    DatabaseStorage.getUserByUsername db (InsertUser.username insertUser) = None ->
    match InsertUser.email insertUser with
    | Some email => DatabaseStorage.getUserByEmail db email = None
    | None => True
    end ->
    (let '(r, db') := DatabaseStorage.createUser now db insertUser in
     exists u,
       r = Some u
       /\ User.id u = DatabaseStorage.users_id_seq db
       /\ DatabaseStorage.getUser db' (User.id u) = Some u
       /\ DatabaseStorage.getUserByUsername db' (InsertUser.username insertUser)
          = Some u
       /\ (User.password u, User.resetToken u, User.resetTokenExpiry u)
          = (InsertUser.password insertUser, None, None))
    /\
    (let '(u, st') := MemStorage.createUser now st insertUser in
     User.id u = MemStorage.userCurrentId st
     /\ MemStorage.getUser st' (User.id u) = Some u
     /\ (forall username,
            MemStorage.getUserByUsername st' username
            = match MemStorage.getUserByUsername st username with
              | Some earlier => Some earlier
              | None =>
                  if String.eqb (InsertUser.username insertUser) username
                  then Some u else None
              end)
     /\ User.email u = JS.or_null (InsertUser.email insertUser)
     /\ (User.password u, User.resetToken u, User.resetTokenExpiry u)
        = (InsertUser.password insertUser, None, None)).
Proof.
  intros now insertUser db st (Wu & _) (Mu & _) Fn _. split.
  - unfold DatabaseStorage.createUser, Drizzle.insert.
    eexists. split; [reflexivity|]. cbn [User.id].
    pose proof (table_wf_next_absent User.id _ _ Wu) as A.
    split; [reflexivity|]. split; [|split; [|reflexivity]].
    + unfold DatabaseStorage.getUser, DatabaseStorage.set_users.
      cbn [DatabaseStorage.users]. rewrite select_app, first_app, A.
      unfold Drizzle.select. cbn [filter User.id DatabaseStorage.first hd_error].
      now rewrite Z.eqb_refl.
    + unfold DatabaseStorage.getUserByUsername, DatabaseStorage.set_users in *.
      cbn [DatabaseStorage.users]. rewrite select_app, first_app, Fn.
      unfold Drizzle.select. cbn [filter User.username].
      now rewrite String.eqb_refl.
  - unfold MemStorage.createUser.
    match goal with |- context [JsMap.set ?m ?k ?v] =>
      destruct (set_as_insert User.id m k v Mu eq_refl) as [Hv Hw] end.
    cbn [User.id]. split; [reflexivity|]. storage_simpl.
    split; [apply get_set_same|]. split; [|split; reflexivity].
    intros username. unfold MemStorage.getUserByUsername. storage_simpl.
    rewrite Hv, find_app_last. reflexivity.
Qed.

Lemma createUser_then_lookup_witness :
  MemStorage.getUser
    (snd (MemStorage.createUser 2000 sample_mem
            (InsertUser.mk "dave" "hash1" (Some ""))))
    2
  = Some (User.mk 2 "dave" None "hash1" None None 2000).
Proof.
  exact (proj1 (proj2 (proj2 (createUser_then_lookup 2000
                                (InsertUser.mk "dave" "hash1" (Some ""))
                                sample_db sample_mem sample_db_wf sample_mem_wf
                                eq_refl eq_refl)))).
Defined.

(** ** One analytics row per campaign, whatever the account *)

Lemma getAnalytics_as_analytics_of db accountId campaignId :
  campaignId <> 0 ->
  DatabaseStorage.getAnalytics db accountId (Some campaignId)
  = filter (fun a => Analytics.accountId a =? accountId)
      (analytics_of campaignId (DatabaseStorage.analytics db)).
Proof.
  intros N. unfold DatabaseStorage.getAnalytics, truthy_number.
  destruct (Z.eqb_spec campaignId 0); [contradiction|].
  unfold Drizzle.select, analytics_of. rewrite <- filter_and.
  apply filter_ext. intros a. apply andb_comm.
Qed.

Lemma upserted_account now next rows ia :
  Analytics.accountId (upserted now next rows ia) = InsertAnalytics.accountId ia.
Proof.
  unfold upserted. now destruct (analytics_of _ rows).
Qed.

Lemma db_upsert_listing now db ia accountId campaignId :
  db_wf db ->
  InsertAnalytics.campaignId ia <> 0 ->
  campaignId <> 0 ->
  let '(r, db') := DatabaseStorage.createOrUpdateAnalytics now db ia in
  exists a,
    r = Some a
    /\ DatabaseStorage.getAnalytics db' accountId (Some campaignId)
       = if campaignId =? InsertAnalytics.campaignId ia
         then if accountId =? InsertAnalytics.accountId ia then [a] else []
         else DatabaseStorage.getAnalytics db accountId (Some campaignId).
Proof.
  intros (_ & _ & _ & Wa & U) Ni Nc.
  pose proof (db_createOrUpdateAnalytics_spec now db ia Wa U) as Sp.
  destruct (DatabaseStorage.createOrUpdateAnalytics now db ia) as [r db'].
  cbv zeta in Sp. destruct Sp as (Er & One & Other & _).
  eexists. split; [exact Er|].
  rewrite !getAnalytics_as_analytics_of by assumption.
  destruct (Z.eqb_spec campaignId (InsertAnalytics.campaignId ia)) as [->|N].
  - rewrite One. cbn [filter]. rewrite upserted_account, Z.eqb_sym.
    reflexivity.
  - now rewrite (Other campaignId N).
Qed.

(** X21: [createOrUpdateAnalytics] finds the row to update by campaignId
    alone and writes the accountId it is given: afterwards the returned row
    is the only row [getAnalytics] lists for that campaign, it is listed
    under the account of the call and under no other account, also when
    the row belonged to another account before; the listing of every other
    campaign is as before; in both backends. *)
Theorem createOrUpdateAnalytics_is_keyed_by_campaign :
  forall (now accountId campaignId : Z) (insertAnalytics : InsertAnalytics.t)
         (db : DatabaseStorage.t) (st : MemStorage.t),
    db_wf db -> mem_wf st ->
    InsertAnalytics.campaignId insertAnalytics <> 0 ->
    campaignId <> 0 ->
    (let '(r, db') := DatabaseStorage.createOrUpdateAnalytics now db insertAnalytics in
     exists a,
       r = Some a
       /\ DatabaseStorage.getAnalytics db' accountId (Some campaignId)
          = if campaignId =? InsertAnalytics.campaignId insertAnalytics
            then if accountId =? InsertAnalytics.accountId insertAnalytics
                 then [a] else []
            else DatabaseStorage.getAnalytics db accountId (Some campaignId))
    /\
    (let '(a, st') := MemStorage.createOrUpdateAnalytics now st insertAnalytics in
     MemStorage.getAnalytics st' accountId (Some campaignId)
     = if campaignId =? InsertAnalytics.campaignId insertAnalytics
       then if accountId =? InsertAnalytics.accountId insertAnalytics
            then [a] else []
       else MemStorage.getAnalytics st accountId (Some campaignId)).
Proof.
  intros now accountId campaignId ia db st Wd Wm Ni Nc. split.
  - now apply db_upsert_listing.
  - pose proof (sim_createOrUpdateAnalytics now st ia Wm) as S.
    pose proof (db_upsert_listing now (tables_of st) ia accountId campaignId
                  (mem_wf_tables st Wm) Ni Nc) as L.
    destruct (MemStorage.createOrUpdateAnalytics now st ia) as [a st'].
    destruct S as [S _]. rewrite S in L. destruct L as (b & Eb & L).
    injection Eb as <-. now rewrite !sim_getAnalytics.
Qed.

Lemma createOrUpdateAnalytics_is_keyed_by_campaign_witness :
  MemStorage.getAnalytics
    (snd (MemStorage.createOrUpdateAnalytics 2000 sample_mem
            (InsertAnalytics.mk 7 1 None (Some 3) None None None None)))
    1 (Some 1)
  = [].
Proof.
  refine (proj2 (createOrUpdateAnalytics_is_keyed_by_campaign 2000 1 1
                   (InsertAnalytics.mk 7 1 None (Some 3) None None None None)
                   sample_db sample_mem sample_db_wf sample_mem_wf _ _));
    discriminate.
Defined.

(** ** Choosing the backend *)

(** X22: the storage module never selects the in-memory backend: with a
    non-empty connection string it selects the relational backend, and
    with an absent or empty one the database module it imports throws
    before the selection is made. *)
Theorem storage_never_selects_MemStorage :
  forall (url : option string),
    storage url <> Returned UseMemStorage
    /\ storage url
       = if JS.truthy url then Returned UseDatabaseStorage
         else Thrown "DATABASE_URL must be set. Did you forget to provision a database?".
Proof.
  intros url. unfold storage, Db.load.
  destruct (JS.truthy url); split; (discriminate || reflexivity).
Qed.

(** ** Reading [.env] *)




(** ** The labels offered in the campaign dialog *)

Lemma set_add_In (s : list string) (x y : string) :
  In y (CreateCampaignDialog.set_add s x) <-> In y s \/ y = x.
Proof.
  unfold CreateCampaignDialog.set_add.
  destruct (existsb (String.eqb x) s) eqn:E.
  - split; [tauto|]. intros [H| ->]; [exact H|].
    apply existsb_exists in E. destruct E as (z & Hz & Ez).
    apply String.eqb_eq in Ez. now subst.
  - rewrite in_app_iff. cbn. intuition congruence.
Qed.

Lemma set_add_NoDup (s : list string) (x : string) :
  NoDup s -> NoDup (CreateCampaignDialog.set_add s x).
Proof.
  intros N. unfold CreateCampaignDialog.set_add.
  destruct (existsb (String.eqb x) s) eqn:E; [exact N|].
  apply NoDup_app; [exact N|repeat constructor; cbn; tauto|].
  intros y Hy [Exy|[]]. subst y.
  assert (existsb (String.eqb x) s = true)
    by (apply existsb_exists; exists x; split; [exact Hy|apply String.eqb_refl]).
  congruence.
Qed.

Lemma fold_set_add (array acc : list string) :
  NoDup acc ->
  NoDup (fold_left CreateCampaignDialog.set_add array acc)
  /\ forall y, In y (fold_left CreateCampaignDialog.set_add array acc)
               <-> In y acc \/ In y array.
Proof.
  revert acc. induction array as [|x array IH]; intros acc N; cbn [fold_left].
  - split; [exact N|]. intros y. cbn. tauto.
  - destruct (IH _ (set_add_NoDup acc x N)) as [N' I]. split; [exact N'|].
    intros y. rewrite I, set_add_In. cbn. intuition congruence.
Qed.

Lemma filter_Boolean_In (labels : list (option string)) (l : string) :
  In l (CreateCampaignDialog.filter_Boolean labels)
  <-> l <> "" /\ In (Some l) labels.
Proof.
  induction labels as [|[x|] labels IH]; cbn [CreateCampaignDialog.filter_Boolean].
  - cbn. tauto.
  - destruct (String.eqb_spec x "") as [->|N].
    + rewrite IH. cbn. intuition congruence.
    + cbn. rewrite IH. intuition congruence.
  - rewrite IH. cbn. intuition congruence.
Qed.

(** X24: the value of [uniqueLabels] holds no label twice, and holds a
    label exactly when it is not empty and some contact of the query
    result carries it; it is empty when the result is not an array.  The
    dialog renders an item for those of them that are not blank: no item
    is rendered twice, and an item is rendered for a label exactly when
    the label is not empty, [trim] does not make it empty, and some
    contact carries it; [trim] is [String.prototype.trim], an argument
    here. *)
Theorem labelItems_are_the_distinct_nonblank_labels :
  forall (trim : string -> string) (contacts : list Contact.t),
    NoDup (CreateCampaignDialog.uniqueLabels (Some contacts))
    /\ (forall l,
           In l (CreateCampaignDialog.uniqueLabels (Some contacts))
           <-> l <> "" /\ exists c, In c contacts /\ Contact.label c = Some l)
    /\ CreateCampaignDialog.uniqueLabels None = []
    /\ NoDup (CreateCampaignDialog.labelItems trim (Some contacts))
    /\ (forall l,
           In l (CreateCampaignDialog.labelItems trim (Some contacts))
           <-> l <> "" /\ trim l <> ""
               /\ exists c, In c contacts /\ Contact.label c = Some l)
    /\ CreateCampaignDialog.labelItems trim None = [].
Proof.
  intros trim contacts.
  assert (U : NoDup (CreateCampaignDialog.uniqueLabels (Some contacts))
              /\ forall l,
                   In l (CreateCampaignDialog.uniqueLabels (Some contacts))
                   <-> l <> ""
                       /\ exists c, In c contacts /\ Contact.label c = Some l).
  { unfold CreateCampaignDialog.uniqueLabels. cbv zeta.
    unfold CreateCampaignDialog.array_from_set.
    destruct (fold_set_add
                (CreateCampaignDialog.filter_Boolean (map Contact.label contacts))
                [] (NoDup_nil _)) as [N I].
    split; [exact N|].
    intros l. rewrite I, filter_Boolean_In, in_map_iff. cbn.
    split.
    - intros [[]|(Nl & c & E & Hc)]. split; [exact Nl|]. now exists c.
    - intros (Nl & c & Hc & E). right. split; [exact Nl|]. now exists c. }
  destruct U as [N I].
  split; [exact N|]. split; [exact I|]. split; [reflexivity|].
  unfold CreateCampaignDialog.labelItems.
  split; [now apply NoDup_filter|]. split; [|reflexivity].
  intros l. rewrite filter_In, I, andb_true_iff, !negb_true_iff.
  split.
  - intros ((Nl & C) & _ & T). split; [exact Nl|]. split; [|exact C].
    now apply String.eqb_neq.
  - intros (Nl & T & C). split; [split; [exact Nl|exact C]|].
    split; now apply String.eqb_neq.
Qed.

(** ** Settings of an account, in-memory backend *)

Lemma find_map_stable {R : Type} (q : R -> bool) (g : R -> R) (l : list R) :
  (forall x, In x l -> q (g x) = q x) ->
  find q (map g l) = option_map g (find q l).
Proof.
  induction l as [|a l IH]; intros K; [reflexivity|]. cbn [map find].
  rewrite (K a (or_introl eq_refl)).
  destruct (q a); [reflexivity|]. apply IH. intros x Hx. apply K. now right.
Qed.

Lemma get_of_value {V : Type} (id : V -> Z) (m : JsMap.t V) next e :
  map_wf id m next -> In e (JsMap.values m) -> JsMap.get m (id e) = Some e.
Proof.
  intros W H. rewrite (get_as_select id m next (id e) W).
  pose proof (map_wf_table id m next W) as [N _].
  unfold Drizzle.select. now rewrite (filter_key_unique id _ e N H).
Qed.

Lemma updateSettings_existing now st accountId p e :
  settings_wf st ->
  same_account accountId p = true ->
  MemStorageSettings.getSettings st accountId = Some e ->
  let '(s, st') := MemStorageSettings.updateSettings now st accountId p in
  let g := fun x => if Settings.id x =? Settings.id e then s else x in
  Settings.id s = Settings.id e
  /\ Settings.accountId s = accountId
  /\ JsMap.values (MemStorageSettings.settingsData st')
     = map g (JsMap.values (MemStorageSettings.settingsData st))
  /\ (forall x, In x (JsMap.values (MemStorageSettings.settingsData st)) ->
                Settings.accountId (g x) = Settings.accountId x)
  /\ MemStorageSettings.settingsCurrentId st'
     = MemStorageSettings.settingsCurrentId st
  /\ settings_wf st'.
Proof.
  intros W Sa E. unfold MemStorageSettings.updateSettings. rewrite E. cbv zeta.
  unfold MemStorageSettings.getSettings in E.
  pose proof (find_some _ _ E) as [He Ha]. apply Z.eqb_eq in Ha.
  pose proof (get_of_value Settings.id _ _ e W He) as G.
  set (s := Settings.mk _ _ _ _ _ _ _ _).
  assert (As : Settings.accountId s = accountId).
  { subst s. cbn [Settings.accountId]. unfold same_account in Sa.
    destruct (PartialSettings.accountId p) as [a|]; cbn [JS.spread];
      [now apply Z.eqb_eq|exact Ha]. }
  destruct (set_as_update Settings.id _ _ (Settings.id e) (fun _ => s) e W G
              eq_refl) as [Hv Hw].
  cbn [MemStorageSettings.settingsData MemStorageSettings.settingsCurrentId].
  split; [reflexivity|]. split; [exact As|]. split; [exact Hv|].
  split; [|split; [reflexivity|exact Hw]].
  intros x Hx. destruct (Z.eqb_spec (Settings.id x) (Settings.id e)) as [K|K];
    [|reflexivity].
  pose proof (map_wf_table Settings.id _ _ W) as [N _].
  rewrite (key_inj_in Settings.id _ x e N Hx He K). congruence.
Qed.

Lemma updateSettings_new now st accountId p :
  settings_wf st ->
  MemStorageSettings.getSettings st accountId = None ->
  let '(s, st') := MemStorageSettings.updateSettings now st accountId p in
  Settings.id s = MemStorageSettings.settingsCurrentId st
  /\ Settings.accountId s = accountId
  /\ JsMap.values (MemStorageSettings.settingsData st')
     = JsMap.values (MemStorageSettings.settingsData st) ++ [s]
  /\ settings_wf st'.
Proof.
  intros W E. unfold MemStorageSettings.updateSettings. rewrite E. cbv zeta.
  match goal with |- context [JsMap.set ?m ?k ?v] =>
    destruct (set_as_insert Settings.id m k v W eq_refl) as [Hv Hw] end.
  cbn [MemStorageSettings.settingsData MemStorageSettings.settingsCurrentId
       Settings.id Settings.accountId].
  split; [reflexivity|]. split; [reflexivity|]. split; [exact Hv|exact Hw].
Qed.

(** X25: in the in-memory backend, on a store whose settings rows sit
    under their own ids, [updateSettings] for an account, with data that
    names no other account, returns the row that [getSettings] then finds
    for that account; the settings of every other account are found as
    before; an account that had a row keeps the row's id and no id is
    consumed, an account that had none gets the next id; and if no account
    had two rows before, none has two afterwards. *)
Theorem updateSettings_then_getSettings :
  forall (now accountId : Z) (settingsData : PartialSettings.t)
         (st : MemStorageSettings.t),
    settings_wf st ->
    same_account accountId settingsData = true ->
    let '(s, st') := MemStorageSettings.updateSettings now st accountId settingsData in
    MemStorageSettings.getSettings st' accountId = Some s
    /\ Settings.accountId s = accountId
    /\ Settings.updatedAt s = now
    /\ (forall other, other <> accountId ->
                      MemStorageSettings.getSettings st' other
                      = MemStorageSettings.getSettings st other)
    /\ match MemStorageSettings.getSettings st accountId with
       | Some existing =>
           Settings.id s = Settings.id existing
           /\ MemStorageSettings.settingsCurrentId st'
              = MemStorageSettings.settingsCurrentId st
       | None =>
           Settings.id s = MemStorageSettings.settingsCurrentId st
           /\ MemStorageSettings.settingsCurrentId st'
              = MemStorageSettings.settingsCurrentId st + 1
       end
    /\ settings_wf st'
    /\ (one_per_account st -> one_per_account st').
Proof.
  intros now accountId p st W Sa.
  destruct (MemStorageSettings.getSettings st accountId) as [e|] eqn:E.
  - pose proof (updateSettings_existing now st accountId p e W Sa E) as X.
    assert (T : Settings.updatedAt
                  (fst (MemStorageSettings.updateSettings now st accountId p))
                = now)
      by (unfold MemStorageSettings.updateSettings; now rewrite E).
    destruct (MemStorageSettings.updateSettings now st accountId p) as [s st'].
    cbv zeta in X. destruct X as (Ei & Ea & Hv & Stable & Ec & W').
    cbn [fst] in T.
    assert (Q : forall b x,
               In x (JsMap.values (MemStorageSettings.settingsData st)) ->
               (Settings.accountId
                  (if Settings.id x =? Settings.id e then s else x) =? b)
               = (Settings.accountId x =? b))
      by (intros b x Hx; now rewrite (Stable x Hx)).
    unfold MemStorageSettings.getSettings in *.
    split; [|split; [exact Ea|split; [exact T|split; [|split; [|split]]]]].
    + rewrite Hv, (find_map_stable _ _ _ (Q accountId)), E. cbn [option_map].
      now rewrite Z.eqb_refl.
    + intros other No. rewrite Hv, (find_map_stable _ _ _ (Q other)).
      pose proof (find_some _ _ E) as [He Ae]. apply Z.eqb_eq in Ae.
      destruct (find (fun x => Settings.accountId x =? other) _) as [y|] eqn:F;
        [|reflexivity].
      cbn [option_map].
      pose proof (find_some _ _ F) as [Hy Ay]. apply Z.eqb_eq in Ay.
      destruct (Z.eqb_spec (Settings.id y) (Settings.id e)) as [K|K];
        [|reflexivity].
      pose proof (map_wf_table Settings.id _ _ W) as [N _].
      rewrite (key_inj_in Settings.id _ y e N Hy He K) in Ay. congruence.
    + split; [exact Ei|exact Ec].
    + exact W'.
    + unfold one_per_account. rewrite Hv, map_map. intros N.
      erewrite map_ext_in; [exact N|]. exact Stable.
  - pose proof (updateSettings_new now st accountId p W E) as X.
    assert (T : Settings.updatedAt
                  (fst (MemStorageSettings.updateSettings now st accountId p))
                = now
                /\ MemStorageSettings.settingsCurrentId
                     (snd (MemStorageSettings.updateSettings now st accountId p))
                   = MemStorageSettings.settingsCurrentId st + 1)
      by (unfold MemStorageSettings.updateSettings; now rewrite E).
    destruct (MemStorageSettings.updateSettings now st accountId p) as [s st'].
    destruct X as (Ei & Ea & Hv & W'). cbn [fst snd] in T. destruct T as [T C].
    unfold MemStorageSettings.getSettings in *.
    split; [|split; [exact Ea|split; [exact T|split; [|split; [|split]]]]].
    + rewrite Hv, find_app_last, E, Ea. now rewrite Z.eqb_refl.
    + intros other No. rewrite Hv, find_app_last, Ea.
      destruct (find (fun x => Settings.accountId x =? other) _); [reflexivity|].
      destruct (Z.eqb_spec accountId other); [congruence|reflexivity].
    + split; [exact Ei|exact C].
    + exact W'.
    + unfold one_per_account. rewrite Hv, map_app. cbn [map]. intros N.
      apply NoDup_app; [exact N|repeat constructor; cbn; tauto|].
      intros a Ha [<-|[]]. apply in_map_iff in Ha. destruct Ha as (x & Ax & Hx).
      pose proof (find_none _ _ E x Hx) as F. apply Z.eqb_neq in F. congruence.
Qed.

Lemma updateSettings_then_getSettings_witness :
  MemStorageSettings.getSettings
    (snd (MemStorageSettings.updateSettings 2000 MemStorageSettings.fresh 1
            (PartialSettings.mk None (Some (Some "https://waba.example")) None
               None None (Some (Some "")))))
    1
  = Some (Settings.mk 1 1 (Some "https://waba.example") None None None None 2000).
Proof.
  refine (proj1 (updateSettings_then_getSettings 2000 1
                   (PartialSettings.mk None (Some (Some "https://waba.example"))
                      None None None (Some (Some "")))
                   MemStorageSettings.fresh _ eq_refl)).
  split; constructor.
Defined.

(** ** How the two backends combine filters *)

(** X26: the relational backend applies one filter only: of the fields of
    a filters object it uses the first non-empty one, in the order search,
    label, location, dateRange for contacts and search, status, dateRange
    for campaigns, and ignores every field after it. *)
Theorem db_listings_apply_first_filter_only :
  forall (tz : JSDate.zone) (now startDate accountId : Z)
         (f : ContactFilters.t) (g : CampaignFilters.t)
         (db : DatabaseStorage.t),
    DatabaseStorage.getContacts tz now startDate db accountId (Some f)
    = DatabaseStorage.getContacts tz now startDate db accountId
        (Some
           (if JS.truthy (ContactFilters.search f)
            then ContactFilters.mk (ContactFilters.search f) None None None
            else if JS.truthy (ContactFilters.label f)
            then ContactFilters.mk None (ContactFilters.label f) None None
            else if JS.truthy (ContactFilters.location f)
            then ContactFilters.mk None None (ContactFilters.location f) None
            else ContactFilters.mk None None None (ContactFilters.dateRange f)))
    /\ DatabaseStorage.getCampaigns tz now startDate db accountId (Some g)
       = DatabaseStorage.getCampaigns tz now startDate db accountId
           (Some
              (if JS.truthy (CampaignFilters.search g)
               then CampaignFilters.mk (CampaignFilters.search g) None None
               else if JS.truthy (CampaignFilters.status g)
               then CampaignFilters.mk None (CampaignFilters.status g) None
               else CampaignFilters.mk None None (CampaignFilters.dateRange g))).
Proof.
  intros. split; [apply db_getContacts_priority|apply db_getCampaigns_priority].
Qed.

(** X27: when the filters hold no search term, every record the in-memory
    backend lists is listed by the relational backend on the same
    records: the in-memory backend applies every non-empty filter, the
    relational backend only the first. *)
Theorem memory_listing_within_relational_listing :
  forall (toLowerCase : string -> string) (tz : JSDate.zone)
         (now startDate accountId : Z)
         (f : ContactFilters.t) (g : CampaignFilters.t)
         (st : MemStorage.t) (contact : Contact.t) (campaign : Campaign.t),
    JS.truthy (ContactFilters.search f) = false ->
    JS.truthy (CampaignFilters.search g) = false ->
    (In contact (MemStorage.getContacts toLowerCase tz now startDate st accountId (Some f)) ->
     In contact (DatabaseStorage.getContacts tz now startDate (tables_of st) accountId
                   (Some f)))
    /\ (In campaign (MemStorage.getCampaigns toLowerCase tz now startDate st accountId (Some g)) ->
        In campaign (DatabaseStorage.getCampaigns tz now startDate (tables_of st) accountId
                       (Some g))).
Proof.
  intros toLowerCase tz now startDate accountId f g st contact campaign Sf Sg.
  unfold MemStorage.getContacts, DatabaseStorage.getContacts,
    MemStorage.getCampaigns, DatabaseStorage.getCampaigns, Drizzle.select.
  rewrite !(or_null_falsy _ Sf), !(or_null_falsy _ Sg). cbv zeta.
  cbn [tables_of DatabaseStorage.contacts DatabaseStorage.campaigns].
  split.
  - destruct (JS.or_null (ContactFilters.label f));
      destruct (JS.or_null (ContactFilters.location f));
      destruct (JS.or_null (ContactFilters.dateRange f));
      rewrite ?filter_In, ?andb_true_iff, ?eq_text_strict; tauto.
  - destruct (JS.or_null (CampaignFilters.status g));
      destruct (JS.or_null (CampaignFilters.dateRange g));
      rewrite ?filter_In, ?andb_true_iff; tauto.
Qed.

Lemma memory_listing_within_relational_listing_witness :
  In (Contact.mk 1 1 "alice" "111" (Some "other") None 1000)
    (DatabaseStorage.getContacts (JSDate.fixed 0) 1000 1000 (tables_of sample_mem) 1
       (Some (ContactFilters.mk None (Some "other") None (Some "sometime")))).
Proof.
  refine (proj1 (memory_listing_within_relational_listing JS.toLowerCase
                   (JSDate.fixed 0) 1000 1000 1
                   (ContactFilters.mk None (Some "other") None (Some "sometime"))
                   (CampaignFilters.mk None None None) sample_mem
                   (Contact.mk 1 1 "alice" "111" (Some "other") None 1000)
                   (Campaign.mk 0 0 "" "" None "" None 0) eq_refl eq_refl) _).
  left. reflexivity.
Defined.

(** ** Listing analytics *)

Lemma analytics_of_at_most_one rows campaignId :
  one_per_campaign rows -> (List.length (analytics_of campaignId rows) <= 1)%nat.
Proof.
  intros U. unfold analytics_of.
  destruct (in_dec Z.eq_dec campaignId (map Analytics.campaignId rows)) as [H|H].
  - apply in_map_iff in H. destruct H as (e & <- & He).
    rewrite (filter_key_unique Analytics.campaignId rows e U He). cbn. lia.
  - rewrite (filter_key_absent Analytics.campaignId rows campaignId H). cbn. lia.
Qed.

Lemma filter_length_le {R : Type} (p : R -> bool) (l : list R) :
  (List.length (filter p l) <= List.length l)%nat.
Proof.
  induction l as [|a l IH]; cbn; [lia|]. destruct (p a); cbn; lia.
Qed.

(** X30: [getAnalytics] with an absent campaignId, or with campaignId 0,
    lists every analytics row of the account; with any other campaignId it
    lists rows of that campaign and account only, on a well-formed store
    at most one; in both backends. *)
Theorem getAnalytics_lists_at_most_one_row_per_campaign :
  forall (accountId campaignId : Z) (db : DatabaseStorage.t) (st : MemStorage.t),
    db_wf db -> mem_wf st -> campaignId <> 0 ->
    DatabaseStorage.getAnalytics db accountId (Some 0)
    = DatabaseStorage.getAnalytics db accountId None
    /\ MemStorage.getAnalytics st accountId (Some 0)
       = MemStorage.getAnalytics st accountId None
    /\ DatabaseStorage.getAnalytics db accountId (Some campaignId)
       = filter (fun a => Analytics.campaignId a =? campaignId)
           (DatabaseStorage.getAnalytics db accountId None)
    /\ MemStorage.getAnalytics st accountId (Some campaignId)
       = filter (fun a => Analytics.campaignId a =? campaignId)
           (MemStorage.getAnalytics st accountId None)
    /\ (List.length (DatabaseStorage.getAnalytics db accountId (Some campaignId))
        <= 1)%nat
    /\ (List.length (MemStorage.getAnalytics st accountId (Some campaignId))
        <= 1)%nat.
Proof.
  intros accountId campaignId db st Wd Wm N.
  assert (L : forall d, db_wf d ->
                (List.length (DatabaseStorage.getAnalytics d accountId
                                (Some campaignId)) <= 1)%nat).
  { intros d (_ & _ & _ & _ & U).
    rewrite (getAnalytics_as_analytics_of d accountId campaignId N).
    pose proof (analytics_of_at_most_one (DatabaseStorage.analytics d)
                  campaignId U).
    pose proof (filter_length_le (fun a => Analytics.accountId a =? accountId)
                  (analytics_of campaignId (DatabaseStorage.analytics d))).
    lia. }
  split; [reflexivity|]. split; [reflexivity|].
  assert (T : truthy_number (Some campaignId) = Some campaignId)
    by (cbn; now destruct (Z.eqb_spec campaignId 0)).
  split; [|split; [|split]].
  - unfold DatabaseStorage.getAnalytics. rewrite T. cbn [truthy_number].
    unfold Drizzle.select. apply filter_and.
  - unfold MemStorage.getAnalytics. rewrite T. reflexivity.
  - now apply L.
  - rewrite sim_getAnalytics. apply L. now apply mem_wf_tables.
Qed.

Lemma getAnalytics_lists_at_most_one_row_per_campaign_witness :
  Nat.le (List.length (MemStorage.getAnalytics sample_mem 1 (Some 1))) 1.
Proof.
  refine (proj2 (proj2 (proj2 (proj2 (proj2
            (getAnalytics_lists_at_most_one_row_per_campaign 1 1
               sample_db sample_mem sample_db_wf sample_mem_wf _))))) ).
  discriminate.
Defined.

(** ** Filters with one field *)

Lemma mem_getContacts_one_filter toLowerCase tz now startDate st accountId f :
  one_contact_filter f = true ->
  MemStorage.getContacts toLowerCase tz now startDate st accountId (Some f)
  = DatabaseStorage.getContacts tz now startDate (tables_of st) accountId
      (Some f).
Proof.
  destruct f as [s l o d]. unfold one_contact_filter, filled.
  cbn [ContactFilters.search ContactFilters.label ContactFilters.location
       ContactFilters.dateRange].
  rewrite andb_true_iff, negb_true_iff, Z.leb_le. intros [Es Hc].
  unfold MemStorage.getContacts, DatabaseStorage.getContacts, Drizzle.select.
  cbn [ContactFilters.search ContactFilters.label ContactFilters.location
       ContactFilters.dateRange].
  rewrite (or_null_falsy _ Es).
  change (DatabaseStorage.contacts (tables_of st))
    with (JsMap.values (MemStorage.contacts st)).
  destruct (JS.truthy l) eqn:El; destruct (JS.truthy o) eqn:Eo;
    destruct (JS.truthy d) eqn:Ed; try lia;
    repeat match goal with
           | H : JS.truthy ?x = true |- _ =>
               rewrite (or_null_truthy _ H);
               let v := fresh "v" in destruct (truthy_Some _ H) as [v ->]; clear H
           | H : JS.truthy ?x = false |- _ => rewrite (or_null_falsy _ H); clear H
           end;
    try reflexivity;
    rewrite filter_and; try reflexivity;
    apply filter_ext; intros c; symmetry; apply eq_text_strict.
Qed.

Lemma mem_getCampaigns_one_filter toLowerCase tz now startDate st accountId g :
  one_campaign_filter g = true ->
  MemStorage.getCampaigns toLowerCase tz now startDate st accountId (Some g)
  = DatabaseStorage.getCampaigns tz now startDate (tables_of st) accountId
      (Some g).
Proof.
  destruct g as [s u d]. unfold one_campaign_filter, filled.
  cbn [CampaignFilters.search CampaignFilters.status CampaignFilters.dateRange].
  rewrite andb_true_iff, negb_true_iff, Z.leb_le. intros [Es Hc].
  unfold MemStorage.getCampaigns, DatabaseStorage.getCampaigns, Drizzle.select.
  cbn [CampaignFilters.search CampaignFilters.status CampaignFilters.dateRange].
  rewrite (or_null_falsy _ Es).
  change (DatabaseStorage.campaigns (tables_of st))
    with (JsMap.values (MemStorage.campaigns st)).
  destruct (JS.truthy u) eqn:Eu; destruct (JS.truthy d) eqn:Ed; try lia;
    repeat match goal with
           | H : JS.truthy ?x = true |- _ =>
               rewrite (or_null_truthy _ H);
               let v := fresh "v" in destruct (truthy_Some _ H) as [v ->]; clear H
           | H : JS.truthy ?x = false |- _ => rewrite (or_null_falsy _ H); clear H
           end;
    try reflexivity;
    rewrite filter_and; reflexivity.
Qed.

(** X28: for filters that hold no search term and at most one other
    non-empty field, the two backends list the same records of the same
    stored records: a contact or a campaign is listed by the in-memory
    backend exactly when it is listed by the relational backend. *)
Theorem backends_list_the_same_records_on_one_filter :
  forall (toLowerCase : string -> string) (tz : JSDate.zone)
         (now startDate accountId : Z)
         (f : ContactFilters.t) (g : CampaignFilters.t)
         (st : MemStorage.t) (contact : Contact.t) (campaign : Campaign.t),
    one_contact_filter f = true ->
    one_campaign_filter g = true ->
    (In contact (MemStorage.getContacts toLowerCase tz now startDate st accountId
                   (Some f))
     <-> In contact (DatabaseStorage.getContacts tz now startDate (tables_of st)
                       accountId (Some f)))
    /\ (In campaign (MemStorage.getCampaigns toLowerCase tz now startDate st
                       accountId (Some g))
        <-> In campaign (DatabaseStorage.getCampaigns tz now startDate
                           (tables_of st) accountId (Some g))).
Proof.
  intros toLowerCase tz now startDate accountId f g st contact campaign Hf Hg.
  rewrite (mem_getContacts_one_filter _ _ _ _ _ _ _ Hf),
    (mem_getCampaigns_one_filter _ _ _ _ _ _ _ Hg).
  split; reflexivity.
Qed.

Lemma backends_list_the_same_records_on_one_filter_witness :
  In (Contact.mk 1 1 "alice" "111" (Some "other") None 1000)
    (MemStorage.getContacts JS.toLowerCase (JSDate.fixed 0) 2000 2001 sample_mem 1
       (Some (ContactFilters.mk (Some "") (Some "other") None None))).
Proof.
  apply (proj1 (backends_list_the_same_records_on_one_filter JS.toLowerCase
                  (JSDate.fixed 0) 2000 2001 1
                  (ContactFilters.mk (Some "") (Some "other") None None)
                  (CampaignFilters.mk None None (Some "today")) sample_mem
                  (Contact.mk 1 1 "alice" "111" (Some "other") None 1000)
                  (Campaign.mk 0 0 "" "" None "" None 0) eq_refl eq_refl)).
  left. reflexivity.
Defined.

(** ** Well-formedness is an invariant of the in-memory backend *)

Lemma map_wf_delete {V : Type} (id : V -> Z) (m : JsMap.t V) next k :
  map_wf id m next -> map_wf id (fst (JsMap.delete m k)) next.
Proof.
  unfold JsMap.delete. cbn [fst]. intros [N F]. split.
  - induction m as [|[k' v] m IH]; [constructor|].
    cbn in N |- *. apply NoDup_cons_iff in N. destruct N as [Nin N].
    apply Forall_cons_iff in F. destruct F as [_ F].
    destruct (negb (k' =? k)); [|now apply IH]. cbn.
    constructor; [|now apply IH].
    intros H. apply Nin. apply in_map_iff in H. destruct H as (e & E & He).
    apply filter_In in He. apply in_map_iff. exists e. tauto.
  - rewrite Forall_forall in *. intros e He. apply F.
    apply filter_In in He. tauto.
Qed.

Lemma map_wf_get {V : Type} (id : V -> Z) (m : JsMap.t V) next k v :
  map_wf id m next -> JsMap.get m k = Some v -> id v = k.
Proof.
  intros [_ F] G. apply get_In in G. rewrite Forall_forall in F.
  now destruct (F _ G).
Qed.

Lemma mem_wf_contacts st m :
  mem_wf st -> map_wf Contact.id m (MemStorage.contactCurrentId st) ->
  mem_wf (MemStorage.set_contacts st m (MemStorage.contactCurrentId st)).
Proof.
  intros (Wu & Wc & Wg & Wa & U) Wm. exact (conj Wu (conj Wm (conj Wg (conj Wa U)))).
Qed.

Lemma mem_write_step_wf tz now w st :
  mem_wf st -> mem_wf (mem_write_step tz now w st).
Proof.
  intros W. pose proof W as (Wu & Wc & Wg & Wa & U).
  destruct w; cbn [mem_write_step].
  - unfold MemStorage.createUser.
    match goal with |- context [JsMap.set ?m ?k ?v] =>
      destruct (set_as_insert User.id m k v Wu eq_refl) as [_ Hw] end.
    exact (conj Hw (conj Wc (conj Wg (conj Wa U)))).
  - pose proof (sim_createResetToken tz now token st userId W) as S.
    destruct (MemStorage.createResetToken tz now token st userId). apply S.
  - pose proof (sim_updatePassword st userId password W) as S.
    destruct (MemStorage.updatePassword st userId password). apply S.
  - pose proof (sim_createContact now st insertContact W) as S.
    destruct (MemStorage.createContact now st insertContact). apply S.
  - unfold MemStorage.updateContact.
    destruct (JsMap.get (MemStorage.contacts st) id) as [contact|] eqn:G;
      [|exact W].
    cbn [snd]. apply mem_wf_contacts; [exact W|].
    match goal with |- context [JsMap.set ?m ?k ?v] =>
      exact (proj2 (set_as_update Contact.id m _ k (fun _ => v) contact Wc G
                      (map_wf_get Contact.id _ _ _ _ Wc G))) end.
  - unfold MemStorage.deleteContact.
    pose proof (map_wf_delete Contact.id _ _ id Wc) as D.
    destruct (JsMap.delete (MemStorage.contacts st) id) as [m deleted].
    cbn [snd fst] in *. now apply mem_wf_contacts.
  - pose proof (sim_importContacts_loop now deduplicateByMobile contacts st 0 0 W)
      as S.
    unfold MemStorage.importContacts.
    destruct (MemStorage.importContacts_loop _ _ _ _ _ _). apply S.
  - unfold MemStorage.createCampaign.
    match goal with |- context [JsMap.set ?m ?k ?v] =>
      destruct (set_as_insert Campaign.id m k v Wg eq_refl) as [_ Hw] end.
    exact (conj Wu (conj Wc (conj Hw (conj Wa U)))).
  - unfold MemStorage.updateCampaign.
    destruct (JsMap.get (MemStorage.campaigns st) id) as [campaign|] eqn:G;
      [|exact W].
    cbn [snd]. apply mem_wf_campaigns; [exact W|].
    match goal with |- context [JsMap.set ?m ?k ?v] =>
      exact (proj2 (set_as_update Campaign.id m _ k (fun _ => v) campaign Wg G
                      (map_wf_get Campaign.id _ _ _ _ Wg G))) end.
  - unfold MemStorage.deleteCampaign.
    pose proof (map_wf_delete Campaign.id _ _ id Wg) as D.
    destruct (JsMap.delete (MemStorage.campaigns st) id) as [m deleted].
    cbn [snd fst] in *. now apply mem_wf_campaigns.
  - pose proof (sim_launchCampaign now st id W) as S.
    destruct (MemStorage.launchCampaign now st id). apply S.
  - pose proof (sim_createOrUpdateAnalytics now st insertAnalytics W) as S.
    destruct (MemStorage.createOrUpdateAnalytics now st insertAnalytics). apply S.
Qed.

(** X29: every state that the in-memory backend reaches from its empty
    state by any sequence of the twelve methods that write its users,
    contacts, campaigns or analytics ([createUser], [createResetToken],
    [updatePassword], [createContact], [updateContact], [deleteContact],
    [importContacts], [createCampaign], [updateCampaign], [deleteCampaign],
    [launchCampaign], [createOrUpdateAnalytics]), with arguments of the
    declared types (the update data hold no id), is well formed: in each of
    the four [Map]s the keys are distinct, each entry sits under its own
    id and below the id counter, and no campaign has two analytics
    rows. *)
Theorem mem_writes_keep_wf :
  forall (tz : JSDate.zone) (writes : list (Z * mem_write)),
    mem_wf (mem_write_exec tz writes MemStorage.fresh).
Proof.
  intros tz writes. generalize MemStorage.fresh (proj2 fresh_wf).
  induction writes as [|[now w] rest IH]; intros st W; [exact W|].
  cbn [mem_write_exec]. apply IH. now apply mem_write_step_wf.
Qed.
